(** * The heuristic scoring engine of the LLM evaluation framework

    A shallow embedding of [src/evaluators/*.py] and of the aggregation loop
    of [src/main.py], and the properties of the specification proved (or
    refuted) on it.

    Conventions of the embedding.
    - A Python [str] is a Rocq [string]; one [ascii] is one code point, so the
      strings covered are those whose code points lie below 256.  The
      character tables of [PyStr] are CPython's for that range.
    - A Python [float] that is a score is a rational of [Q].  Scores are
      compared with [==] and the order of [Q], and their sums and products
      are exact: the rounding of binary64 is modelled where a number is read
      from a text and compared with another ([Binary64]), and in
      [weights_binary64] at the end.  Where an exact sum attains its bound
      and the binary64 sum of the code passes it in the last place, the
      lemma on the exact sum is a step of the proof, and the theorem states
      the bound with a margin.
    - A Python [int] that counts something is a [nat].
    - A Python [set] of strings is a [gset string].
    - A division is written with [/] of [Q] only under the guard the source
      has for its denominator; [try/except] is modelled with [option]. *)

From Stdlib Require Import QArith Qminmax Qround Qabs Qpower Lqa Ascii String List
  ZArith Lia.
From Stdlib Require Import Floats.
From stdpp Require Import base gmap sets list strings.

(** ** Rational helpers *)

Definition Qnat (n : nat) : Q := inject_Z (Z.of_nat n).

Definition Qltb (x y : Q) : bool := negb (Qle_bool y x).
Definition Qleb (x y : Q) : bool := Qle_bool x y.
Definition Qeqb (x y : Q) : bool := Qeq_bool x y.

(** [max(0.0, min(1.0, x))], the clamp every sub-score ends with. *)
Definition clamp01 (x : Q) : Q := Qmax 0.0 (Qmin 1.0 x).

(** Python's [round(x, 3)], on the exact rational: the nearest multiple of
    1/1000, a tie going to the even one. *)
Definition round3 (x : Q) : Q :=
  let y := (x * 1000)%Q in
  let f := Qfloor y in
  let d := (y - inject_Z f)%Q in
  let n :=
    if Qltb d 0.5 then f
    else if Qltb 0.5 d then (f + 1)%Z
    else if Z.even f then f else (f + 1)%Z in
  (inject_Z n / 1000)%Q.

(** ** The floats of Python

    A binary64 number is a rational [m * 2 ^ e] with [|m| < 2 ^ 53] and
    [-1074 <= e], below [2 ^ 1024] in absolute value, an infinity, or a nan.
    The sign of a zero, which no operation used here can observe, is left
    out.  Every operation returns the binary64 number nearest to the exact
    result, a tie going to the one whose [m] is even, and an infinity when
    that nearest number would reach [2 ^ 1024]. *)

Module Binary64.
Local Open Scope Q_scope.

Inductive binary64 : Type :=
| Finite (x : Q)
| Infinity (negative : bool)
| NaN.

(** The exponent of the greatest power of two that is at most [x], for a
    positive [x]. *)
Definition floor_log2 (x : Q) : Z :=
  let estimate := (Z.log2 (Qnum x) - Z.log2 (Zpos (Qden x)))%Z in
  if Qleb (2 ^ estimate) x then estimate else (estimate - 1)%Z.

(** The integer nearest to a rational, a tie going to the even one. *)
Definition ties_to_even (t : Q) : Z :=
  let below := Qfloor t in
  let rest := t - inject_Z below in
  if Qltb rest 0.5 then below
  else if Qltb 0.5 rest then (below + 1)%Z
  else if Z.even below then below else (below + 1)%Z.

(** The binary64 number a rational is rounded to: a multiple of the unit in
    the last place of its binade, [2 ^ -1074] for the subnormal numbers. *)
Definition round64 (x : Q) : binary64 :=
  if Qeqb x 0 then Finite 0
  else
    let exponent := Z.max (floor_log2 (Qabs x) - 52) (-1074) in
    let nearest := inject_Z (ties_to_even (x / 2 ^ exponent)) * 2 ^ exponent in
    if Qleb (2 ^ 1024) (Qabs nearest) then Infinity (Qltb x 0)
    else Finite (Qred nearest).

(** [x == y] *)
Definition eqb (x y : binary64) : bool :=
  match x, y with
  | Finite a, Finite b => Qeqb a b
  | Infinity s, Infinity s' => Bool.eqb s s'
  | _, _ => false
  end.

(** [x < y] *)
Definition ltb (x y : binary64) : bool :=
  match x, y with
  | Finite a, Finite b => Qltb a b
  | Finite _, Infinity s => negb s
  | Infinity s, Finite _ => s
  | Infinity s, Infinity s' => s && negb s'
  | _, _ => false
  end.

(** [abs(x)] *)
Definition abs (x : binary64) : binary64 :=
  match x with
  | Finite a => Finite (Qabs a)
  | Infinity _ => Infinity false
  | NaN => NaN
  end.

(** [x - y] *)
Definition sub (x y : binary64) : binary64 :=
  match x, y with
  | Finite a, Finite b => round64 (a - b)
  | Finite _, Infinity s => Infinity (negb s)
  | Infinity s, Finite _ => Infinity s
  | Infinity s, Infinity s' => if Bool.eqb s s' then NaN else Infinity s
  | _, _ => NaN
  end.

(** [x / y]; [None] stands for [ZeroDivisionError]. *)
Definition div (x y : binary64) : option binary64 :=
  if eqb y (Finite 0) then None
  else
    Some
      match x, y with
      | Finite a, Finite b => round64 (a / b)
      | Finite _, Infinity _ => Finite 0
      | Infinity s, Finite b => Infinity (xorb s (Qltb b 0))
      | _, _ => NaN
      end.

(** [max(x, y)]: the second argument when it is greater than the first,
    and the first otherwise, also when one of them is a nan. *)
Definition max (x y : binary64) : binary64 := if ltb x y then y else x.

(** The rational a finite number is.  It is applied to scores, which are
    finite ([score_of_error] below). *)
Definition value (x : binary64) : Q :=
  match x with
  | Finite a => a
  | _ => 0
  end.

(** A float that is not below zero: a finite number that is not negative,
    the positive infinity, or a nan. *)
Definition not_below_zero (x : binary64) : Prop :=
  match x with
  | Finite q => 0 <= q
  | Infinity negative => negative = false
  | NaN => True
  end.

(** The number a float of the processor is: the floats of Rocq are the
    binary64 numbers of the processor, as those of CPython are. *)
Definition of_prim (f : PrimFloat.float) : binary64 :=
  match Prim2SF f with
  | S754_zero _ => Finite 0
  | S754_infinity s => Infinity s
  | S754_nan => NaN
  | S754_finite s m e =>
      Finite (Qred ((if s then -1 else 1) * inject_Z (Zpos m) * 2 ^ e))
  end.

End Binary64.

(** ** The string primitives of Python used by the evaluators *)

Module PyStr.

Definition code (c : ascii) : N := N_of_ascii c.

Definition between (lo hi : N) (c : ascii) : bool :=
  ((lo <=? code c) && (code c <=? hi))%N.

(** [str.isspace] of one character: TAB..CR, FS..US, space, NEL, NBSP. *)
Definition isspace (c : ascii) : bool :=
  between 9 13 c || between 28 32 c
  || (code c =? 133)%N || (code c =? 160)%N.

(** The decimal digits ([\d]). *)
Definition isdecimal (c : ascii) : bool := between 48 57 c.

(** [str.isalnum] of one character: the ASCII letters and digits, and of
    the upper half the letters (including the ordinal indicators and the
    micro sign), the superscript digits and the vulgar fractions. *)
Definition isalnum (c : ascii) : bool :=
  between 48 57 c || between 65 90 c || between 97 122 c
  || (code c =? 170)%N || between 178 179 c || (code c =? 181)%N
  || between 185 186 c || between 188 190 c
  || between 192 214 c || between 216 246 c || between 248 255 c.

Definition lower_char (c : ascii) : ascii :=
  if between 65 90 c || between 192 214 c || between 216 222 c
  then ascii_of_N (code c + 32) else c.

(** [s.lower()] *)
Fixpoint lower (s : string) : string :=
  match s with
  | EmptyString => EmptyString
  | String c s' => String (lower_char c) (lower s')
  end.

(** [len(s)] *)
Definition len (s : string) : nat := String.length s.

Definition cons_word (w : string) (ws : list string) : list string :=
  match w with EmptyString => ws | _ => w :: ws end.

(** The word under construction and the words after it. *)
Fixpoint split_aux (s : string) : string * list string :=
  match s with
  | EmptyString => (EmptyString, [])
  | String c s' =>
      let '(w, ws) := split_aux s' in
      if isspace c then (EmptyString, cons_word w ws) else (String c w, ws)
  end.

(** [s.split()]: the maximal runs of non-whitespace characters. *)
Definition split (s : string) : list string :=
  let '(w, ws) := split_aux s in cons_word w ws.

Fixpoint lstrip (s : string) : string :=
  match s with
  | EmptyString => EmptyString
  | String c s' => if isspace c then lstrip s' else s
  end.

Fixpoint rstrip (s : string) : string :=
  match s with
  | EmptyString => EmptyString
  | String c s' =>
      match rstrip s' with
      | EmptyString => if isspace c then EmptyString else String c EmptyString
      | r => String c r
      end
  end.

(** [s.strip()] *)
Definition strip (s : string) : string := lstrip (rstrip s).

(** [s.startswith(p)] *)
Fixpoint startswith (s p : string) : bool :=
  match p, s with
  | EmptyString, _ => true
  | String a p', String b s' => if ascii_dec a b then startswith s' p' else false
  | String _ _, EmptyString => false
  end.

(** [s.startswith((p1, p2, ...))] *)
Definition startswith_any (s : string) (ps : list string) : bool :=
  existsb (startswith s) ps.

(** [sub in s] *)
Fixpoint contains (sub s : string) : bool :=
  startswith s sub
  || match s with
     | EmptyString => false
     | String _ s' => contains sub s'
     end.

(** [any(p in s for p in ps)] *)
Definition contains_any (ps : list string) (s : string) : bool :=
  existsb (fun p => contains p s) ps.

(** [bool(s)]: a string is true when it is not empty. *)
Definition truthy (s : string) : bool :=
  match s with EmptyString => false | _ => true end.

Fixpoint drop (n : nat) (s : string) : string :=
  match n, s with
  | S n', String _ s' => drop n' s'
  | _, _ => s
  end.

Fixpoint take (n : nat) (s : string) : string :=
  match n, s with
  | S n', String c s' => String c (take n' s')
  | _, _ => EmptyString
  end.

(** The number of non-overlapping occurrences of a non-empty [sep],
    scanning from the left: [len(s.split(sep)) - 1]. *)
Fixpoint count_sep (fuel : nat) (sep s : string) : nat :=
  match fuel with
  | 0 => 0
  | S fuel' =>
      match s with
      | EmptyString => 0
      | String _ s' =>
          if startswith s sep
          then S (count_sep fuel' sep (drop (len sep) s))
          else count_sep fuel' sep s'
      end
  end.

End PyStr.

(** ** Regular expressions: the part of Python's [re] the evaluators use

    Patterns are kept as the source writes them and compiled by [compile];
    [run] is a backtracking matcher with the priorities of [re]: the
    alternatives of [|] are tried from the left and a quantifier takes as
    many iterations as it can before giving some back.  Groups only
    delimit: no pattern of the repository refers back to a group, and every
    [findall] of a pattern with a group only counts the matches. *)

Module Re.
Import PyStr.

Inductive citem : Type :=
| CChar (c : ascii)
| CRange (lo hi : ascii)
| CWord
| CSpace
| CDigit.

Inductive regex : Type :=
| Empty
| Any
| CSet (neg : bool) (items : list citem)
| WordB
| Bol
| Eol
| Seq (r1 r2 : regex)
| Alt (r1 r2 : regex)
| Rep (r : regex) (lo : nat) (hi : option nat).

Definition newline : ascii := ascii_of_N 10.

(** [\w] *)
Definition is_word (c : ascii) : bool :=
  isalnum c || (code c =? 95)%N.

Definition item_ok (c : ascii) (i : citem) : bool :=
  match i with
  | CChar a => (code c =? code a)%N
  | CRange lo hi => between (code lo) (code hi) c
  | CWord => is_word c
  | CSpace => isspace c
  | CDigit => isdecimal c
  end.

Definition set_ok (neg : bool) (items : list citem) (c : ascii) : bool :=
  xorb neg (existsb (item_ok c) items).

Definition word_before (prev : option ascii) : bool :=
  match prev with Some c => is_word c | None => false end.

Definition word_after (s : string) : bool :=
  match s with String c _ => is_word c | EmptyString => false end.

(** [\b]: exactly one side is a word character. *)
Definition at_boundary (prev : option ascii) (s : string) : bool :=
  xorb (word_before prev) (word_after s).

Definition at_bol (multiline : bool) (prev : option ascii) : bool :=
  match prev with
  | None => true
  | Some c => multiline && (code c =? 10)%N
  end.

Definition at_eol (multiline : bool) (s : string) : bool :=
  match s with
  | EmptyString => true
  | String c s' =>
      (code c =? 10)%N
      && (multiline || match s' with EmptyString => true | _ => false end)
  end.

Definition more_allowed (n : nat) (hi : option nat) : bool :=
  match hi with None => true | Some h => n <? h end.

Definition orelse {A} (x y : option A) : option A :=
  match x with Some _ => x | None => y end.

Section Matcher.
Context {A : Type}.
Variable multiline : bool.

(** A matcher in continuation-passing style: it matches at the position
    whose previous character and remaining input it is given, then calls
    the continuation with the position it reached; [None] asks the caller to
    backtrack. *)
Definition matcher : Type :=
  option ascii -> string -> (option ascii -> string -> option A) -> option A.

(** The greedy iteration of [body], [n] iterations being done: one more
    when allowed and possible, else the continuation when [n] reaches [lo].
    An iteration that consumes nothing is not taken (no pattern here has
    one), so the length of the input bounds the iterations. *)
Fixpoint rep_loop (body : matcher) (lo : nat) (hi : option nat)
    (k : option ascii -> string -> option A)
    (fuel n : nat) (prev : option ascii) (s : string) {struct fuel} : option A :=
  let stop := if lo <=? n then k prev s else None in
  match fuel with
  | 0 => stop
  | S fuel' =>
      if more_allowed n hi then
        orelse
          (body prev s (fun p s' =>
             if len s' <? len s then rep_loop body lo hi k fuel' (S n) p s'
             else None))
          stop
      else stop
  end.

(** [run r prev s k]: match [r], then continue with [k]. *)
Fixpoint run (r : regex) (prev : option ascii) (s : string)
    (k : option ascii -> string -> option A) {struct r} : option A :=
  match r with
  | Empty => k prev s
  | Any =>
      match s with
      | String c s' => if (code c =? 10)%N then None else k (Some c) s'
      | EmptyString => None
      end
  | CSet neg items =>
      match s with
      | String c s' => if set_ok neg items c then k (Some c) s' else None
      | EmptyString => None
      end
  | WordB => if at_boundary prev s then k prev s else None
  | Bol => if at_bol multiline prev then k prev s else None
  | Eol => if at_eol multiline s then k prev s else None
  | Seq r1 r2 => run r1 prev s (fun p s' => run r2 p s' k)
  | Alt r1 r2 => orelse (run r1 prev s k) (run r2 prev s k)
  | Rep r' lo hi => rep_loop (run r') lo hi k (len s) 0 prev s
  end.
End Matcher.

(** A match: the text skipped before it, the matched text, and the
    position after it. *)
Record hit : Type := Hit {
  skipped : string;
  matched : string;
  after_prev : option ascii;
  after : string
}.

(** One attempt at the current position; with [must_advance] an empty
    match is refused. *)
Definition match_here (multiline must_advance : bool) (r : regex)
    (prev : option ascii) (s : string) : option (option ascii * string) :=
  run multiline r prev s (fun p s' =>
    if must_advance && (len s' =? len s) then None else Some (p, s')).

(** The leftmost match at or after the current position. *)
Fixpoint find (multiline must_advance : bool) (r : regex)
    (prev : option ascii) (s : string) : option hit :=
  match match_here multiline must_advance r prev s with
  | Some (p, e) => Some (Hit EmptyString (take (len s - len e) s) p e)
  | None =>
      match s with
      | EmptyString => None
      | String c s' =>
          match find multiline false r (Some c) s' with
          | Some h => Some (Hit (String c (skipped h)) (matched h)
                                (after_prev h) (after h))
          | None => None
          end
      end
  end.

(** [re.search(r, s)] as a truth value. *)
Definition search_re (multiline : bool) (r : regex) (s : string) : bool :=
  match find multiline false r None s with Some _ => true | None => false end.

(** [re.match(r, s)] as a truth value. *)
Definition match_re (multiline : bool) (r : regex) (s : string) : bool :=
  match match_here multiline false r None s with
  | Some _ => true
  | None => false
  end.

(** The successive non-overlapping matches, as [findall], [split] and
    [sub] enumerate them: after an empty match the next one must advance.
    [tail] receives the text after the last match. *)
Fixpoint scan {B : Type} (fuel : nat) (multiline must_advance : bool)
    (r : regex) (prev : option ascii) (s : string)
    (step : hit -> B -> B) (tail : string -> B) : B :=
  match fuel with
  | 0 => tail s
  | S fuel' =>
      match find multiline must_advance r prev s with
      | None => tail s
      | Some h =>
          step h (scan fuel' multiline
                    (match matched h with EmptyString => true | _ => false end)
                    r (after_prev h) (after h) step tail)
      end
  end.

Definition scan_fuel (s : string) : nat := 2 * len s + 2.

(** [re.findall(r, s)] for a pattern whose matches are its results. *)
Definition findall_re (multiline : bool) (r : regex) (s : string) : list string :=
  scan (scan_fuel s) multiline false r None s
    (fun h rest => matched h :: rest) (fun _ => []).

(** [re.split(r, s)] for a pattern without capturing group. *)
Definition split_re (multiline : bool) (r : regex) (s : string) : list string :=
  let '(piece, pieces) :=
    scan (scan_fuel s) multiline false r None s
      (fun h '(piece, pieces) => (skipped h, piece :: pieces))
      (fun t => (t, [])) in
  piece :: pieces.

(** [re.sub(r, repl, s)] for a replacement without group reference. *)
Definition sub_re (multiline : bool) (r : regex) (repl s : string) : string :=
  scan (scan_fuel s) multiline false r None s
    (fun h rest => skipped h +:+ repl +:+ rest) (fun t => t).

End Re.

(** ** Compiling a pattern as the source writes it *)

Module ReParse.
Import PyStr Re.

Definition is_meta (c : ascii) : bool :=
  existsb (fun m => (code c =? code m)%N)
    ["."; "^"; "$"; "*"; "+"; "?"; "{"; "}"; "["; "]"; "("; ")"; "|"; "\"]%char.

(** The class a backslash escape stands for, inside or outside brackets;
    an escaped punctuation character stands for itself. *)
Definition escape_item (c : ascii) : option citem :=
  if (code c =? code "w")%N then Some CWord
  else if (code c =? code "s")%N then Some CSpace
  else if (code c =? code "d")%N then Some CDigit
  else if isalnum c then None
  else Some (CChar c).

(** The items of a bracket expression, up to its closing bracket. *)
Fixpoint parse_items (s : string) : option (list citem * string) :=
  match s with
  | EmptyString => None
  | String "]" rest => Some ([], rest)
  | String "\" (String e rest) =>
      match escape_item e, parse_items rest with
      | Some i, Some (its, rest') => Some (i :: its, rest')
      | _, _ => None
      end
  | String lo (String "-" (String hi rest)) =>
      if (code hi =? code "]")%N
      then Some ([CChar lo; CChar "-"], rest)
      else
        match parse_items rest with
        | Some (its, rest') => Some (CRange lo hi :: its, rest')
        | None => None
        end
  | String c rest =>
      match parse_items rest with
      | Some (its, rest') => Some (CChar c :: its, rest')
      | None => None
      end
  end.

Fixpoint parse_nat (acc : nat) (s : string) : nat * string :=
  match s with
  | String c rest =>
      match Ascii.is_nat c with
      | Some d => parse_nat (10 * acc + d) rest
      | None => (acc, s)
      end
  | EmptyString => (acc, s)
  end.

(** A quantifier, when one follows: its bounds and the rest. *)
Definition parse_quant (s : string) : option (nat * option nat * string) :=
  match s with
  | String "*" rest => Some (0, None, rest)
  | String "+" rest => Some (1, None, rest)
  | String "?" rest => Some (0, Some 1, rest)
  | String "{" rest =>
      let '(lo, rest1) := parse_nat 0 rest in
      match rest1 with
      | String "}" rest2 => Some (lo, Some lo, rest2)
      | String "," (String "}" rest2) => Some (lo, None, rest2)
      | String "," rest2 =>
          let '(hi, rest3) := parse_nat 0 rest2 in
          match rest3 with
          | String "}" rest4 => Some (lo, Some hi, rest4)
          | _ => None
          end
      | _ => None
      end
  | _ => None
  end.

(** A quantified atom.  Lazy and possessive quantifiers are not
    supported: the repository has none. *)
Definition quantified (a : regex) (s : string) : option (regex * string) :=
  match parse_quant s with
  | Some (lo, hi, rest) =>
      match rest with
      | String "?" _ | String "+" _ | String "*" _ => None
      | _ => Some (Rep a lo hi, rest)
      end
  | None =>
      match s with
      | String "{" _ => None
      | _ => Some (a, s)
      end
  end.

Section Grammar.
(** The parser of a whole alternation, for what a group encloses. *)
Variable inner : string -> option (regex * string).

Definition parse_atom (s : string) : option (regex * string) :=
  match s with
  | String "(" (String "?" (String ":" rest)) | String "(" rest =>
      match rest with
      | String "?" _ => None
      | _ =>
          match inner rest with
          | Some (r, String ")" rest') => Some (r, rest')
          | _ => None
          end
      end
  | String "[" (String "^" rest) =>
      match parse_items rest with
      | Some (its, rest') => Some (CSet true its, rest')
      | None => None
      end
  | String "[" rest =>
      match parse_items rest with
      | Some (its, rest') => Some (CSet false its, rest')
      | None => None
      end
  | String "\" (String "b" rest) => Some (WordB, rest)
  | String "\" (String e rest) =>
      match escape_item e with
      | Some i => Some (CSet false [i], rest)
      | None => None
      end
  | String "." rest => Some (Any, rest)
  | String "^" rest => Some (Bol, rest)
  | String "$" rest => Some (Eol, rest)
  | String c rest =>
      if is_meta c then None else Some (CSet false [CChar c], rest)
  | EmptyString => None
  end.

(** A sequence of quantified atoms, up to [|], [)] or the end. *)
Fixpoint parse_seq (fuel : nat) (s : string) : option (regex * string) :=
  match s with
  | EmptyString | String "|" _ | String ")" _ => Some (Empty, s)
  | _ =>
      match fuel with
      | 0 => None
      | S fuel' =>
          match parse_atom s with
          | Some (a, rest) =>
              match quantified a rest with
              | Some (q, rest') =>
                  match parse_seq fuel' rest' with
                  | Some (r, rest'') => Some (Seq q r, rest'')
                  | None => None
                  end
              | None => None
              end
          | None => None
          end
      end
  end.

(** Sequences separated by [|]. *)
Fixpoint parse_alts (fuel : nat) (s : string) : option (regex * string) :=
  match fuel with
  | 0 => None
  | S fuel' =>
      match parse_seq (len s) s with
      | Some (r1, String "|" rest) =>
          match parse_alts fuel' rest with
          | Some (r2, rest') => Some (Alt r1 r2, rest')
          | None => None
          end
      | other => other
      end
  end.
End Grammar.

Fixpoint parse (depth : nat) (s : string) : option (regex * string) :=
  match depth with
  | 0 => None
  | S depth' => parse_alts (parse depth') (S (len s)) s
  end.

(** [re.compile(pattern)]; [None] stands for [re.error]. *)
Definition compile (pattern : string) : option regex :=
  match parse (S (len pattern)) pattern with
  | Some (r, EmptyString) => Some r
  | _ => None
  end.

End ReParse.

(** ** The calls of [re] as the evaluators make them *)

Module re.
Import PyStr.

(** [error] is what a call returns for a pattern that does not compile,
    where Python raises [re.error]; every pattern of the repository
    compiles ([patterns_compile]). *)
Definition with_pattern {B : Type} (pattern : string)
    (f : Re.regex -> B) (error : B) : B :=
  match ReParse.compile pattern with
  | Some r => f r
  | None => error
  end.

(** [bool(re.search(pattern, s))] *)
Definition search (pattern s : string) : bool :=
  with_pattern pattern (fun r => Re.search_re false r s) false.

(** [bool(re.search(pattern, s, re.MULTILINE))] *)
Definition search_multiline (pattern s : string) : bool :=
  with_pattern pattern (fun r => Re.search_re true r s) false.

(** [bool(re.match(pattern, s))] *)
Definition match_ (pattern s : string) : bool :=
  with_pattern pattern (fun r => Re.match_re false r s) false.

(** [re.findall(pattern, s)] *)
Definition findall (pattern s : string) : list string :=
  with_pattern pattern (fun r => Re.findall_re false r s) [].

(** [re.split(pattern, s)] *)
Definition split (pattern s : string) : list string :=
  with_pattern pattern (fun r => Re.split_re false r s) [s].

(** [re.sub(pattern, repl, s)] *)
Definition sub (pattern repl s : string) : string :=
  with_pattern pattern (fun r => Re.sub_re false r repl s) s.

End re.

(** ** [base_evaluator.py] *)

(** The state of an evaluator object: the three attributes [__init__] sets.
    No method of the repository assigns to them afterwards. *)
Record BaseEvaluator : Type := {
  name : string;
  description : string;
  score_range : Q * Q
}.

Module Base.
Import PyStr.
Local Open Scope Q_scope.

(** [list(s)] of a set of strings: the members of [s], each once, in the
    order in which the set iterates.  That order follows the hashes of the
    members, and the hash of a string depends on the seed the interpreter
    draws when it starts: the order is the same all through one process,
    and another process may have another. *)
Definition set_order : Type := gset string -> list string.

(** What every iteration order satisfies. *)
Definition enumerates (list_of : set_order) : Prop :=
  forall s : gset string, list_of s ≡ₚ elements s.

(** [expected_answer is not None] *)
Definition is_not_None (o : option string) : bool :=
  match o with Some _ => true | None => false end.

(** [if expected_answer: ... else: ...]: the first branch is taken when the
    argument is a non-empty string. *)
Definition if_truthy {B : Type} (o : option string) (yes : string -> B) (no : B) : B :=
  match o with
  | Some e => if truthy e then yes e else no
  | None => no
  end.

(** [_normalize_score(raw_score, raw_range)]: the raw score mapped
    linearly from the raw range onto the evaluator's score range, then
    clamped to it.  [raw_range=None] stands for the score range itself;
    [None] as a result stands for the [ZeroDivisionError] of a raw range
    whose two ends are equal. *)
Definition _normalize_score (self : BaseEvaluator) (raw_score : Q)
    (raw_range : option (Q * Q)) : option Q :=
  let raw_range :=
    match raw_range with
    | None => score_range self
    | Some given => given
    end in
  let '(raw_min, raw_max) := raw_range in
  let '(target_min, target_max) := score_range self in
  if Qeqb (raw_max - raw_min) 0 then None
  else
    let normalized := (raw_score - raw_min) / (raw_max - raw_min) in
    let scaled := normalized * (target_max - target_min) + target_min in
    Some (Qmax target_min (Qmin target_max scaled)).

(** [set(text.lower().split())] *)
Definition word_set (text : string) : gset string :=
  list_to_set (split (lower text)).

(** [not s] for a set *)
Definition set_empty (s : gset string) : bool := bool_decide (s = ∅).

Definition _calculate_text_similarity (text1 text2 : string) : Q :=
  let words1 := word_set text1 in
  let words2 := word_set text2 in
  if set_empty words1 && set_empty words2 then 1.0
  else if set_empty words1 || set_empty words2 then 0.0
  else
    let intersection := words1 ∩ words2 in
    let union := words1 ∪ words2 in
    if negb (set_empty union)
    then Qnat (size intersection) / Qnat (size union)
    else 0.0.

(** [[s.strip() for s in re.split(r'[.!?]+', text) if s.strip()]], the
    [_split_into_sentences] each concrete evaluator defines for itself. *)
Definition _split_into_sentences (text : string) : list string :=
  List.map strip
    (List.filter (fun s => truthy (strip s)) (re.split "[.!?]+" text)).

Definition _count_sentences (text : string) : nat :=
  length (List.filter (fun s => truthy (strip s))
            (re.split "[.!?]+" (strip text))).

Definition _count_words (text : string) : nat := length (split text).

(** [for pattern in patterns: if re.search(pattern, text): score += delta] *)
Definition score_matches (patterns : list string) (text : string)
    (delta score : Q) : Q :=
  fold_left
    (fun score pattern => if re.search pattern text then score + delta else score)
    patterns score.

(** [sum(len(re.findall(pattern, text)) for pattern in patterns)] *)
Definition count_matches (patterns : list string) (text : string) : nat :=
  fold_left (fun count pattern => (count + length (re.findall pattern text))%nat)
    patterns 0%nat.

(** The four analysis strings of a scorer, by the band of the score. *)
Definition banded (score : Q) (b8 b6 b4 low : string) : string :=
  if Qleb 0.8 score then b8
  else if Qleb 0.6 score then b6
  else if Qleb 0.4 score then b4
  else low.

End Base.

(** ** [relevance_evaluator.py] *)

Module Relevance.
Import PyStr Base.
Local Open Scope Q_scope.

Definition init : BaseEvaluator :=
  {| name := "Relevance Evaluator";
     description := "Measures how well the answer addresses the specific query";
     score_range := (0.0, 1.0) |}.

Definition stop_words : gset string :=
  list_to_set
    ["the"; "a"; "an"; "and"; "or"; "but"; "in"; "on"; "at"; "to"; "for";
     "of"; "with"; "by"; "is"; "are"; "was"; "were"; "be"; "been"; "being";
     "have"; "has"; "had"; "do"; "does"; "did"; "will"; "would"; "could";
     "should"; "may"; "might"; "can"; "what"; "how"; "when"; "where"; "why";
     "who"; "which"; "that"; "this"; "these"; "those"; "i"; "you"; "he";
     "she"; "it"; "we"; "they"; "me"; "him"; "her"; "us"; "them"].

Definition is_key_term (word : string) : bool :=
  (2 <? len word)%nat && negb (bool_decide (word ∈ stop_words)).

Definition _extract_key_terms (text : string) : gset string :=
  let text := re.sub "[^\w\s]" " " (lower text) in
  let words := split text in
  list_to_set (List.filter is_key_term words).

Definition _calculate_term_overlap (query_terms answer_terms : gset string) : Q :=
  if set_empty query_terms then 0.0
  else
    let overlap := query_terms ∩ answer_terms in
    Qnat (size overlap) / Qnat (size query_terms).

Definition _check_direct_answer_patterns (query answer : string) : Q :=
  let query_lower := lower query in
  let answer_lower := lower answer in
  let score := 0.0 in
  let score :=
    if startswith_any query_lower ["what"; "how"; "when"; "where"; "why"; "who"]
    then
      let score :=
        if contains_any
             ["the answer is"; "it is"; "this is"; "that is"; "because";
              "due to"; "as a result"; "therefore"; "consequently"]
             answer_lower
        then score + 0.3 else score in
      if startswith query_lower "what"
         && contains_any ["is"; "are"; "means"; "refers"] answer_lower
      then score + 0.2
      else if startswith query_lower "how"
              && contains_any ["by"; "through"; "using"; "via"] answer_lower
      then score + 0.2
      else if startswith query_lower "when"
              && contains_any ["in"; "during"; "at"; "on"] answer_lower
      then score + 0.2
      else if startswith query_lower "where"
              && contains_any ["in"; "at"; "on"; "near"] answer_lower
      then score + 0.2
      else if startswith query_lower "why"
              && contains_any ["because"; "due"; "since"] answer_lower
      then score + 0.2
      else score
    else score in
  let score :=
    if existsb (startswith query_lower) ["explain"; "describe"; "list"; "compare"]
    then if (10 <? length (split answer))%nat then score + 0.4 else score
    else score in
  Qmin score 1.0.

Definition _evaluate_semantic_relevance (query answer : string) : Q :=
  let query_words := word_set query in
  let answer_words := word_set answer in
  let semantic_score := 0.0 in
  let semantic_score :=
    if (20 <=? length (split answer))%nat && (length (split answer) <=? 200)%nat
    then semantic_score + 0.3
    else if (length (split answer) <? 5)%nat then semantic_score - 0.2
    else semantic_score in
  let common_words := query_words ∩ answer_words in
  let semantic_score :=
    if (0 <? size common_words)%nat then semantic_score + 0.4
    else semantic_score in
  let semantic_score :=
    if truthy (strip answer)
       && negb (startswith_any (lower answer) ["i don't"; "i cannot"; "sorry"])
    then semantic_score + 0.3
    else semantic_score in
  clamp01 semantic_score.

Definition _generate_relevance_analysis (query answer : string) (score : Q) : string :=
  banded score
    "Highly relevant - Answer directly addresses the query with good term overlap"
    "Moderately relevant - Answer addresses the query but could be more focused"
    "Somewhat relevant - Answer partially addresses the query but lacks focus"
    "Low relevance - Answer does not adequately address the query".

(** The [evaluation_details] dictionary. *)
Record details : Type := {
  query_terms : list string;
  answer_terms : list string;
  term_overlap_score : Q;
  direct_answer_score : Q;
  semantic_score : Q;
  analysis : string
}.

(** [evaluate], in a process whose sets iterate in the order [list_of]. *)
Definition evaluate_in (list_of : set_order) (self : BaseEvaluator)
    (query answer : string) (context expected_answer : option string)
    : Q * details :=
  let query_terms := _extract_key_terms query in
  let answer_terms := _extract_key_terms answer in
  let term_overlap_score := _calculate_term_overlap query_terms answer_terms in
  let direct_answer_score := _check_direct_answer_patterns query answer in
  let semantic_score := _evaluate_semantic_relevance query answer in
  let relevance_score :=
    term_overlap_score * 0.4 + direct_answer_score * 0.3 + semantic_score * 0.3 in
  let evaluation_details :=
    {| query_terms := list_of query_terms;
       answer_terms := list_of answer_terms;
       term_overlap_score := round3 term_overlap_score;
       direct_answer_score := round3 direct_answer_score;
       semantic_score := round3 semantic_score;
       analysis := _generate_relevance_analysis query answer relevance_score |} in
  (relevance_score, evaluation_details).

(** Where the order of the sets does not matter, it is that of [elements]. *)
Definition evaluate : BaseEvaluator -> string -> string -> option string ->
    option string -> Q * details :=
  evaluate_in elements.

End Relevance.

(** ** [accuracy_evaluator.py] *)

Module Accuracy.
Import PyStr Base.
Local Open Scope Q_scope.

Definition init : BaseEvaluator :=
  {| name := "Accuracy Evaluator";
     description := "Measures the factual correctness and precision of the answer";
     score_range := (0.0, 1.0) |}.

(** *** Floats read from text *)

Fixpoint digit_run (s : string) : list nat * string :=
  match s with
  | String c rest =>
      match Ascii.is_nat c with
      | Some d => let '(ds, rest') := digit_run rest in (d :: ds, rest')
      | None => ([], s)
      end
  | EmptyString => ([], s)
  end.

Definition digits_value (ds : list nat) : Z :=
  fold_left (fun acc d => (10 * acc + Z.of_nat d)%Z) ds 0%Z.

(** [float(s)] for an unsigned decimal literal without exponent, the only
    strings the number pattern yields: the binary64 number nearest to the
    number written, an infinity when the number is too large for one;
    [None] stands for [ValueError]. *)
Definition py_float (s : string) : option Binary64.binary64 :=
  let '(int_digits, rest) := digit_run s in
  match rest with
  | EmptyString =>
      match int_digits with
      | [] => None
      | _ => Some (Binary64.round64 (inject_Z (digits_value int_digits)))
      end
  | String "." rest' =>
      let '(frac_digits, rest'') := digit_run rest' in
      match rest'', (int_digits ++ frac_digits)%list with
      | EmptyString, _ :: _ =>
          Some (Binary64.round64
                  (inject_Z (digits_value int_digits)
                   + inject_Z (digits_value frac_digits)
                     / inject_Z (10 ^ Z.of_nat (length frac_digits))))
      | _, _ => None
      end
  | _ => None
  end.

(** *** Sub-scores *)

Definition _split_into_sentences := Base._split_into_sentences.

Definition _extract_key_facts (text : string) : list string :=
  let sentences := _split_into_sentences text in
  List.map strip
    (List.filter
       (fun sentence =>
          contains_any
            ["is"; "are"; "was"; "were"; "has"; "have"; "contains"; "includes"]
            (lower sentence))
       sentences).

Definition contradictory_pairs : list (string * string) :=
  [("true", "false"); ("yes", "no"); ("increase", "decrease");
   ("positive", "negative"); ("good", "bad"); ("high", "low")].

Definition _are_contradictory (fact1 fact2 : string) : bool :=
  let fact1_lower := lower fact1 in
  let fact2_lower := lower fact2 in
  existsb
    (fun '(word1, word2) =>
       (contains word1 fact1_lower && contains word2 fact2_lower)
       || (contains word2 fact1_lower && contains word1 fact2_lower))
    contradictory_pairs.

(** The two counters of the nested loop, [(contradictions, matches)]. *)
Definition count_pair (fact : string) (counters : nat * nat)
    (expected_fact : string) : nat * nat :=
  let '(contradictions, matches) := counters in
  let similarity := _calculate_text_similarity fact expected_fact in
  if Qltb 0.7 similarity then (contradictions, S matches)
  else if Qltb 0.3 similarity && _are_contradictory fact expected_fact
  then (S contradictions, matches)
  else (contradictions, matches).

Definition count_facts (answer_facts expected_facts : list string) : nat * nat :=
  fold_left
    (fun counters fact => fold_left (count_pair fact) expected_facts counters)
    answer_facts (0%nat, 0%nat).

Definition _check_factual_consistency (answer expected_answer : string) : Q :=
  let answer_facts := _extract_key_facts answer in
  let expected_facts := _extract_key_facts expected_answer in
  match expected_facts with
  | [] => 0.5
  | _ =>
      let '(contradictions, matches) := count_facts answer_facts expected_facts in
      if (length expected_facts =? 0)%nat then 0.5
      else
        let consistency_score :=
          (Qnat matches - Qnat contradictions) / Qnat (length expected_facts) in
        clamp01 consistency_score
  end.

Definition contradiction_patterns : list (string * Q) :=
  [("\b(yes|true|correct)\b.*\b(no|false|incorrect)\b", -0.3);
   ("\b(always)\b.*\b(never)\b", -0.2);
   ("\b(all)\b.*\b(none)\b", -0.2);
   ("\b(increase)\b.*\b(decrease)\b", -0.1)].

Definition _check_internal_consistency (answer : string) : Q :=
  let sentences := _split_into_sentences answer in
  if (length sentences <? 2)%nat then 0.8
  else
    let consistency_score := 0.8 in
    let answer_lower := lower answer in
    let consistency_score :=
      fold_left
        (fun score '(pattern, penalty) =>
           if re.search pattern answer_lower then score + penalty else score)
        contradiction_patterns consistency_score in
    clamp01 consistency_score.

Definition specific_indicators : list string :=
  ["\b\d+(\.\d+)?\s*(percent|%|degrees?|miles?|kilometers?|years?|months?|days?)\b";
   "\b(exactly|precisely|specifically|particularly)\b";
   "\b\d{4}\b";
   "\b[A-Z][a-z]+\s+[A-Z][a-z]+\b"].

Definition vague_indicators : list string :=
  ["\b(some|many|few|several|various|different|often|sometimes|usually)\b";
   "\b(approximately|roughly|about|around|nearly)\b";
   "\b(might|could|may|possibly|probably|likely)\b"].

Definition _measure_specificity (text : string) : Q :=
  let specificity_score := 0.5 in
  let text_lower := lower text in
  let specificity_score :=
    score_matches specific_indicators text_lower 0.1 specificity_score in
  let specificity_score :=
    score_matches vague_indicators text_lower (-0.05) specificity_score in
  clamp01 specificity_score.

Definition number_pattern : string := "\b\d+(?:\.\d+)?\b".

Definition _compare_numerical_values (answer expected_answer : string) : Q :=
  let answer_numbers := re.findall number_pattern answer in
  let expected_numbers := re.findall number_pattern expected_answer in
  match answer_numbers, expected_numbers with
  | [], [] => 0.8
  | [], _ :: _ | _ :: _, [] => 0.3
  | answer_first :: _, expected_first :: _ =>
      match py_float answer_first, py_float expected_first with
      | Some answer_num, Some expected_num =>
          if Binary64.eqb answer_num expected_num then 1.0
          else
            match Binary64.div
                    (Binary64.abs (Binary64.sub answer_num expected_num))
                    (Binary64.max (Binary64.abs expected_num)
                       (Binary64.Finite 1)) with
            | Some relative_error =>
                Binary64.value
                  (Binary64.max (Binary64.Finite 0)
                     (Binary64.sub (Binary64.Finite 1) relative_error))
            | None => 0.5
            end
      | _, _ => 0.5
      end
  end.

Definition _evaluate_precision (answer expected_answer : string) : Q :=
  let answer_specificity := _measure_specificity answer in
  let expected_specificity := _measure_specificity expected_answer in
  let numerical_accuracy := _compare_numerical_values answer expected_answer in
  (answer_specificity + numerical_accuracy) / 2.

Definition hedging_patterns : list string :=
  ["\b(i think|i believe|i guess|perhaps|maybe|possibly)\b";
   "\b(sort of|kind of|somewhat|rather)\b"].

Definition _check_hedging_language (answer : string) : Q :=
  let answer_lower := lower answer in
  let hedging_count := count_matches hedging_patterns answer_lower in
  let word_count := length (split answer) in
  let hedging_ratio := Qnat hedging_count / Qnat (Nat.max word_count 1) in
  Qmin 0.3 (hedging_ratio * 2).

Definition _evaluate_answer_precision (answer : string) : Q :=
  let specificity_score := _measure_specificity answer in
  let hedging_penalty := _check_hedging_language answer in
  let precision_score := specificity_score - hedging_penalty in
  clamp01 precision_score.

Definition good_uncertainty : list string :=
  ["\b(according to|based on|research suggests|studies show)\b";
   "\b(it depends|varies|may vary)\b";
   "\b(generally|typically|commonly|usually)\b"].

Definition poor_uncertainty : list string :=
  ["\b(definitely|absolutely|certainly|without doubt)\b";
   "\b(never|always|all|none|every)\b"].

Definition _check_uncertainty_handling (answer : string) : Q :=
  let answer_lower := lower answer in
  let uncertainty_score := 0.7 in
  let uncertainty_score :=
    score_matches good_uncertainty answer_lower 0.1 uncertainty_score in
  let uncertainty_score :=
    score_matches poor_uncertainty answer_lower (-0.1) uncertainty_score in
  clamp01 uncertainty_score.

Record indicators : Type := {
  has_citations : bool;
  has_specific_numbers : bool;
  has_dates : bool;
  uses_hedging : bool;
  shows_uncertainty : bool
}.

Definition _identify_accuracy_indicators (answer : string) : indicators :=
  let answer_lower := lower answer in
  {| has_citations :=
       re.search "\b(according to|source|study|research)\b" answer_lower;
     has_specific_numbers := re.search "\b\d+(\.\d+)?\b" answer;
     has_dates :=
       re.search
         "\b\d{4}\b|\b(january|february|march|april|may|june|july|august|september|october|november|december)\b"
         answer_lower;
     uses_hedging :=
       re.search "\b(might|could|may|possibly|probably)\b" answer_lower;
     shows_uncertainty :=
       re.search "\b(uncertain|unclear|unknown|varies)\b" answer_lower |}.

Definition _generate_accuracy_analysis (answer : string) (score : Q)
    (has_expected : bool) : string :=
  let base_msg :=
    banded score
      "High accuracy - Answer appears factually sound"
      "Good accuracy - Answer is mostly accurate with minor issues"
      "Moderate accuracy - Answer has some accuracy concerns"
      "Low accuracy - Answer may contain factual errors or inconsistencies" in
  if has_expected
  then base_msg +:+ " (compared against expected answer)"
  else base_msg +:+ " (evaluated using heuristic methods)".

Record details : Type := {
  has_expected_answer : bool;
  similarity_score : Q;
  factual_consistency_score : Q;
  precision_score : Q;
  uncertainty_score : Q;
  accuracy_indicators : indicators;
  analysis : string
}.

(** The three sub-scores that depend on the expected answer. *)
Definition compared_scores (answer : string) (expected_answer : option string)
    : Q * Q * Q :=
  if_truthy expected_answer
    (fun expected =>
       (_calculate_text_similarity answer expected,
        _check_factual_consistency answer expected,
        _evaluate_precision answer expected))
    (0.5, _check_internal_consistency answer, _evaluate_answer_precision answer).

Definition evaluate (self : BaseEvaluator) (query answer : string)
    (context expected_answer : option string) : Q * details :=
  let '(similarity_score, factual_consistency_score, precision_score) :=
    compared_scores answer expected_answer in
  let uncertainty_score := _check_uncertainty_handling answer in
  let accuracy_score :=
    similarity_score * 0.3 + factual_consistency_score * 0.3
    + precision_score * 0.2 + uncertainty_score * 0.2 in
  let evaluation_details :=
    {| has_expected_answer := is_not_None expected_answer;
       similarity_score := round3 similarity_score;
       factual_consistency_score := round3 factual_consistency_score;
       precision_score := round3 precision_score;
       uncertainty_score := round3 uncertainty_score;
       accuracy_indicators := _identify_accuracy_indicators answer;
       analysis :=
         _generate_accuracy_analysis answer accuracy_score
           (is_not_None expected_answer) |} in
  (accuracy_score, evaluation_details).

End Accuracy.

(** ** [coherence_evaluator.py] *)

Module Coherence.
Import PyStr Base.
Local Open Scope Q_scope.

Definition init : BaseEvaluator :=
  {| name := "Coherence Evaluator";
     description := "Measures the logical flow, structure, and readability of the answer";
     score_range := (0.0, 1.0) |}.

Definition _split_into_sentences := Base._split_into_sentences.

Definition structure_indicators : list string :=
  ["\b(first|second|third|finally|lastly|in conclusion)\b";
   "\b(however|moreover|furthermore|additionally|therefore)\b";
   "\b(for example|for instance|such as|including)\b";
   "\b(because|since|due to|as a result)\b"].

(** The bullet pattern.  The bracket of the source holds a hyphen, the
    letter a with circumflex (code 226), the euro sign, the cent sign
    (code 162) and an asterisk; the euro sign lies above code 255, so no
    string of the embedding contains it and it is left out. *)
Definition bullet_pattern : string :=
  "^\s*[-" +:+ String (ascii_of_N 226) (String (ascii_of_N 162) "*]\s+").

Definition _evaluate_structure (answer : string) : Q :=
  let structure_score := 0.5 in
  let sentences := _split_into_sentences answer in
  if (length sentences =? 0)%nat then 0.0
  else if (length sentences =? 1)%nat
  then (if (5 <? length (split answer))%nat then 0.7 else 0.4)
  else
    let answer_lower := lower answer in
    let structure_score :=
      score_matches structure_indicators answer_lower 0.1 structure_score in
    let structure_score :=
      if re.search_multiline bullet_pattern answer
      then structure_score + 0.2 else structure_score in
    let structure_score :=
      if re.search "\b\d+\.\s+" answer
      then structure_score + 0.2 else structure_score in
    let word_count := length (split answer) in
    let structure_score :=
      if (word_count <? 10)%nat then structure_score - 0.1
      else if (200 <? word_count)%nat && negb (re.search "[.!?].*[.!?]" answer)
      then structure_score - 0.2
      else structure_score in
    clamp01 structure_score.

Definition _check_topic_continuity (sentences : list string) : Q :=
  if (length sentences <=? 1)%nat then 0.0
  else
    let continuity_bonus :=
      fold_left
        (fun bonus '(current, next) =>
           let current_words := word_set current in
           let next_words := word_set next in
           let overlap := size (current_words ∩ next_words) in
           if (2 <=? overlap)%nat then bonus + 0.02 else bonus)
        (zip sentences (tail sentences)) 0.0 in
    Qmin 0.2 continuity_bonus.

Definition transition_patterns : list string :=
  ["\b(however|but|although|while|whereas)\b";
   "\b(therefore|thus|consequently|as a result)\b";
   "\b(furthermore|moreover|additionally|also)\b";
   "\b(for example|for instance|specifically)\b";
   "\b(first|second|next|then|finally)\b"].

Definition _evaluate_logical_flow (answer : string) : Q :=
  let sentences := _split_into_sentences answer in
  if (length sentences <=? 1)%nat then 0.8
  else
    let flow_score := 0.7 in
    let answer_lower := lower answer in
    let transition_count := count_matches transition_patterns answer_lower in
    let transition_ratio :=
      Qnat transition_count / Qnat (Nat.max (length sentences - 1) 1) in
    let flow_score :=
      if Qleb 0.2 transition_ratio && Qleb transition_ratio 0.8
      then flow_score + 0.2
      else if Qltb 0.8 transition_ratio then flow_score - 0.1
      else flow_score in
    let flow_score := flow_score + _check_topic_continuity sentences in
    clamp01 flow_score.

(** The pattern of the complex punctuation: a bracket holding the
    semicolon, the colon, the two parentheses and the double quote
    (code 34). *)
Definition complex_punct_pattern : string :=
  "[;:()" +:+ String (ascii_of_N 34) "]".

Definition _evaluate_readability (answer : string) : Q :=
  let readability_score := 0.6 in
  let sentences := _split_into_sentences answer in
  let readability_score :=
    match sentences with
    | [] => readability_score
    | _ =>
        let avg_sentence_length :=
          Qnat (fold_left (fun n s => (n + length (split s))%nat) sentences 0%nat)
          / Qnat (length sentences) in
        if Qleb 10 avg_sentence_length && Qleb avg_sentence_length 25
        then readability_score + 0.2
        else if Qltb 30 avg_sentence_length then readability_score - 0.2
        else if Qltb avg_sentence_length 5 then readability_score - 0.1
        else readability_score
    end in
  let complex_punct_count := length (re.findall complex_punct_pattern answer) in
  let word_count := length (split answer) in
  let readability_score :=
    if (0 <? word_count)%nat then
      let punct_ratio := Qnat complex_punct_count / Qnat word_count in
      if Qleb 0.02 punct_ratio && Qleb punct_ratio 0.1
      then readability_score + 0.1
      else if Qltb 0.15 punct_ratio then readability_score - 0.1
      else readability_score
    else readability_score in
  let long_words :=
    length (List.filter (fun word => (8 <? len word)%nat) (split answer)) in
  let readability_score :=
    if (0 <? word_count)%nat then
      let long_word_ratio := Qnat long_words / Qnat word_count in
      if Qltb 0.3 long_word_ratio then readability_score - 0.1
      else readability_score
    else readability_score in
  clamp01 readability_score.

Definition _evaluate_consistency (answer : string) : Q :=
  let consistency_score := 0.8 in
  let past_tense_count :=
    length (re.findall "\b\w+ed\b|\bwas\b|\bwere\b|\bhad\b" (lower answer)) in
  let present_tense_count :=
    length (re.findall "\bis\b|\bare\b|\bhas\b|\bhave\b" (lower answer)) in
  let total_tense_indicators := (past_tense_count + present_tense_count)%nat in
  let consistency_score :=
    if (0 <? total_tense_indicators)%nat then
      let tense_consistency :=
        1 - Qabs (Qnat past_tense_count - Qnat present_tense_count)
            / Qnat total_tense_indicators in
      (consistency_score + tense_consistency) / 2
    else consistency_score in
  let first_person :=
    length (re.findall "\b(i|me|my|mine|we|us|our|ours)\b" (lower answer)) in
  let second_person :=
    length (re.findall "\b(you|your|yours)\b" (lower answer)) in
  let third_person :=
    length (re.findall "\b(he|she|it|they|them|their|his|her|its)\b" (lower answer)) in
  let person_indicators := [first_person; second_person; third_person] in
  let active_persons :=
    length (List.filter (fun count => (0 <? count)%nat) person_indicators) in
  let consistency_score :=
    if (2 <? active_persons)%nat then consistency_score - 0.1
    else consistency_score in
  clamp01 consistency_score.

Definition _has_introduction (answer : string) : bool :=
  let intro_patterns :=
    ["^(to answer|in response|regarding|concerning)";
     "^(the answer is|this is|it is)";
     "^(let me explain|to understand)"] in
  let answer_lower := strip (lower answer) in
  existsb (fun pattern => re.match_ pattern answer_lower) intro_patterns.

Definition _has_conclusion (answer : string) : bool :=
  let conclusion_patterns :=
    ["\b(in conclusion|to conclude|finally|in summary)\b";
     "\b(therefore|thus|as a result)\b.*[.!?]\s*$"] in
  let answer_lower := lower answer in
  existsb (fun pattern => re.search pattern answer_lower) conclusion_patterns.

Record structure_analysis_t : Type := {
  has_introduction : bool;
  has_conclusion : bool;
  has_transitions : bool;
  has_examples : bool;
  has_enumeration : bool;
  paragraph_count : nat
}.

(** Two line feeds, the paragraph separator. *)
Definition blank_line : string :=
  String Re.newline (String Re.newline EmptyString).

Definition _analyze_structure (answer : string) : structure_analysis_t :=
  {| has_introduction := _has_introduction answer;
     has_conclusion := _has_conclusion answer;
     has_transitions :=
       re.search "\b(however|therefore|furthermore|moreover)\b" (lower answer);
     has_examples :=
       re.search "\b(for example|for instance|such as)\b" (lower answer);
     has_enumeration :=
       re.search "\b(first|second|third|finally)\b" (lower answer);
     paragraph_count :=
       if contains blank_line answer
       then S (count_sep (len answer) blank_line answer)
       else 1%nat |}.

Definition _generate_coherence_analysis (answer : string) (score : Q) : string :=
  banded score
    "Excellent coherence - Well-structured with clear logical flow"
    "Good coherence - Generally well-organized with minor flow issues"
    "Moderate coherence - Some structural issues affecting readability"
    "Poor coherence - Significant issues with structure and logical flow".

Record details : Type := {
  structure_score : Q;
  flow_score : Q;
  readability_score : Q;
  consistency_score : Q;
  sentence_count : nat;
  word_count : nat;
  structure_analysis : structure_analysis_t;
  analysis : string
}.

Definition evaluate (self : BaseEvaluator) (query answer : string)
    (context expected_answer : option string) : Q * details :=
  let structure_score := _evaluate_structure answer in
  let flow_score := _evaluate_logical_flow answer in
  let readability_score := _evaluate_readability answer in
  let consistency_score := _evaluate_consistency answer in
  let coherence_score :=
    structure_score * 0.3 + flow_score * 0.3
    + readability_score * 0.2 + consistency_score * 0.2 in
  let evaluation_details :=
    {| structure_score := round3 structure_score;
       flow_score := round3 flow_score;
       readability_score := round3 readability_score;
       consistency_score := round3 consistency_score;
       sentence_count := _count_sentences answer;
       word_count := _count_words answer;
       structure_analysis := _analyze_structure answer;
       analysis := _generate_coherence_analysis answer coherence_score |} in
  (coherence_score, evaluation_details).

End Coherence.

(** ** [completeness_evaluator.py] *)

Module Completeness.
Import PyStr Base.
Local Open Scope Q_scope.

Definition init : BaseEvaluator :=
  {| name := "Completeness Evaluator";
     description := "Measures how thoroughly the answer addresses all aspects of the query";
     score_range := (0.0, 1.0) |}.

Definition _split_into_sentences := Base._split_into_sentences.

(** [any(re.search(pattern, text) for pattern in patterns)] *)
Definition search_any (patterns : list string) (text : string) : bool :=
  existsb (fun pattern => re.search pattern text) patterns.

Definition _identify_question_type (query : string) : string :=
  let query_lower := strip (lower query) in
  if startswith query_lower "what" then "definition/explanation"
  else if startswith query_lower "how" then "process/method"
  else if startswith query_lower "why" then "reasoning/cause"
  else if startswith query_lower "when" then "temporal"
  else if startswith query_lower "where" then "location"
  else if startswith query_lower "who" then "person/entity"
  else if startswith_any query_lower ["compare"; "contrast"] then "comparison"
  else if startswith_any query_lower ["list"; "enumerate"] then "enumeration"
  else if startswith_any query_lower ["explain"; "describe"] then "explanation"
  else "general".

Definition _assess_query_complexity (query : string) : string :=
  let word_count := length (split query) in
  let complex_indicators :=
    ["and"; "or"; "but"; "however"; "also"; "additionally";
     "compare"; "contrast"; "analyze"; "evaluate"; "discuss"] in
  let complex_count :=
    length (List.filter (fun indicator => contains indicator (lower query))
              complex_indicators) in
  if (20 <? word_count)%nat || (2 <? complex_count)%nat then "high"
  else if (10 <? word_count)%nat || (0 <? complex_count)%nat then "medium"
  else "low".

Definition _has_multiple_parts (query : string) : bool :=
  let multi_part_indicators :=
    ["\band\b"; "\bor\b"; "\balso\b"; "\badditionally\b";
     "\?.*\?"; "[;,].*[?]"; "\b(first|second|third)\b"] in
  let query_lower := lower query in
  search_any multi_part_indicators query_lower.

Definition _requires_examples (query : string) : bool :=
  let example_indicators :=
    ["example"; "examples"; "instance"; "such as"; "like";
     "demonstrate"; "illustrate"; "show"] in
  contains_any example_indicators (lower query).

Definition _requires_explanation (query : string) : bool :=
  let explanation_indicators :=
    ["explain"; "describe"; "how"; "why"; "what is"; "what are";
     "detail"; "elaborate"; "discuss"] in
  contains_any explanation_indicators (lower query).

Definition _requires_comparison (query : string) : bool :=
  let comparison_indicators :=
    ["compare"; "contrast"; "difference"; "similar"; "versus";
     "vs"; "better"; "worse"; "advantage"; "disadvantage"] in
  contains_any comparison_indicators (lower query).

Definition topic_stop_words : gset string :=
  list_to_set
    ["what"; "how"; "when"; "where"; "why"; "who"; "which"; "that";
     "the"; "and"; "for"; "are"; "you"; "can"; "does"; "will"].

(** [list(set(topics))], in the order [list_of] of the process. *)
Definition _extract_key_topics_in (list_of : set_order) (query : string)
    : list string :=
  let words := re.findall "\b[A-Za-z]{3,}\b" query in
  let topics :=
    List.map lower
      (List.filter
         (fun word => negb (bool_decide (lower word ∈ topic_stop_words)))
         words) in
  list_of (list_to_set topics : gset string).

Definition _extract_key_topics : string -> list string :=
  _extract_key_topics_in elements.

Record query_aspects_t : Type := {
  question_type : string;
  complexity : string;
  multiple_parts : bool;
  requires_examples : bool;
  requires_explanation : bool;
  requires_comparison : bool;
  key_topics : list string
}.

Definition _analyze_query_aspects_in (list_of : set_order) (query : string)
    : query_aspects_t :=
  {| question_type := _identify_question_type query;
     complexity := _assess_query_complexity query;
     multiple_parts := _has_multiple_parts query;
     requires_examples := _requires_examples query;
     requires_explanation := _requires_explanation query;
     requires_comparison := _requires_comparison query;
     key_topics := _extract_key_topics_in list_of query |}.

Definition _analyze_query_aspects : string -> query_aspects_t :=
  _analyze_query_aspects_in elements.

Definition _has_definition_elements (answer : string) : bool :=
  search_any
    ["\bis\b.*\ba\b"; "\bare\b.*\bthat\b"; "\bmeans\b"; "\brefers to\b";
     "\bdefined as\b"; "\bknown as\b"]
    (lower answer).

Definition _has_process_elements (answer : string) : bool :=
  search_any
    ["\b(first|second|third|next|then|finally)\b";
     "\b(step|stage|phase|process)\b";
     "\b(by|through|using|via)\b"]
    (lower answer).

Definition _has_reasoning_elements (answer : string) : bool :=
  search_any
    ["\b(because|since|due to|as a result|therefore|thus)\b";
     "\b(reason|cause|factor|leads to|results in)\b"]
    (lower answer).

Definition _has_comparison_elements (answer : string) : bool :=
  search_any
    ["\b(compared to|versus|vs|while|whereas|however)\b";
     "\b(similar|different|alike|unlike|better|worse)\b";
     "\b(advantage|disadvantage|benefit|drawback)\b"]
    (lower answer).

Definition _addresses_multiple_aspects (answer : string) : bool :=
  search_any
    ["\b(also|additionally|furthermore|moreover)\b";
     "\b(another|other|second|third)\b";
     "\b(in addition|as well|besides)\b"]
    (lower answer).

Definition _evaluate_aspect_coverage (query answer : string)
    (query_aspects : query_aspects_t) : Q :=
  let coverage_score := 0.5 in
  let question_type := question_type query_aspects in
  let coverage_score :=
    if String.eqb question_type "definition/explanation"
    then (if _has_definition_elements answer
          then coverage_score + 0.2 else coverage_score)
    else if String.eqb question_type "process/method"
    then (if _has_process_elements answer
          then coverage_score + 0.2 else coverage_score)
    else if String.eqb question_type "reasoning/cause"
    then (if _has_reasoning_elements answer
          then coverage_score + 0.2 else coverage_score)
    else if String.eqb question_type "comparison"
    then (if _has_comparison_elements answer
          then coverage_score + 0.2 else coverage_score)
    else coverage_score in
  let key_topics := key_topics query_aspects in
  let coverage_score :=
    match key_topics with
    | [] => coverage_score
    | _ =>
        let answer_lower := lower answer in
        let covered_topics :=
          length (List.filter (fun topic => contains topic answer_lower) key_topics) in
        let topic_coverage := Qnat covered_topics / Qnat (length key_topics) in
        coverage_score + topic_coverage * 0.3
    end in
  let coverage_score :=
    if multiple_parts query_aspects
    then (if _addresses_multiple_aspects answer
          then coverage_score + 0.2 else coverage_score - 0.1)
    else coverage_score in
  clamp01 coverage_score.

Definition depth_indicators : list string :=
  ["\b(because|since|due to|as a result|therefore)\b";
   "\b(for example|for instance|such as|including)\b";
   "\b(however|but|although|while|whereas)\b";
   "\b(furthermore|moreover|additionally|also)\b"].

Definition _evaluate_response_depth (answer : string) : Q :=
  let word_count := length (split answer) in
  let sentence_count := _count_sentences answer in
  let depth_score := 0.5 in
  let depth_score :=
    if (100 <=? word_count)%nat then depth_score + 0.3
    else if (50 <=? word_count)%nat then depth_score + 0.2
    else if (20 <=? word_count)%nat then depth_score + 0.1
    else if (word_count <? 10)%nat then depth_score - 0.2
    else depth_score in
  let answer_lower := lower answer in
  let depth_indicator_count := count_matches depth_indicators answer_lower in
  let depth_score :=
    if (3 <=? depth_indicator_count)%nat then depth_score + 0.2
    else if (1 <=? depth_indicator_count)%nat then depth_score + 0.1
    else depth_score in
  clamp01 depth_score.

Definition _evaluate_comprehensiveness (answer : string) : Q :=
  let comprehensive_score := 0.6 in
  let comprehensive_elements :=
    [re.search "\b(for example|for instance|such as)\b" (lower answer);
     re.search "\b(because|since|due to|therefore)\b" (lower answer);
     re.search "\b(context|background|historically|traditionally)\b" (lower answer);
     re.search "\b(implication|consequence|result|impact)\b" (lower answer);
     re.search "\b(alternative|option|choice|instead)\b" (lower answer)] in
  let element_count := length (List.filter (fun b => b) comprehensive_elements) in
  let comprehensive_score := comprehensive_score + Qnat element_count * 0.08 in
  clamp01 comprehensive_score.

Definition _compare_with_expected (answer expected_answer : string) : Q :=
  let expected_sentences := _split_into_sentences expected_answer in
  let answer_sentences := _split_into_sentences answer in
  match expected_sentences with
  | [] => 0.7
  | _ =>
      let coverage_count :=
        fold_left
          (fun count expected_sent =>
             if existsb
                  (fun answer_sent =>
                     Qltb 0.3 (_calculate_text_similarity expected_sent answer_sent))
                  answer_sentences
             then S count else count)
          expected_sentences 0%nat in
      let coverage_ratio := Qnat coverage_count / Qnat (length expected_sentences) in
      coverage_ratio
  end.

Record indicators : Type := {
  has_examples : bool;
  has_reasoning : bool;
  has_multiple_points : bool;
  has_context : bool;
  has_implications : bool;
  addresses_alternatives : bool
}.

Definition _identify_completeness_indicators (answer : string) : indicators :=
  let answer_lower := lower answer in
  {| has_examples := re.search "\b(for example|for instance|such as)\b" answer_lower;
     has_reasoning := re.search "\b(because|since|therefore)\b" answer_lower;
     has_multiple_points := re.search "\b(first|second|also|additionally)\b" answer_lower;
     has_context := re.search "\b(context|background|history)\b" answer_lower;
     has_implications := re.search "\b(implication|consequence|impact)\b" answer_lower;
     addresses_alternatives := re.search "\b(alternative|option|instead)\b" answer_lower |}.

Definition _generate_completeness_analysis (answer : string) (score : Q)
    (query_aspects : query_aspects_t) : string :=
  let complexity := complexity query_aspects in
  let base_msg :=
    banded score
      "Highly complete - Thoroughly addresses the query"
      "Good completeness - Covers most important aspects"
      "Moderate completeness - Addresses some aspects but lacks depth"
      "Low completeness - Missing significant aspects of the query" in
  if String.eqb complexity "high"
  then base_msg +:+ " (complex query with multiple aspects)"
  else if String.eqb complexity "low"
  then base_msg +:+ " (straightforward query)"
  else base_msg +:+ " (moderately complex query)".

Record details : Type := {
  query_aspects : query_aspects_t;
  coverage_score : Q;
  depth_score : Q;
  comprehensive_score : Q;
  expected_coverage_score : Q;
  response_length : nat;
  completeness_indicators : indicators;
  analysis : string
}.

(** [evaluate], in a process whose sets iterate in the order [list_of]. *)
Definition evaluate_in (list_of : set_order) (self : BaseEvaluator)
    (query answer : string) (context expected_answer : option string)
    : Q * details :=
  let query_aspects := _analyze_query_aspects_in list_of query in
  let coverage_score := _evaluate_aspect_coverage query answer query_aspects in
  let depth_score := _evaluate_response_depth answer in
  let comprehensive_score := _evaluate_comprehensiveness answer in
  let expected_coverage_score :=
    if_truthy expected_answer
      (fun expected => _compare_with_expected answer expected)
      0.7 in
  let completeness_score :=
    coverage_score * 0.3 + depth_score * 0.25
    + comprehensive_score * 0.25 + expected_coverage_score * 0.2 in
  let evaluation_details :=
    {| query_aspects := query_aspects;
       coverage_score := round3 coverage_score;
       depth_score := round3 depth_score;
       comprehensive_score := round3 comprehensive_score;
       expected_coverage_score := round3 expected_coverage_score;
       response_length := length (split answer);
       completeness_indicators := _identify_completeness_indicators answer;
       analysis :=
         _generate_completeness_analysis answer completeness_score query_aspects |} in
  (completeness_score, evaluation_details).

Definition evaluate : BaseEvaluator -> string -> string -> option string ->
    option string -> Q * details :=
  evaluate_in elements.

End Completeness.

(** ** [main.py]: the aggregation of the requested dimensions *)

Module Main.
Import PyStr Base.
Local Open Scope Q_scope.

Record EvaluationRequest : Type := {
  query : string;
  answer : string;
  context : option string;
  expected_answer : option string;
  evaluation_criteria : option (list string)
}.

Definition default_criteria : option (list string) :=
  Some ["relevance"; "accuracy"; "coherence"; "completeness"].

(** The details of a dimension, whichever evaluator produced them. *)
Inductive details : Type :=
| RelevanceDetails (d : Relevance.details)
| AccuracyDetails (d : Accuracy.details)
| CoherenceDetails (d : Coherence.details)
| CompletenessDetails (d : Completeness.details).

(** An evaluator object: its attributes and its [evaluate] method. *)
Record evaluator : Type := {
  self : BaseEvaluator;
  evaluate :
    BaseEvaluator -> string -> string -> option string -> option string ->
    Q * details
}.

Definition with_details {D : Type} (wrap : D -> details)
    (f : BaseEvaluator -> string -> string -> option string -> option string -> Q * D)
    : BaseEvaluator -> string -> string -> option string -> option string ->
      Q * details :=
  fun self query answer context expected_answer =>
    let '(score, d) := f self query answer context expected_answer in
    (score, wrap d).

(** The module-level dictionary [evaluators]. *)
Definition evaluators : gmap string evaluator :=
  <["relevance" :=
      {| self := Relevance.init;
         evaluate := with_details RelevanceDetails Relevance.evaluate |}]>
  (<["accuracy" :=
      {| self := Accuracy.init;
         evaluate := with_details AccuracyDetails Accuracy.evaluate |}]>
  (<["coherence" :=
      {| self := Coherence.init;
         evaluate := with_details CoherenceDetails Coherence.evaluate |}]>
  (<["completeness" :=
      {| self := Completeness.init;
         evaluate := with_details CompletenessDetails Completeness.evaluate |}]>
   ∅))).

(** A dictionary built by assignment: keys in the order of their first
    assignment, a later assignment replacing the value in place. *)
Fixpoint dict_set {V : Type} (k : string) (v : V) (d : list (string * V))
    : list (string * V) :=
  match d with
  | [] => [(k, v)]
  | (k', v') :: d' =>
      if String.eqb k k' then (k, v) :: d' else (k', v') :: dict_set k v d'
  end.

Definition keys {V : Type} (d : list (string * V)) : list string := List.map fst d.
Definition values {V : Type} (d : list (string * V)) : list V := List.map snd d.

(** What the logger receives. *)
Inductive log_entry : Type :=
| InfoEvaluating (query_prefix : string)
| WarningUnknownCriterion (criterion : string)
| InfoCompleted (evaluation_id : string) (overall_score : Q)
| ErrorDuringEvaluation (message : string).

(** The state of the loop over the criteria. *)
Record loop_state : Type := {
  detailed_scores : list (string * Q);
  evaluation_details : list (string * details);
  log : list log_entry
}.

Definition run_criterion (request : EvaluationRequest) (st : loop_state)
    (criterion : string) : loop_state :=
  match evaluators !! criterion with
  | Some evaluator =>
      let '(score, d) :=
        evaluate evaluator (self evaluator) (query request) (answer request)
          (context request) (expected_answer request) in
      {| detailed_scores := dict_set criterion score (detailed_scores st);
         evaluation_details := dict_set criterion d (evaluation_details st);
         log := log st |}
  | None =>
      {| detailed_scores := detailed_scores st;
         evaluation_details := evaluation_details st;
         log := (log st ++ [WarningUnknownCriterion criterion])%list |}
  end.

Definition run_criteria (request : EvaluationRequest) (criteria : list string)
    (st : loop_state) : loop_state :=
  fold_left (run_criterion request) criteria st.

(** [sum(d.values()) / len(d) if d else 0.0]: the values are added in the
    order of the entries.  The sum is exact here; the code adds binary64
    numbers, so that its sum can depend on that order in the last place. *)
Definition overall (detailed_scores : list (string * Q)) : Q :=
  match detailed_scores with
  | [] => 0.0
  | _ =>
      fold_left Qplus (values detailed_scores) 0
      / Qnat (length detailed_scores)
  end.

Definition recommendation (criterion : string) : option string :=
  if String.eqb criterion "relevance"
  then Some "Consider making the answer more relevant to the specific query"
  else if String.eqb criterion "accuracy"
  then Some "Verify factual accuracy and provide more precise information"
  else if String.eqb criterion "coherence"
  then Some "Improve logical flow and structure of the response"
  else if String.eqb criterion "completeness"
  then Some "Provide more comprehensive coverage of the topic"
  else None.

Definition _generate_recommendations (scores : list (string * Q))
    (d : list (string * details)) : list string :=
  let recommendations :=
    fold_left
      (fun recommendations '(criterion, score) =>
         if Qltb score 0.6 then
           match recommendation criterion with
           | Some r => (recommendations ++ [r])%list
           | None => recommendations
           end
         else recommendations)
      scores [] in
  match recommendations with
  | [] => ["Great job! The response meets quality standards across all criteria"]
  | _ => recommendations
  end.

Record evaluation_summary_t : Type := {
  criteria_evaluated : list string;
  summary_details : list (string * details);
  recommendations : list string
}.

Record EvaluationResponse : Type := {
  response_query : string;
  response_answer : string;
  overall_score : Q;
  response_scores : list (string * Q);
  evaluation_summary : evaluation_summary_t;
  timestamp : string;
  evaluation_id : string
}.

(** The two readings of the clock a request makes, already formatted:
    the one the evaluation id is built from and the response's timestamp. *)
Record clock : Type := {
  id_stamp : string;
  iso_stamp : string
}.

Inductive outcome : Type :=
| Returned (response : EvaluationResponse) (logged : list log_entry)
| HTTPException (status_code : nat) (detail : string) (logged : list log_entry).

Definition not_iterable : string := "'NoneType' object is not iterable".

Definition evaluate_llm_response (now : clock) (request : EvaluationRequest)
    : outcome :=
  let log0 := [InfoEvaluating (take 100 (query request))] in
  let evaluation_id := "eval_" +:+ id_stamp now in
  match evaluation_criteria request with
  | None =>
      HTTPException 500 ("Evaluation failed: " +:+ not_iterable)
        (log0 ++ [ErrorDuringEvaluation not_iterable])%list
  | Some criteria =>
      let st :=
        run_criteria request criteria
          {| detailed_scores := []; evaluation_details := []; log := log0 |} in
      let overall_score := overall (detailed_scores st) in
      let evaluation_summary :=
        {| criteria_evaluated := keys (detailed_scores st);
           summary_details := evaluation_details st;
           recommendations :=
             _generate_recommendations (detailed_scores st) (evaluation_details st) |} in
      Returned
        {| response_query := query request;
           response_answer := answer request;
           overall_score := round3 overall_score;
           response_scores :=
             List.map (fun '(k, v) => (k, round3 v)) (detailed_scores st);
           evaluation_summary := evaluation_summary;
           timestamp := iso_stamp now;
           evaluation_id := evaluation_id |}
        (log st ++ [InfoCompleted evaluation_id overall_score])%list
  end.

(** One entry of the dictionary [get_available_evaluators] returns. *)
Record evaluator_info : Type := {
  info_name : string;
  info_description : string;
  info_score_range : Q * Q
}.

(** [get_available_evaluators()]: the three attributes of every registered
    evaluator, under the name it is registered with. *)
Definition get_available_evaluators : gmap string evaluator_info :=
  (fun evaluator =>
     {| info_name := name (self evaluator);
        info_description := description (self evaluator);
        info_score_range := score_range (self evaluator) |})
  <$> evaluators.

End Main.

(** * Notions of the specification

    What the specification names, written after its words; the properties
    below compare the functions of the source with them. *)

Module Spec.
Import PyStr.
Local Open Scope Q_scope.

(** The Jaccard index of two finite sets: the share of the elements of
    either set that lie in both; two empty sets are taken as identical. *)
Definition jaccard (A B : gset string) : Q :=
  if Base.set_empty (A ∪ B) then 1
  else Qnat (size (A ∩ B)) / Qnat (size (A ∪ B)).

(** The details of the accuracy scorer with the two entries that are
    computed from [expected_answer is not None] set for [has_expected]:
    the flag, and the analysis of [score]. *)
Definition marked (has_expected : bool) (answer : string) (score : Q)
    (d : Accuracy.details) : Accuracy.details :=
  {| Accuracy.has_expected_answer := has_expected;
     Accuracy.similarity_score := Accuracy.similarity_score d;
     Accuracy.factual_consistency_score := Accuracy.factual_consistency_score d;
     Accuracy.precision_score := Accuracy.precision_score d;
     Accuracy.uncertainty_score := Accuracy.uncertainty_score d;
     Accuracy.accuracy_indicators := Accuracy.accuracy_indicators d;
     Accuracy.analysis :=
       Accuracy._generate_accuracy_analysis answer score has_expected |}.

(** The details with the flag alone replaced. *)
Definition flagged (has_expected : bool) (d : Accuracy.details)
    : Accuracy.details :=
  {| Accuracy.has_expected_answer := has_expected;
     Accuracy.similarity_score := Accuracy.similarity_score d;
     Accuracy.factual_consistency_score := Accuracy.factual_consistency_score d;
     Accuracy.precision_score := Accuracy.precision_score d;
     Accuracy.uncertainty_score := Accuracy.uncertainty_score d;
     Accuracy.accuracy_indicators := Accuracy.accuracy_indicators d;
     Accuracy.analysis := Accuracy.analysis d |}.

(** Two details of relevance that differ at most in the order of their
    lists of terms. *)
Definition relevance_details_agree (d d' : Relevance.details) : Prop :=
  Relevance.query_terms d ≡ₚ Relevance.query_terms d'
  /\ Relevance.answer_terms d ≡ₚ Relevance.answer_terms d'
  /\ Relevance.term_overlap_score d = Relevance.term_overlap_score d'
  /\ Relevance.direct_answer_score d = Relevance.direct_answer_score d'
  /\ Relevance.semantic_score d = Relevance.semantic_score d'
  /\ Relevance.analysis d = Relevance.analysis d'.

(** Two analyses of a query that differ at most in the order of the key
    topics. *)
Definition query_aspects_agree (a a' : Completeness.query_aspects_t) : Prop :=
  Completeness.question_type a = Completeness.question_type a'
  /\ Completeness.complexity a = Completeness.complexity a'
  /\ Completeness.multiple_parts a = Completeness.multiple_parts a'
  /\ Completeness.requires_examples a = Completeness.requires_examples a'
  /\ Completeness.requires_explanation a = Completeness.requires_explanation a'
  /\ Completeness.requires_comparison a = Completeness.requires_comparison a'
  /\ Completeness.key_topics a ≡ₚ Completeness.key_topics a'.

(** Two details of completeness that differ at most in the order of the
    key topics. *)
Definition completeness_details_agree (d d' : Completeness.details) : Prop :=
  query_aspects_agree (Completeness.query_aspects d) (Completeness.query_aspects d')
  /\ Completeness.coverage_score d = Completeness.coverage_score d'
  /\ Completeness.depth_score d = Completeness.depth_score d'
  /\ Completeness.comprehensive_score d = Completeness.comprehensive_score d'
  /\ Completeness.expected_coverage_score d = Completeness.expected_coverage_score d'
  /\ Completeness.response_length d = Completeness.response_length d'
  /\ Completeness.completeness_indicators d = Completeness.completeness_indicators d'
  /\ Completeness.analysis d = Completeness.analysis d'.

(** The first numeric token of a text, read as a number. *)
Inductive first_token : Type :=
| NoNumber
| Unparsable
| Number (x : Binary64.binary64).

Definition first_number (text : string) : first_token :=
  match re.findall Accuracy.number_pattern text with
  | [] => NoNumber
  | token :: _ =>
      match Accuracy.py_float token with
      | Some x => Number x
      | None => Unparsable
      end
  end.

(** The relative error [|a - e| / max(|e|, 1)] of a number against an
    expected one, in the arithmetic of floats; [None] for a division by
    zero. *)
Definition relative_error (a e : Binary64.binary64) : option Binary64.binary64 :=
  Binary64.div (Binary64.abs (Binary64.sub a e))
    (Binary64.max (Binary64.abs e) (Binary64.Finite 1)).

(** The numeric sub-score of the first numbers [a] of the answer and [e] of
    the expected answer: 1 for equal numbers and [max(0, 1 - error)]
    otherwise; the neutral 0.5 for a token that is not read and for a
    division by zero. *)
Definition numeric_subscore (a e : first_token) : Q :=
  match a, e with
  | NoNumber, NoNumber => 0.8
  | NoNumber, _ | _, NoNumber => 0.3
  | Number x, Number y =>
      if Binary64.eqb x y then 1
      else
        match relative_error x y with
        | Some error =>
            Binary64.value
              (Binary64.max (Binary64.Finite 0)
                 (Binary64.sub (Binary64.Finite 1) error))
        | None => 0.5
        end
  | _, _ => 0.5
  end.

(** A request for the given dimensions. *)
Definition request (query answer : string) (context expected_answer : option string)
    (criteria : list string) : Main.EvaluationRequest :=
  {| Main.query := query;
     Main.answer := answer;
     Main.context := context;
     Main.expected_answer := expected_answer;
     Main.evaluation_criteria := Some criteria |}.

(** The score of a dimension for a request, when the name is recognized. *)
Definition score_of (request : Main.EvaluationRequest) (criterion : string)
    : option Q :=
  match Main.evaluators !! criterion with
  | Some evaluator =>
      Some (fst (Main.evaluate evaluator (Main.self evaluator)
                   (Main.query request) (Main.answer request)
                   (Main.context request) (Main.expected_answer request)))
  | None => None
  end.

(** The arithmetic mean of a list of scores, 0 for the empty list. *)
Definition mean (scores : list Q) : Q :=
  match scores with
  | [] => 0
  | _ => fold_right Qplus 0 scores / Qnat (length scores)
  end.

(** The state in which the loop over the criteria starts. *)
Definition initial_state (request : Main.EvaluationRequest) : Main.loop_state :=
  {| Main.detailed_scores := [];
     Main.evaluation_details := [];
     Main.log := [Main.InfoEvaluating (take 100 (Main.query request))] |}.

(** [d.get(k)] of a dictionary kept as a list of entries. *)
Fixpoint lookup {V : Type} (k : string) (d : list (string * V)) : option V :=
  match d with
  | [] => None
  | (k', v) :: d' => if String.eqb k k' then Some v else lookup k d'
  end.

(** The names no evaluator is registered under. *)
Definition unknown (criterion : string) : bool :=
  match Main.evaluators !! criterion with Some _ => false | None => true end.

(** The invariant of the loop over the criteria, [seen] being the names
    already taken from the list. *)
Definition loop_invariant (request : Main.EvaluationRequest)
    (seen : list string) (st : Main.loop_state) : Prop :=
  NoDup (Main.keys (Main.detailed_scores st))
  /\ (forall k, lookup k (Main.detailed_scores st)
                = if decide (k ∈ seen) then score_of request k else None)
  /\ Main.log st
     = (Main.log (initial_state request)
        ++ List.map Main.WarningUnknownCriterion (List.filter unknown seen))%list.

(** The key facts of a text: its sentences that contain one of the verbs
    of being, having or containing. *)
Definition fact_verbs : list string :=
  ["is"; "are"; "was"; "were"; "has"; "have"; "contains"; "includes"].

Definition key_facts (text : string) : list string :=
  List.filter (fun sentence => contains_any fact_verbs (lower sentence))
    (Base._split_into_sentences text).

Definition antonyms : list (string * string) :=
  [("true", "false"); ("yes", "no"); ("increase", "decrease");
   ("positive", "negative"); ("good", "bad"); ("high", "low")].

(** The table flags two facts when one holds a word of a pair and the
    other holds the opposite word, whichever way round. *)
Definition flagged_by_antonyms (fact1 fact2 : string) : bool :=
  existsb
    (fun '(word1, word2) =>
       (contains word1 (lower fact1) && contains word2 (lower fact2))
       || (contains word1 (lower fact2) && contains word2 (lower fact1)))
    antonyms.

Definition is_match (pair : string * string) : bool :=
  Qltb 0.7 (Base._calculate_text_similarity (fst pair) (snd pair)).

Definition is_contradiction (pair : string * string) : bool :=
  Qltb 0.3 (Base._calculate_text_similarity (fst pair) (snd pair))
  && Qleb (Base._calculate_text_similarity (fst pair) (snd pair)) 0.7
  && flagged_by_antonyms (fst pair) (snd pair).

Definition count {X : Type} (p : X -> bool) (l : list X) : nat :=
  length (List.filter p l).

(** Matches minus contradictions over the pairs of an answer fact and an
    expected fact, by the number of expected facts, clamped; 0.5 without
    expected facts. *)
Definition factual_consistency (answer expected_answer : string) : Q :=
  let pairs := list_prod (key_facts answer) (key_facts expected_answer) in
  match key_facts expected_answer with
  | [] => 0.5
  | expected_facts =>
      clamp01 ((Qnat (count is_match pairs) - Qnat (count is_contradiction pairs))
               / Qnat (length expected_facts))
  end.

(** Every character of the string passes the test. *)
Fixpoint string_all (p : ascii -> bool) (s : string) : bool :=
  match s with
  | EmptyString => true
  | String c s' => p c && string_all p s'
  end.

(** The string with every character that passes the test replaced. *)
Fixpoint replace_chars (p : ascii -> bool) (repl : string) (s : string) : string :=
  match s with
  | EmptyString => EmptyString
  | String c s' =>
      if p c then repl +:+ replace_chars p repl s'
      else String c (replace_chars p repl s')
  end.

(** What [[^\w\s]] matches: neither a word character nor whitespace. *)
Definition is_punctuation (c : ascii) : bool :=
  Re.set_ok true [Re.CWord; Re.CSpace] c.

(** The text whose words are the candidates for key terms. *)
Definition normalized (text : string) : string :=
  replace_chars is_punctuation " " (lower text).

(** A character as the normalized text holds them outside whitespace:
    lower-cased, a word character, not whitespace. *)
Definition term_char (c : ascii) : bool :=
  negb (isspace c) && Ascii.eqb (lower_char c) c && negb (is_punctuation c).

(** A character of the normalized text. *)
Definition normal_char (c : ascii) : bool :=
  Ascii.eqb (lower_char c) c && negb (is_punctuation c).

(** The strings a pattern can match, whatever surrounds them: an assertion
    ([\b], [^], [$]) is read as the empty string. *)
Fixpoint power (L : string -> Prop) (n : nat) (w : string) : Prop :=
  match n with
  | O => w = EmptyString
  | S n' => exists w1 w2, w = w1 +:+ w2 /\ L w1 /\ power L n' w2
  end.

Definition within (n : nat) (hi : option nat) : Prop :=
  match hi with None => True | Some h => (n <= h)%nat end.

Fixpoint lang (r : Re.regex) (w : string) : Prop :=
  match r with
  | Re.Empty | Re.WordB | Re.Bol | Re.Eol => w = EmptyString
  | Re.Any => exists c, w = String c EmptyString
  | Re.CSet neg items =>
      exists c, w = String c EmptyString /\ Re.set_ok neg items c = true
  | Re.Seq r1 r2 => exists w1 w2, w = w1 +:+ w2 /\ lang r1 w1 /\ lang r2 w2
  | Re.Alt r1 r2 => lang r1 w \/ lang r2 w
  | Re.Rep r' lo hi =>
      exists n, (lo <= n)%nat /\ within n hi /\ power (lang r') n w
  end.

(** What bounds the matches still to come in a scan. *)
Definition scan_measure (must_advance : bool) (s : string) : nat :=
  (2 * len s + if must_advance then 0 else 1)%nat.

(** A matcher only returns what its continuations return. *)
Definition respects_continuations {A : Type} (body : Re.matcher (A := A)) : Prop :=
  forall prev s k1 k2,
    (forall p e, k1 p e = k2 p e) -> body prev s k1 = body prev s k2.

Definition fails_with_continuation {A : Type} (body : Re.matcher (A := A)) : Prop :=
  forall prev s, body prev s (fun _ _ => None) = None.

(** The number pattern, compiled. *)
Definition digit : Re.regex := Re.CSet false [Re.CDigit].

Definition number_regex : Re.regex :=
  Re.Seq Re.WordB
    (Re.Seq (Re.Rep digit 1 None)
       (Re.Seq
          (Re.Rep
             (Re.Seq (Re.CSet false [Re.CChar "."])
                (Re.Seq (Re.Rep digit 1 None) Re.Empty))
             0 (Some 1%nat))
          (Re.Seq Re.WordB Re.Empty))).

(** Every pattern the evaluators hand to [re]. *)
Definition patterns : list string :=
  (List.map fst Accuracy.contradiction_patterns
   ++ Accuracy.specific_indicators ++ Accuracy.vague_indicators
   ++ Accuracy.hedging_patterns ++ Accuracy.good_uncertainty
   ++ Accuracy.poor_uncertainty ++ Coherence.structure_indicators
   ++ Coherence.transition_patterns ++ Completeness.depth_indicators
   ++ [Accuracy.number_pattern; Coherence.bullet_pattern;
       Coherence.complex_punct_pattern]
   ++ [
       "[.!?]+";
       "[^\w\s]";
       "\b(according to|source|study|research)\b";
       "\b\d+(\.\d+)?\b";
       "\b\d{4}\b|\b(january|february|march|april|may|june|july|august|september|october|november|december)\b";
       "\b(might|could|may|possibly|probably)\b";
       "\b(uncertain|unclear|unknown|varies)\b";
       "\b\d+\.\s+";
       "[.!?].*[.!?]";
       "\b\w+ed\b|\bwas\b|\bwere\b|\bhad\b";
       "\bis\b|\bare\b|\bhas\b|\bhave\b";
       "\b(i|me|my|mine|we|us|our|ours)\b";
       "\b(you|your|yours)\b";
       "\b(he|she|it|they|them|their|his|her|its)\b";
       "^(to answer|in response|regarding|concerning)";
       "^(the answer is|this is|it is)";
       "^(let me explain|to understand)";
       "\b(in conclusion|to conclude|finally|in summary)\b";
       "\b(therefore|thus|as a result)\b.*[.!?]\s*$";
       "\b(however|therefore|furthermore|moreover)\b";
       "\b(for example|for instance|such as)\b";
       "\b(first|second|third|finally)\b";
       "\band\b";
       "\bor\b";
       "\balso\b";
       "\badditionally\b";
       "\?.*\?";
       "[;,].*[?]";
       "\b(first|second|third)\b";
       "\b[A-Za-z]{3,}\b";
       "\bis\b.*\ba\b";
       "\bare\b.*\bthat\b";
       "\bmeans\b";
       "\brefers to\b";
       "\bdefined as\b";
       "\bknown as\b";
       "\b(first|second|third|next|then|finally)\b";
       "\b(step|stage|phase|process)\b";
       "\b(by|through|using|via)\b";
       "\b(because|since|due to|as a result|therefore|thus)\b";
       "\b(reason|cause|factor|leads to|results in)\b";
       "\b(compared to|versus|vs|while|whereas|however)\b";
       "\b(similar|different|alike|unlike|better|worse)\b";
       "\b(advantage|disadvantage|benefit|drawback)\b";
       "\b(also|additionally|furthermore|moreover)\b";
       "\b(another|other|second|third)\b";
       "\b(in addition|as well|besides)\b";
       "\b(because|since|due to|therefore)\b";
       "\b(context|background|historically|traditionally)\b";
       "\b(implication|consequence|result|impact)\b";
       "\b(alternative|option|choice|instead)\b";
       "\b(because|since|therefore)\b";
       "\b(first|second|also|additionally)\b";
       "\b(context|background|history)\b";
       "\b(implication|consequence|impact)\b";
       "\b(alternative|option|instead)\b"])%list.

(** A text without a word: every character is whitespace. *)
Definition blank (s : string) : bool := string_all isspace s.

(** The sentence terminators, the characters of the bracket [[.!?]]. *)
Definition terminator (c : ascii) : bool :=
  Re.set_ok false [Re.CChar "."; Re.CChar "!"; Re.CChar "?"] c.

(** The pattern of the sentence breaks, compiled. *)
Definition breaks_regex : Re.regex :=
  Re.Seq
    (Re.Rep (Re.CSet false [Re.CChar "."; Re.CChar "!"; Re.CChar "?"]) 1 None)
    Re.Empty.

(** The position after the terminators a text starts with. *)
Fixpoint skip_terminators (prev : option ascii) (s : string)
    : option ascii * string :=
  match s with
  | String c s' =>
      if terminator c then skip_terminators (Some c) s' else (prev, s)
  | EmptyString => (prev, s)
  end.

(** The pieces of a text between its runs of terminators: the piece that
    starts the text and the pieces after it. *)
Fixpoint pieces_aux (s : string) : string * list string :=
  match s with
  | EmptyString => (EmptyString, [])
  | String c s' =>
      let '(piece, rest) := pieces_aux s' in
      if terminator c then
        (EmptyString,
         match s' with
         | String c' _ => if terminator c' then rest else piece :: rest
         | EmptyString => piece :: rest
         end)
      else (String c piece, rest)
  end.

Definition pieces (s : string) : list string :=
  let '(piece, rest) := pieces_aux s in piece :: rest.

(** The names of a list of criteria that an evaluator is registered under
    and that are not among [have], each at its first place. *)
Fixpoint first_requests (have criteria : list string) : list string :=
  match criteria with
  | [] => []
  | criterion :: criteria' =>
      if unknown criterion || bool_decide (criterion ∈ have)
      then first_requests have criteria'
      else criterion :: first_requests (have ++ [criterion]) criteria'
  end.

(** The recommendation a score entry calls for, if any. *)
Definition advice (entry : string * Q) : option string :=
  if Qltb (snd entry) 0.6 then Main.recommendation (fst entry) else None.

Definition great_job : string :=
  "Great job! The response meets quality standards across all criteria".

(** The pattern of the key topics, compiled: three letters or more between
    two word boundaries. *)
Definition letter : Re.regex :=
  Re.CSet false [Re.CRange "A" "Z"; Re.CRange "a" "z"].

Definition topic_regex : Re.regex :=
  Re.Seq Re.WordB (Re.Seq (Re.Rep letter 3 None) (Re.Seq Re.WordB Re.Empty)).

(** A lower-case letter of the ASCII alphabet. *)
Definition lower_letter (c : ascii) : bool := between 97 122 c.

End Spec.

(** * Properties *)

(** ** Arithmetic of scores *)

Definition in_unit (x : Q) : Prop := (0 <= x <= 1)%Q.

Lemma clamp01_in_unit (x : Q) : in_unit (clamp01 x).
Proof.
  unfold in_unit, clamp01. split.
  - pose proof (Q.le_max_l 0.0 (Qmin 1.0 x)). lra.
  - apply Q.max_lub; [lra|].
    pose proof (Q.le_min_l 1.0 x). lra.
Qed.

Lemma Qnat_nonneg (n : nat) : (0 <= Qnat n)%Q.
Proof.
  unfold Qnat. change 0%Q with (inject_Z 0). rewrite <- Zle_Qle. lia.
Qed.

Lemma Qnat_pos (n : nat) : (0 < n)%nat -> (0 < Qnat n)%Q.
Proof.
  intros H. unfold Qnat. change 0%Q with (inject_Z 0). rewrite <- Zlt_Qlt. lia.
Qed.

Lemma Qnat_le (n m : nat) : (n <= m)%nat -> (Qnat n <= Qnat m)%Q.
Proof. intros H. unfold Qnat. rewrite <- Zle_Qle. lia. Qed.

Lemma Qnat_ratio_in_unit (n m : nat) :
  (n <= m)%nat -> (0 < m)%nat -> in_unit (Qnat n / Qnat m).
Proof.
  intros Hle Hpos. pose proof (Qnat_pos m Hpos) as Hm.
  pose proof (Qnat_le n m Hle) as Hnm. pose proof (Qnat_nonneg n) as Hn.
  split.
  - apply Qle_shift_div_l; [exact Hm|]. lra.
  - apply Qle_shift_div_r; [exact Hm|]. lra.
Qed.

Lemma Qmin_one_in_unit (x : Q) : (0 <= x)%Q -> in_unit (Qmin x 1.0).
Proof.
  intros H. split.
  - apply Q.min_glb; lra.
  - pose proof (Q.le_min_r x 1.0). lra.
Qed.

Lemma Qltb_lt (x y : Q) : Qltb x y = true <-> (x < y)%Q.
Proof.
  unfold Qltb. rewrite negb_true_iff.
  destruct (Qle_bool y x) eqn:E.
  - apply Qle_bool_iff in E. split; [discriminate | lra].
  - split; [intros _ | reflexivity].
    apply Qnot_le_lt. intros H. apply Qle_bool_iff in H. congruence.
Qed.

Lemma Qleb_le (x y : Q) : Qleb x y = true <-> (x <= y)%Q.
Proof. apply Qle_bool_iff. Qed.

(** The fixed weights of the four scorers keep a combination in range. *)
Lemma weights_433 (a b c : Q) :
  in_unit a -> in_unit b -> in_unit c ->
  in_unit (a * 0.4 + b * 0.3 + c * 0.3).
Proof. unfold in_unit. intros. lra. Qed.

Lemma weights_3322 (a b c d : Q) :
  in_unit a -> in_unit b -> in_unit c -> in_unit d ->
  in_unit (a * 0.3 + b * 0.3 + c * 0.2 + d * 0.2).
Proof. unfold in_unit. intros. lra. Qed.

Lemma weights_3_25_25_2 (a b c d : Q) :
  in_unit a -> in_unit b -> in_unit c -> in_unit d ->
  in_unit (a * 0.3 + b * 0.25 + c * 0.25 + d * 0.2).
Proof. unfold in_unit. intros. lra. Qed.

(** ** Sets of words *)

Lemma set_empty_true (s : gset string) : Base.set_empty s = true <-> s = ∅.
Proof. unfold Base.set_empty. apply bool_decide_eq_true. Qed.

Lemma set_empty_false (s : gset string) :
  Base.set_empty s = false -> (0 < size s)%nat.
Proof.
  unfold Base.set_empty. intros H%bool_decide_eq_false.
  destruct (size s) eqn:E; [|lia].
  apply size_empty_iff in E. exfalso. apply H. by apply leibniz_equiv.
Qed.

Lemma size_inter_le_l (s t : gset string) : (size (s ∩ t) <= size s)%nat.
Proof. apply subseteq_size, intersection_subseteq_l. Qed.

(** ** The sub-scores of the relevance scorer *)

Lemma text_similarity_in_unit (text1 text2 : string) :
  in_unit (Base._calculate_text_similarity text1 text2).
Proof.
  unfold Base._calculate_text_similarity.
  set (w1 := Base.word_set text1). set (w2 := Base.word_set text2).
  destruct (Base.set_empty w1) eqn:E1, (Base.set_empty w2) eqn:E2; simpl;
    try (unfold in_unit; lra).
  destruct (Base.set_empty (w1 ∪ w2)) eqn:EU; simpl; [unfold in_unit; lra|].
  apply Qnat_ratio_in_unit.
  - apply subseteq_size.
    etrans; [apply intersection_subseteq_l | apply union_subseteq_l].
  - by apply set_empty_false.
Qed.

Lemma term_overlap_in_unit (query_terms answer_terms : gset string) :
  in_unit (Relevance._calculate_term_overlap query_terms answer_terms).
Proof.
  unfold Relevance._calculate_term_overlap.
  destruct (Base.set_empty query_terms) eqn:E; [unfold in_unit; lra|].
  apply Qnat_ratio_in_unit; [apply size_inter_le_l | by apply set_empty_false].
Qed.

Lemma direct_answer_in_unit (query answer : string) :
  in_unit (Relevance._check_direct_answer_patterns query answer).
Proof.
  unfold Relevance._check_direct_answer_patterns.
  apply Qmin_one_in_unit.
  repeat match goal with
         | |- context [if ?b then _ else _] => destruct b
         end; lra.
Qed.

Lemma semantic_relevance_in_unit (query answer : string) :
  in_unit (Relevance._evaluate_semantic_relevance query answer).
Proof. apply clamp01_in_unit. Qed.

Lemma relevance_in_unit self query answer context expected_answer :
  in_unit (fst (Relevance.evaluate self query answer context expected_answer)).
Proof.
  apply weights_433;
    auto using term_overlap_in_unit, direct_answer_in_unit,
      semantic_relevance_in_unit.
Qed.

(** ** The sub-scores of the accuracy scorer *)

Lemma factual_consistency_in_unit (answer expected_answer : string) :
  in_unit (Accuracy._check_factual_consistency answer expected_answer).
Proof.
  unfold Accuracy._check_factual_consistency.
  destruct (Accuracy._extract_key_facts expected_answer) as [|f fs];
    [unfold in_unit; lra|].
  destruct (Accuracy.count_facts _ _) as [contradictions matches].
  destruct (_ =? _)%nat; [unfold in_unit; lra | apply clamp01_in_unit].
Qed.

Lemma internal_consistency_in_unit (answer : string) :
  in_unit (Accuracy._check_internal_consistency answer).
Proof.
  unfold Accuracy._check_internal_consistency.
  destruct (_ <? _)%nat; [unfold in_unit; lra | apply clamp01_in_unit].
Qed.

(** *** The rounding of binary64 *)

Lemma ties_to_even_le (t : Q) (k : Z) :
  (t <= inject_Z k)%Q -> (Binary64.ties_to_even t <= k)%Z.
Proof.
  intros H. unfold Binary64.ties_to_even. cbv zeta.
  pose proof (Qfloor_le t) as Hfloor.
  assert (Hbelow : (Qfloor t <= k)%Z)
    by (rewrite <- (Qfloor_Z k); by apply Qfloor_resp_le).
  destruct (Qltb (t - inject_Z (Qfloor t)) 0.5) eqn:E; [exact Hbelow|].
  assert (Hlt : (Qfloor t < k)%Z).
  { rewrite Zlt_Qlt.
    destruct (Qlt_le_dec (t - inject_Z (Qfloor t)) 0.5) as [Hl|Hl].
    - apply Qltb_lt in Hl. congruence.
    - lra. }
  destruct (Qltb 0.5 _); [lia|]. destruct (Z.even _); lia.
Qed.

Lemma ties_to_even_ge (t : Q) (k : Z) :
  (inject_Z k <= t)%Q -> (k <= Binary64.ties_to_even t)%Z.
Proof.
  intros H. unfold Binary64.ties_to_even. cbv zeta.
  assert (Hbelow : (k <= Qfloor t)%Z)
    by (rewrite <- (Qfloor_Z k); by apply Qfloor_resp_le).
  repeat match goal with |- context [if ?b then _ else _] => destruct b end; lia.
Qed.

Lemma power2_pos (e : Z) : (0 < 2 ^ e)%Q.
Proof. apply Qpower_0_lt. reflexivity. Qed.

(** From 1 downwards the unit in the last place is the inverse of an
    integer. *)
Lemma power2_inverse (e : Z) :
  (e <= 0)%Z -> (2 ^ e * inject_Z (2 ^ (- e)) == 1)%Q.
Proof.
  intros He. rewrite Zpower_Qpower by lia.
  change (inject_Z 2) with 2%Q. rewrite <- Qpower_plus by discriminate.
  by replace (e + - e)%Z with 0%Z by lia.
Qed.

Lemma floor_log2_below_one (x : Q) :
  (0 < x)%Q -> (x <= 1)%Q -> (Binary64.floor_log2 x <= 0)%Z.
Proof.
  intros Hpos Hle. unfold Binary64.floor_log2. cbv zeta.
  assert (Hnum : (Qnum x <= Zpos (Qden x))%Z).
  { destruct x as [n d]. unfold Qle in Hle. simpl in *. lia. }
  pose proof (Z.log2_le_mono _ _ Hnum).
  destruct (Qleb _ _); lia.
Qed.

Lemma Qabs_nonneg_eq (x : Q) : (0 <= x)%Q -> Qabs x = x.
Proof.
  destruct x as [n d]. unfold Qle, Qabs. simpl. intros H.
  f_equal. apply Z.abs_eq. lia.
Qed.

Lemma round64_not_nan (x : Q) : Binary64.round64 x <> Binary64.NaN.
Proof.
  unfold Binary64.round64. cbv zeta.
  destruct (Qeqb x 0); [discriminate|]. by destruct (Qleb _ _).
Qed.

(** The rounding of a number that is not negative is not negative. *)
Lemma round64_nonneg (x : Q) :
  (0 <= x)%Q ->
  match Binary64.round64 x with
  | Binary64.Finite q => (0 <= q)%Q
  | Binary64.Infinity negative => negative = false
  | Binary64.NaN => False
  end.
Proof.
  intros Hx. unfold Binary64.round64. cbv zeta.
  destruct (Qeqb x 0); [lra|].
  set (e := Z.max _ _). pose proof (power2_pos e) as He.
  assert (Hn : (0 <= Binary64.ties_to_even (x / 2 ^ e))%Z).
  { apply ties_to_even_ge. change (inject_Z 0) with 0%Q.
    apply Qle_shift_div_l; [exact He | lra]. }
  destruct (Qleb _ _).
  - destruct (Qltb x 0) eqn:E; [|reflexivity]. apply Qltb_lt in E. lra.
  - rewrite Qred_correct. rewrite Zle_Qle in Hn.
    change (inject_Z 0) with 0%Q in Hn. clearbody e. nra.
Qed.

(** The rounding of a number that is at most 1 is at most 1, since 1 is a
    binary64 number. *)
Lemma round64_le_one (x : Q) :
  (x <= 1)%Q ->
  match Binary64.round64 x with
  | Binary64.Finite q => (q <= 1)%Q
  | Binary64.Infinity negative => negative = true
  | Binary64.NaN => False
  end.
Proof.
  intros Hx. unfold Binary64.round64. cbv zeta.
  destruct (Qeqb x 0) eqn:E0; [lra|].
  set (e := Z.max _ _). pose proof (power2_pos e) as He.
  set (n := Binary64.ties_to_even (x / 2 ^ e)).
  assert (Hbig : (1 < 2 ^ 1024)%Q) by (vm_compute; reflexivity).
  assert (Hnearest : (inject_Z n * 2 ^ e <= 1)%Q).
  { destruct (Qlt_le_dec 0 x) as [Hpos|Hneg].
    - assert (Hexp : (e <= 0)%Z).
      { subst e. rewrite Qabs_nonneg_eq by lra.
        pose proof (floor_log2_below_one x Hpos Hx). lia. }
      pose proof (power2_inverse e Hexp) as Hinv.
      assert (Hk : (0 < inject_Z (2 ^ (- e)))%Q).
      { change 0%Q with (inject_Z 0). rewrite <- Zlt_Qlt.
        apply Z.pow_pos_nonneg; lia. }
      assert (Hn : (n <= 2 ^ (- e))%Z).
      { apply ties_to_even_le. apply Qle_shift_div_r; [exact He|].
        clearbody e. nra. }
      rewrite Zle_Qle in Hn. clearbody n e. nra.
    - assert (Hn : (n <= 0)%Z).
      { apply ties_to_even_le. change (inject_Z 0) with 0%Q.
        apply Qle_shift_div_r; [exact He | lra]. }
      rewrite Zle_Qle in Hn. change (inject_Z 0) with 0%Q in Hn.
      clearbody n e. nra. }
  destruct (Qleb _ _) eqn:E.
  - apply Qleb_le in E.
    destruct (Qltb x 0) eqn:Ex; [reflexivity|].
    assert (Hx0 : (0 <= x)%Q).
    { destruct (Qlt_le_dec x 0) as [Hl|Hl]; [|exact Hl].
      apply Qltb_lt in Hl. congruence. }
    assert (Hn : (0 <= n)%Z).
    { apply ties_to_even_ge. change (inject_Z 0) with 0%Q.
      apply Qle_shift_div_l; [exact He | lra]. }
    rewrite Zle_Qle in Hn. change (inject_Z 0) with 0%Q in Hn.
    rewrite Qabs_pos in E by (clearbody n e; nra). lra.
  - by rewrite Qred_correct.
Qed.

Lemma abs_not_below_zero (x : Binary64.binary64) :
  Binary64.not_below_zero (Binary64.abs x).
Proof. destruct x; simpl; [apply Qabs_nonneg | reflexivity | exact I]. Qed.

(** [max(abs(e), 1)] is a number from 1 upwards, or a nan. *)
Lemma divisor_from_one (y : Binary64.binary64) :
  match Binary64.max (Binary64.abs y) (Binary64.Finite 1) with
  | Binary64.Finite b => (1 <= b)%Q
  | Binary64.Infinity negative => negative = false
  | Binary64.NaN => True
  end.
Proof.
  destruct y as [a| |]; unfold Binary64.max; simpl; [|reflexivity | exact I].
  destruct (Qltb (Qabs a) 1) eqn:E; [lra|].
  destruct (Qlt_le_dec (Qabs a) 1) as [Hl|Hl]; [|exact Hl].
  apply Qltb_lt in Hl. congruence.
Qed.

(** The division by [max(abs(e), 1)] raises no [ZeroDivisionError]. *)
Lemma div_defined (x y : Binary64.binary64) :
  Binary64.div x (Binary64.max (Binary64.abs y) (Binary64.Finite 1)) <> None.
Proof.
  pose proof (divisor_from_one y) as H. unfold Binary64.div.
  destruct (Binary64.max _ _) as [b|negative|]; simpl; [|discriminate..].
  destruct (Qeqb b 0) eqn:E; [|discriminate].
  apply Qeq_bool_iff in E. lra.
Qed.

Lemma relative_error_not_below_zero (x y error : Binary64.binary64) :
  Spec.relative_error x y = Some error -> Binary64.not_below_zero error.
Proof.
  unfold Spec.relative_error, Binary64.div.
  pose proof (abs_not_below_zero (Binary64.sub x y)) as Hd.
  pose proof (divisor_from_one y) as Hm.
  destruct (Binary64.abs (Binary64.sub x y)) as [a|s|],
           (Binary64.max _ _) as [b|s'|];
    destruct (Binary64.eqb _ _); try discriminate; intros [= <-];
    simpl in *; try exact I; try lra.
  - pose proof (round64_nonneg (a / b)) as Hr.
    destruct (Binary64.round64 (a / b)); simpl; [| |exact I];
      apply Hr; apply Qle_shift_div_l; lra.
  - subst s. simpl. destruct (Qltb b 0) eqn:E; [|reflexivity].
    apply Qltb_lt in E. lra.
Qed.

(** [max(0.0, 1.0 - error)] is a finite number between 0 and 1. *)
Lemma score_of_error (error : Binary64.binary64) :
  Binary64.not_below_zero error ->
  exists q,
    Binary64.max (Binary64.Finite 0)
      (Binary64.sub (Binary64.Finite 1) error) = Binary64.Finite q
    /\ (0 <= q <= 1)%Q.
Proof.
  intros H. unfold Binary64.max.
  destruct error as [r|s|]; simpl in *.
  - pose proof (round64_le_one (1 - r)) as Hr.
    destruct (Binary64.round64 (1 - r)) as [q|s|]; simpl.
    + destruct (Qltb 0 q) eqn:E.
      * apply Qltb_lt in E. exists q. split; [reflexivity|].
        split; [lra | apply Hr; lra].
      * exists 0%Q. split; [reflexivity | lra].
    + rewrite Hr by lra. exists 0%Q. split; [reflexivity | lra].
    + exists 0%Q. split; [reflexivity | lra].
  - subst s. exists 0%Q. split; [reflexivity | lra].
  - exists 0%Q. split; [reflexivity | lra].
Qed.

Lemma numeric_subscore_in_unit (a e : Spec.first_token) :
  in_unit (Spec.numeric_subscore a e).
Proof.
  unfold Spec.numeric_subscore.
  destruct a as [| |x], e as [| |y]; try (unfold in_unit; lra).
  destruct (Binary64.eqb x y); [unfold in_unit; lra|].
  destruct (Spec.relative_error x y) as [error|] eqn:E; [|unfold in_unit; lra].
  apply relative_error_not_below_zero in E.
  destruct (score_of_error error E) as (q & -> & Hq). exact Hq.
Qed.

Lemma numerical_values_spec (answer expected_answer : string) :
  (Accuracy._compare_numerical_values answer expected_answer
   == Spec.numeric_subscore (Spec.first_number answer)
        (Spec.first_number expected_answer))%Q.
Proof.
  unfold Accuracy._compare_numerical_values, Spec.first_number.
  destruct (re.findall _ answer) as [|a ?], (re.findall _ expected_answer) as [|e ?].
  - reflexivity.
  - by destruct (Accuracy.py_float e).
  - by destruct (Accuracy.py_float a).
  - destruct (Accuracy.py_float a) as [x|], (Accuracy.py_float e) as [y|];
      try reflexivity.
    unfold Spec.numeric_subscore, Spec.relative_error.
    destruct (Binary64.eqb x y); reflexivity.
Qed.

Lemma numerical_values_in_unit (answer expected_answer : string) :
  in_unit (Accuracy._compare_numerical_values answer expected_answer).
Proof.
  pose proof (numerical_values_spec answer expected_answer) as H.
  pose proof (numeric_subscore_in_unit (Spec.first_number answer)
                (Spec.first_number expected_answer)) as Hs.
  unfold in_unit in *. lra.
Qed.

Lemma specificity_in_unit (text : string) :
  in_unit (Accuracy._measure_specificity text).
Proof. apply clamp01_in_unit. Qed.

Lemma precision_in_unit (answer expected_answer : string) :
  in_unit (Accuracy._evaluate_precision answer expected_answer).
Proof.
  unfold Accuracy._evaluate_precision.
  pose proof (specificity_in_unit answer) as [? ?].
  pose proof (numerical_values_in_unit answer expected_answer) as [? ?].
  split; [apply Qle_shift_div_l | apply Qle_shift_div_r]; lra.
Qed.

Lemma answer_precision_in_unit (answer : string) :
  in_unit (Accuracy._evaluate_answer_precision answer).
Proof. apply clamp01_in_unit. Qed.

Lemma uncertainty_in_unit (answer : string) :
  in_unit (Accuracy._check_uncertainty_handling answer).
Proof. apply clamp01_in_unit. Qed.

Lemma compared_scores_in_unit (answer : string) (expected_answer : option string) :
  let '(similarity, factual, precision) :=
    Accuracy.compared_scores answer expected_answer in
  in_unit similarity /\ in_unit factual /\ in_unit precision.
Proof.
  unfold Accuracy.compared_scores, Base.if_truthy.
  assert (in_unit 0.5) by (unfold in_unit; lra).
  destruct expected_answer as [e|]; [destruct (PyStr.truthy e)|];
    (split; [|split]);
    auto using text_similarity_in_unit, factual_consistency_in_unit,
      precision_in_unit, internal_consistency_in_unit, answer_precision_in_unit.
Qed.

Lemma accuracy_in_unit self query answer context expected_answer :
  in_unit (fst (Accuracy.evaluate self query answer context expected_answer)).
Proof.
  unfold Accuracy.evaluate.
  pose proof (compared_scores_in_unit answer expected_answer) as H.
  destruct (Accuracy.compared_scores answer expected_answer) as [[s f] p].
  destruct H as (Hs & Hf & Hp). simpl.
  apply weights_3322; auto using uncertainty_in_unit.
Qed.

(** ** The sub-scores of the coherence scorer *)

Lemma structure_in_unit (answer : string) :
  in_unit (Coherence._evaluate_structure answer).
Proof.
  unfold Coherence._evaluate_structure.
  destruct (_ =? 0)%nat; [unfold in_unit; lra|].
  destruct (_ =? 1)%nat; [destruct (_ <? _)%nat; unfold in_unit; lra|].
  apply clamp01_in_unit.
Qed.

Lemma logical_flow_in_unit (answer : string) :
  in_unit (Coherence._evaluate_logical_flow answer).
Proof.
  unfold Coherence._evaluate_logical_flow.
  destruct (_ <=? 1)%nat; [unfold in_unit; lra | apply clamp01_in_unit].
Qed.

Lemma readability_in_unit (answer : string) :
  in_unit (Coherence._evaluate_readability answer).
Proof. apply clamp01_in_unit. Qed.

Lemma consistency_in_unit (answer : string) :
  in_unit (Coherence._evaluate_consistency answer).
Proof. apply clamp01_in_unit. Qed.

Lemma coherence_in_unit self query answer context expected_answer :
  in_unit (fst (Coherence.evaluate self query answer context expected_answer)).
Proof.
  apply weights_3322;
    auto using structure_in_unit, logical_flow_in_unit, readability_in_unit,
      consistency_in_unit.
Qed.

(** ** The sub-scores of the completeness scorer *)

Lemma count_if_le {X : Type} (p : X -> bool) (l : list X) (n : nat) :
  (fold_left (fun count x => if p x then S count else count) l n
   <= n + length l)%nat.
Proof.
  revert n. induction l as [|x l IH]; intros n; simpl; [lia|].
  destruct (p x); etrans; try apply IH; lia.
Qed.

Lemma compare_with_expected_in_unit (answer expected_answer : string) :
  in_unit (Completeness._compare_with_expected answer expected_answer).
Proof.
  unfold Completeness._compare_with_expected.
  destruct (Completeness._split_into_sentences expected_answer) as [|e es] eqn:E;
    [unfold in_unit; lra|].
  apply Qnat_ratio_in_unit; [|simpl; lia].
  etrans; [apply count_if_le | lia].
Qed.

Lemma completeness_in_unit self query answer context expected_answer :
  in_unit (fst (Completeness.evaluate self query answer context expected_answer)).
Proof.
  unfold Completeness.evaluate, Completeness.evaluate_in. simpl.
  apply weights_3_25_25_2; try apply clamp01_in_unit.
  unfold Base.if_truthy.
  destruct expected_answer as [e|]; [destruct (PyStr.truthy e)|];
    auto using compare_with_expected_in_unit; unfold in_unit; lra.
Qed.

(** ** The matcher: continuations, fuel and matched strings *)

Lemma append_nil (b : string) : EmptyString +:+ b = b.
Proof. reflexivity. Qed.

Lemma append_cons (x : ascii) (a b : string) :
  String x a +:+ b = String x (a +:+ b).
Proof. reflexivity. Qed.

Lemma append_nil_r (a : string) : a +:+ EmptyString = a.
Proof.
  induction a as [|x a IH]; [reflexivity|]. by rewrite append_cons, IH.
Qed.

Lemma append_assoc (a b c : string) : (a +:+ b) +:+ c = a +:+ (b +:+ c).
Proof.
  induction a as [|x a IH]; [reflexivity|].
  by rewrite !append_cons, IH.
Qed.

Lemma len_app (a b : string) :
  PyStr.len (a +:+ b) = (PyStr.len a + PyStr.len b)%nat.
Proof.
  unfold PyStr.len. induction a as [|x a IH]; [reflexivity|].
  rewrite append_cons. simpl. by rewrite IH.
Qed.

Lemma take_app (a b : string) : PyStr.take (PyStr.len a) (a +:+ b) = a.
Proof.
  induction a as [|x a IH]; [by destruct b|].
  rewrite append_cons. unfold PyStr.len in *. simpl. by rewrite IH.
Qed.

Section MatcherLemmas.
Context {A : Type}.
Variable multiline : bool.
Implicit Types (k : option ascii -> string -> option A).

Lemma rep_loop_ext (body : Re.matcher (A := A)) lo hi k1 k2 :
  Spec.respects_continuations body ->
  (forall p e, k1 p e = k2 p e) ->
  forall fuel n prev s,
    Re.rep_loop body lo hi k1 fuel n prev s
    = Re.rep_loop body lo hi k2 fuel n prev s.
Proof.
  intros Hbody Hk. induction fuel as [|fuel IH]; intros n prev s; simpl.
  - by rewrite Hk.
  - rewrite Hk. destruct (Re.more_allowed n hi); [|reflexivity].
    f_equal. apply Hbody. intros p e. by rewrite IH.
Qed.

Lemma run_ext (r : Re.regex) :
  Spec.respects_continuations (A := A) (Re.run multiline r).
Proof.
  induction r as [| | neg items | | | |r1 IH1 r2 IH2|r1 IH1 r2 IH2|r IH lo hi];
    intros prev s k1 k2 Hk; simpl.
  - apply Hk.
  - destruct s as [|c s]; [reflexivity|]. by rewrite Hk.
  - destruct s as [|c s]; [reflexivity|]. by rewrite Hk.
  - by rewrite Hk.
  - by rewrite Hk.
  - by rewrite Hk.
  - apply IH1. intros p e. by apply IH2.
  - by rewrite (IH1 prev s k1 k2 Hk), (IH2 prev s k1 k2 Hk).
  - by apply rep_loop_ext.
Qed.

Lemma rep_loop_none (body : Re.matcher (A := A)) lo hi :
  Spec.respects_continuations body -> Spec.fails_with_continuation body ->
  forall fuel n prev s,
    Re.rep_loop body lo hi (fun _ _ => None) fuel n prev s = None.
Proof.
  intros Hext Hnone. induction fuel as [|fuel IH]; intros n prev s; simpl.
  - by destruct (lo <=? n).
  - assert (Hstop : (if lo <=? n then None else None) = (None : option A))
      by (by destruct (lo <=? n)).
    rewrite Hstop. destruct (Re.more_allowed n hi); [|reflexivity].
    rewrite (Hext prev s _ (fun _ _ => None)); [by rewrite Hnone|].
    intros p e. rewrite IH. by destruct (_ <? _).
Qed.

Lemma run_none (r : Re.regex) :
  Spec.fails_with_continuation (A := A) (Re.run multiline r).
Proof.
  induction r as [| | neg items | | | |r1 IH1 r2 IH2|r1 IH1 r2 IH2|r IH lo hi];
    intros prev s; simpl.
  - reflexivity.
  - destruct s as [|c s]; [reflexivity|]. by destruct (_ =? _)%N.
  - destruct s as [|c s]; [reflexivity|]. by destruct (Re.set_ok _ _ _).
  - by destruct (Re.at_boundary _ _).
  - by destruct (Re.at_bol _ _).
  - by destruct (Re.at_eol _ _).
  - rewrite (run_ext r1 prev s _ (fun _ _ => None)); [apply IH1|].
    intros p e. apply IH2.
  - by rewrite IH1, IH2.
  - apply rep_loop_none; [apply run_ext | exact IH].
Qed.

(** The fuel of an iteration: any amount from the length of the input on
    gives the same result. *)
Lemma rep_loop_fuel (r : Re.regex) lo hi k :
  forall fuel1 fuel2 n prev s,
    (PyStr.len s <= fuel1)%nat -> (PyStr.len s <= fuel2)%nat ->
    Re.rep_loop (Re.run multiline r) lo hi k fuel1 n prev s
    = Re.rep_loop (Re.run multiline r) lo hi k fuel2 n prev s.
Proof.
  assert (Hshort : forall fuel n prev s,
             PyStr.len s = 0%nat ->
             Re.rep_loop (Re.run multiline r) lo hi k fuel n prev s
             = if lo <=? n then k prev s else None).
  { intros fuel n prev s Hs. destruct fuel as [|fuel]; [reflexivity|]. simpl.
    destruct (Re.more_allowed n hi); [|reflexivity].
    rewrite (run_ext r prev s _ (fun _ _ => None)); [by rewrite run_none|].
    intros p e. rewrite Hs. by destruct (_ <? _) eqn:E; [apply Nat.ltb_lt in E; lia|]. }
  induction fuel1 as [|fuel1 IH]; intros fuel2 n prev s H1 H2.
  - rewrite !Hshort by lia. reflexivity.
  - destruct fuel2 as [|fuel2]; [rewrite !Hshort by lia; reflexivity|].
    simpl. destruct (Re.more_allowed n hi); [|reflexivity].
    f_equal. apply run_ext. intros p e.
    destruct (PyStr.len e <? PyStr.len s) eqn:E; [|reflexivity].
    apply Nat.ltb_lt in E. apply IH; lia.
Qed.

(** What a matcher hands to its continuation is the rest of its input
    after a string the pattern can match. *)
Lemma rep_loop_sound (r : Re.regex) lo hi k :
  (forall prev s k' x,
     Re.run multiline r prev s k' = Some x ->
     exists w e p, s = w +:+ e /\ Spec.lang r w /\ k' p e = Some x) ->
  forall fuel n prev s x,
    Spec.within n hi ->
    Re.rep_loop (Re.run multiline r) lo hi k fuel n prev s = Some x ->
    exists m w e p,
      s = w +:+ e /\ Spec.power (Spec.lang r) m w
      /\ (lo <= n + m)%nat /\ Spec.within (n + m) hi /\ k p e = Some x.
Proof.
  intros Hbody.
  assert (Hstop : forall n prev s x,
             Spec.within n hi ->
             (if lo <=? n then k prev s else None) = Some x ->
             exists m w e p,
               s = w +:+ e /\ Spec.power (Spec.lang r) m w
               /\ (lo <= n + m)%nat /\ Spec.within (n + m) hi
               /\ k p e = Some x).
  { intros n prev s x Hn H. destruct (lo <=? n) eqn:E; [|discriminate].
    apply Nat.leb_le in E. exists 0%nat, EmptyString, s, prev.
    rewrite Nat.add_0_r. by repeat split. }
  induction fuel as [|fuel IH]; intros n prev s x Hn H; simpl in H.
  - exact (Hstop n prev s x Hn H).
  - destruct (Re.more_allowed n hi) eqn:Emore; [|exact (Hstop n prev s x Hn H)].
    destruct (Re.run multiline r prev s _) as [y|] eqn:Erun;
      simpl in H; [|exact (Hstop n prev s x Hn H)].
    injection H as ->.
    apply Hbody in Erun as (w1 & e1 & p1 & Hs & Hw1 & Hk).
    destruct (PyStr.len e1 <? PyStr.len s); [|discriminate].
    apply IH in Hk as (m & w2 & e & p & He1 & Hw2 & Hlo & Hhi & Hk).
    + exists (S m), (w1 +:+ w2), e, p.
      rewrite append_assoc, <- He1, <- Hs, Nat.add_succ_r.
      repeat split; try done. exists w1, w2. by repeat split.
    + unfold Re.more_allowed in Emore. unfold Spec.within.
      destruct hi as [h|]; [|done]. apply Nat.ltb_lt in Emore. lia.
Qed.

Lemma run_sound (r : Re.regex) :
  forall prev s k x,
    Re.run multiline r prev s k = Some x ->
    exists w e p, s = w +:+ e /\ Spec.lang r w /\ k p e = Some x.
Proof.
  induction r as [| | neg items | | | |r1 IH1 r2 IH2|r1 IH1 r2 IH2|r IH lo hi];
    intros prev s k x H; simpl in H.
  - by exists EmptyString, s, prev.
  - destruct s as [|c s]; [discriminate|].
    destruct (_ =? _)%N; [discriminate|].
    exists (String c EmptyString), s, (Some c).
    split; [reflexivity|]. split; [by exists c | exact H].
  - destruct s as [|c s]; [discriminate|].
    destruct (Re.set_ok neg items c) eqn:E; [|discriminate].
    exists (String c EmptyString), s, (Some c).
    split; [reflexivity|]. split; [by exists c | exact H].
  - destruct (Re.at_boundary prev s); [|discriminate].
    by exists EmptyString, s, prev.
  - destruct (Re.at_bol multiline prev); [|discriminate].
    by exists EmptyString, s, prev.
  - destruct (Re.at_eol multiline s); [|discriminate].
    by exists EmptyString, s, prev.
  - apply IH1 in H as (w1 & e1 & p1 & Hs & Hw1 & H).
    apply IH2 in H as (w2 & e & p & He1 & Hw2 & H).
    exists (w1 +:+ w2), e, p. rewrite append_assoc, <- He1, <- Hs.
    repeat split; try done. by exists w1, w2.
  - destruct (Re.run multiline r1 prev s k) as [y|] eqn:E1; simpl in H.
    + injection H as ->. apply IH1 in E1 as (w & e & p & ? & ? & ?).
      exists w, e, p. repeat split; try done. by left.
    + apply IH2 in H as (w & e & p & ? & ? & ?).
      exists w, e, p. repeat split; try done. by right.
  - apply (rep_loop_sound r lo hi k IH) in H as (m & w & e & p & ? & ? & ? & ? & ?);
      [|by destruct hi; simpl; [lia|]].
    exists w, e, p. repeat split; try done. by exists m.
Qed.

End MatcherLemmas.

(** A match splits the input into the text skipped, the text matched,
    which the pattern can match, and the rest; a match that must advance and
    starts at once is not empty. *)
Lemma find_sound (multiline : bool) (r : Re.regex) :
  forall (s : string) (must_advance : bool) (prev : option ascii) (h : Re.hit),
    Re.find multiline must_advance r prev s = Some h ->
    s = Re.skipped h +:+ Re.matched h +:+ Re.after h
    /\ Spec.lang r (Re.matched h)
    /\ (must_advance = true -> Re.skipped h = EmptyString ->
        Re.matched h <> EmptyString).
Proof.
  assert (Hhere : forall s must_advance prev p e,
             Re.match_here multiline must_advance r prev s = Some (p, e) ->
             exists w, s = w +:+ e /\ Spec.lang r w
                       /\ (must_advance = true -> w <> EmptyString)).
  { intros s must_advance prev p e H. unfold Re.match_here in H.
    apply run_sound in H as (w & e' & p' & Hs & Hw & Hk).
    destruct (must_advance && (PyStr.len e' =? PyStr.len s)) eqn:E;
      [discriminate|].
    injection Hk as -> ->. exists w. repeat split; try done.
    intros -> ->. rewrite append_nil in Hs. subst s.
    by rewrite Nat.eqb_refl in E. }
  assert (Hsome : forall s must_advance prev p e,
             Re.match_here multiline must_advance r prev s = Some (p, e) ->
             s = EmptyString +:+ PyStr.take (PyStr.len s - PyStr.len e) s +:+ e
             /\ Spec.lang r (PyStr.take (PyStr.len s - PyStr.len e) s)
             /\ (must_advance = true -> EmptyString = EmptyString ->
                 PyStr.take (PyStr.len s - PyStr.len e) s <> EmptyString)).
  { intros s must_advance prev p e H.
    apply Hhere in H as (w & Hs & Hw & Hadv). subst s.
    rewrite len_app, Nat.add_sub, take_app, append_nil. by repeat split; auto. }
  induction s as [|c s IH]; intros must_advance prev h H; cbn [Re.find] in H.
  - destruct (Re.match_here multiline must_advance r prev EmptyString)
      as [[p e]|] eqn:E; [|discriminate].
    injection H as <-. cbn [Re.skipped Re.matched Re.after].
    by apply Hsome in E.
  - destruct (Re.match_here multiline must_advance r prev (String c s))
      as [[p e]|] eqn:E.
    + injection H as <-. cbn [Re.skipped Re.matched Re.after].
      by apply Hsome in E.
    + destruct (Re.find multiline false r (Some c) s) as [h'|] eqn:E';
        [|discriminate].
      injection H as <-. cbn [Re.skipped Re.matched Re.after].
      apply IH in E' as (Hs & Hw & _).
      rewrite append_cons, <- Hs. by repeat split.
Qed.

(** The matches still to come shrink the measure of a scan. *)
Lemma find_measure (multiline : bool) (r : Re.regex)
    (s : string) (must_advance : bool) (prev : option ascii) (h : Re.hit) :
  Re.find multiline must_advance r prev s = Some h ->
  (Spec.scan_measure
     (match Re.matched h with EmptyString => true | _ => false end) (Re.after h)
   < Spec.scan_measure must_advance s)%nat.
Proof.
  intros H. apply find_sound in H as (Hs & _ & Hadv).
  unfold Spec.scan_measure. rewrite Hs, !len_app.
  destruct (Re.matched h) as [|m ms] eqn:Em.
  - destruct must_advance; [|unfold PyStr.len; simpl; lia].
    destruct (Re.skipped h) as [|x xs]; [by destruct Hadv|].
    unfold PyStr.len. simpl. lia.
  - unfold PyStr.len. simpl. destruct must_advance; lia.
Qed.

(** The fuel of a scan: any amount above the measure gives the same result,
    so [findall], [split] and [sub] enumerate all the matches. *)
Lemma scan_fuel_enough {B : Type} (multiline : bool) (r : Re.regex)
    (step : Re.hit -> B -> B) (tail : string -> B) :
  forall fuel1 fuel2 must_advance prev s,
    (Spec.scan_measure must_advance s < fuel1)%nat ->
    (Spec.scan_measure must_advance s < fuel2)%nat ->
    Re.scan fuel1 multiline must_advance r prev s step tail
    = Re.scan fuel2 multiline must_advance r prev s step tail.
Proof.
  induction fuel1 as [|fuel1 IH]; intros fuel2 must_advance prev s H1 H2; [lia|].
  destruct fuel2 as [|fuel2]; [lia|]. cbn [Re.scan].
  destruct (Re.find multiline must_advance r prev s) as [h|] eqn:E;
    [|reflexivity].
  apply find_measure in E. f_equal. apply IH; lia.
Qed.

Lemma findall_lang (multiline : bool) (r : Re.regex) (s : string) :
  Forall (Spec.lang r) (Re.findall_re multiline r s).
Proof.
  unfold Re.findall_re. generalize (Re.scan_fuel s) as fuel.
  generalize (@None ascii) as prev. generalize false as must_advance.
  intros must_advance prev fuel. revert must_advance prev s.
  induction fuel as [|fuel IH]; intros must_advance prev s; cbn [Re.scan].
  - constructor.
  - destruct (Re.find multiline must_advance r prev s) as [h|] eqn:E;
      [|constructor].
    apply find_sound in E as (_ & Hw & _). constructor; [exact Hw | apply IH].
Qed.

(** Every pattern of the evaluators compiles, so that no call of [re] takes
    the branch of a pattern in error. *)
Lemma patterns_compile :
  forallb (fun pattern =>
             match ReParse.compile pattern with Some _ => true | None => false end)
    Spec.patterns = true.
Proof. vm_compute. reflexivity. Qed.

(** ** Claim C1: every score lies in the unit interval *)

(** C1.  For every query, answer, context and expected answer, the score each
    of the four scorers returns lies between 0 and 1: every sub-score is
    clamped or a ratio of a part to its whole, and the weights of each
    scorer add up to 1. *)
Theorem C1_scores_in_unit_interval
    (self : BaseEvaluator) (query answer : string)
    (context expected_answer : option string) :
  (0 <= fst (Relevance.evaluate self query answer context expected_answer) <= 1)%Q
  /\ (0 <= fst (Accuracy.evaluate self query answer context expected_answer) <= 1)%Q
  /\ (0 <= fst (Coherence.evaluate self query answer context expected_answer) <= 1)%Q
  /\ (0 <= fst (Completeness.evaluate self query answer context expected_answer) <= 1)%Q.
Proof.
  split; [exact (relevance_in_unit self query answer context expected_answer)|].
  split; [exact (accuracy_in_unit self query answer context expected_answer)|].
  split; [exact (coherence_in_unit self query answer context expected_answer)|].
  exact (completeness_in_unit self query answer context expected_answer).
Qed.

(** ** Claim C2: the text similarity is the Jaccard index of the word sets *)

Lemma lower_char_idem (c : ascii) :
  PyStr.lower_char (PyStr.lower_char c) = PyStr.lower_char c.
Proof. destruct c as [[] [] [] [] [] [] [] []]; reflexivity. Qed.

Lemma lower_idem (s : string) : PyStr.lower (PyStr.lower s) = PyStr.lower s.
Proof.
  induction s as [|c s IH]; simpl; [reflexivity|].
  by rewrite lower_char_idem, IH.
Qed.

Lemma word_set_lower (text : string) :
  Base.word_set (PyStr.lower text) = Base.word_set text.
Proof. unfold Base.word_set. by rewrite lower_idem. Qed.

Lemma Qnat_ratio_self (n : nat) : (0 < n)%nat -> (Qnat n / Qnat n == 1)%Q.
Proof.
  intros H. apply Qmult_inv_r. pose proof (Qnat_pos n H). lra.
Qed.

Lemma text_similarity_jaccard (text1 text2 : string) :
  (Base._calculate_text_similarity text1 text2
   == Spec.jaccard (Base.word_set text1) (Base.word_set text2))%Q.
Proof.
  unfold Base._calculate_text_similarity, Spec.jaccard.
  set (w1 := Base.word_set text1). set (w2 := Base.word_set text2).
  destruct (Base.set_empty w1) eqn:E1, (Base.set_empty w2) eqn:E2; simpl.
  - apply set_empty_true in E1, E2. rewrite E1, E2, (left_id_L ∅ (∪)).
    reflexivity.
  - apply set_empty_true in E1. rewrite E1, (left_id_L ∅ (∪)), E2.
    rewrite (left_absorb_L ∅ (∩)), size_empty. reflexivity.
  - apply set_empty_true in E2. rewrite E2, (right_id_L ∅ (∪)), E1.
    rewrite (right_absorb_L ∅ (∩)), size_empty. reflexivity.
  - destruct (Base.set_empty (w1 ∪ w2)) eqn:EU; [|reflexivity].
    apply set_empty_true in EU. apply empty_union_L in EU as [EU _].
    apply set_empty_true in EU. congruence.
Qed.

(** C2.  The text similarity of a string with itself is 1, also for the empty
    string; it is 0 whenever exactly one of the two texts has no word, as for
    "a b" against the empty string; and in general it is the Jaccard index,
    between 0 and 1, of the two sets of lower-cased words, so that the case
    of the letters does not matter. *)
Theorem C2_text_similarity :
  (forall x : string, (Base._calculate_text_similarity x x == 1)%Q)
  /\ (Base._calculate_text_similarity "" "" == 1)%Q
  /\ (Base._calculate_text_similarity "a b" "" == 0)%Q
  /\ (forall a b : string,
        (Base.word_set a = ∅ /\ Base.word_set b <> ∅)
        \/ (Base.word_set a <> ∅ /\ Base.word_set b = ∅) ->
        (Base._calculate_text_similarity a b == 0)%Q)
  /\ (forall a b : string,
        (Base._calculate_text_similarity a b
         == Spec.jaccard (Base.word_set a) (Base.word_set b))%Q
        /\ (0 <= Base._calculate_text_similarity a b <= 1)%Q)
  /\ (forall a b : string,
        Base._calculate_text_similarity (PyStr.lower a) (PyStr.lower b)
        = Base._calculate_text_similarity a b).
Proof.
  assert (Hself : forall x : string, (Base._calculate_text_similarity x x == 1)%Q).
  { intros x. unfold Base._calculate_text_similarity.
    set (w := Base.word_set x).
    destruct (Base.set_empty w) eqn:E; simpl; [reflexivity|].
    rewrite (idemp_L (∪) w), (idemp_L (∩) w), E. simpl.
    by apply Qnat_ratio_self, set_empty_false. }
  split; [exact Hself|]. split; [apply Hself|].
  split; [vm_compute; reflexivity|].
  split; [|split].
  - intros a b H. unfold Base._calculate_text_similarity.
    destruct H as [[Ha Hb]|[Ha Hb]].
    + apply set_empty_true in Ha. rewrite Ha.
      destruct (Base.set_empty (Base.word_set b)) eqn:E; simpl; [|reflexivity].
      by apply set_empty_true in E.
    + apply set_empty_true in Hb. rewrite Hb.
      destruct (Base.set_empty (Base.word_set a)) eqn:E; simpl; [|reflexivity].
      by apply set_empty_true in E.
  - intros a b. split;
      [apply text_similarity_jaccard | apply text_similarity_in_unit].
  - intros a b. unfold Base._calculate_text_similarity.
    by rewrite !word_set_lower.
Qed.

(** ** Claim C6: a single sentence of five words *)

(** C6, as stated, fails: a single sentence of exactly five words has the
    structure sub-score 0.4, not 0.7. *)
Lemma C6_five_words_counterexample :
  length (Coherence._split_into_sentences "The cat sat down quietly.") = 1%nat
  /\ length (PyStr.split "The cat sat down quietly.") = 5%nat
  /\ ~ (Coherence._evaluate_structure "The cat sat down quietly." == 0.7)%Q.
Proof.
  split; [vm_compute; reflexivity|]. split; [vm_compute; reflexivity|].
  intros H. vm_compute in H. discriminate H.
Qed.

(** C6, amended.  For an answer that is a single sentence, the structure
    sub-score is 0.4 when the answer has exactly five words and 0.7 when it
    has more than five, and the flow sub-score is 0.8. *)
Theorem C6_single_sentence (answer : string) :
  length (Coherence._split_into_sentences answer) = 1%nat ->
  (length (PyStr.split answer) = 5%nat ->
   Coherence._evaluate_structure answer = 0.4%Q)
  /\ ((5 < length (PyStr.split answer))%nat ->
      Coherence._evaluate_structure answer = 0.7%Q)
  /\ Coherence._evaluate_logical_flow answer = 0.8%Q.
Proof.
  intros H1.
  unfold Coherence._evaluate_structure, Coherence._evaluate_logical_flow.
  rewrite H1. simpl. split; [|split; [|reflexivity]].
  - intros ->. reflexivity.
  - intros H. apply Nat.ltb_lt in H. by rewrite H.
Qed.

(** C6, amended, at the five-word sentence of the counterexample. *)
Lemma C6_single_sentence_witness :
  Coherence._evaluate_structure "The cat sat down quietly." = 0.4%Q
  /\ Coherence._evaluate_logical_flow "The cat sat down quietly." = 0.8%Q.
Proof.
  assert (H1 : length (Coherence._split_into_sentences "The cat sat down quietly.")
               = 1%nat) by (vm_compute; reflexivity).
  destruct (C6_single_sentence "The cat sat down quietly." H1) as (H5 & _ & Hflow).
  split; [apply H5; vm_compute; reflexivity | exact Hflow].
Defined.

(** ** Claim C7: the specificity of a text *)

(** Every character of the string satisfies the test. *)
Lemma lower_char_not_upper (c : ascii) :
  Re.set_ok false [Re.CRange "A" "Z"] (PyStr.lower_char c) = false.
Proof. destruct c as [[] [] [] [] [] [] [] []]; reflexivity. Qed.

Lemma find_first_char_fails (multiline : bool)
    (items : list Re.citem) (tail : Re.regex) :
  (forall c, Re.set_ok false items (PyStr.lower_char c) = false) ->
  forall (text : string) (prev : option ascii) (must_advance : bool),
    Re.find multiline must_advance
      (Re.Seq Re.WordB (Re.Seq (Re.CSet false items) tail)) prev (PyStr.lower text)
    = None.
Proof.
  intros Hitems text.
  induction text as [|c t IH]; intros prev must_advance.
  - simpl. unfold Re.match_here. simpl. by destruct (Re.at_boundary prev "").
  - simpl. unfold Re.match_here. simpl.
    pose proof (Hitems c) as Hc. unfold Re.set_ok in Hc. simpl in Hc.
    rewrite Hc, IH. by destruct (Re.at_boundary _ _).
Qed.

(** C7 (the code departs from it).  The pattern of the Capitalized-word
    bigrams is searched in the lower-cased text, where it never matches: a
    text with such a bigram and no other indicator keeps the base
    specificity 0.5, although the pattern does match the text itself. *)
Theorem C7_capitalized_bigram_never_counts :
  (forall text : string,
     re.search "\b[A-Z][a-z]+\s+[A-Z][a-z]+\b" (PyStr.lower text) = false)
  /\ re.search "\b[A-Z][a-z]+\s+[A-Z][a-z]+\b" "Albert Einstein" = true
  /\ (Accuracy._measure_specificity "Albert Einstein" == 0.5)%Q.
Proof.
  split; [|split; vm_compute; reflexivity].
  intros text. unfold re.search, re.with_pattern.
  match goal with
  | |- context [ReParse.compile ?p] =>
      let r := eval vm_compute in (ReParse.compile p) in
      change (ReParse.compile p) with r
  end.
  unfold Re.search_re.
  rewrite find_first_char_fails; [reflexivity | apply lower_char_not_upper].
Qed.

(** ** Claim C10: an empty expected answer *)

(** C10, as stated, fails: with the flag put aside, the details for an empty
    expected answer still differ from those for an absent one, in the
    analysis string. *)
Lemma C10_analysis_differs_counterexample :
  Spec.flagged false
    (snd (Accuracy.evaluate Accuracy.init "Is it so?" "It is so." None (Some "")))
  <> snd (Accuracy.evaluate Accuracy.init "Is it so?" "It is so." None None).
Proof.
  intros H. apply (f_equal Accuracy.analysis) in H.
  vm_compute in H. discriminate H.
Qed.

(** C10, amended.  An empty expected answer takes the branch of an absent
    one: the accuracy scorer uses the neutral similarity 0.5, the internal
    consistency and the hedging-based precision, and returns the same score;
    its details differ only in the two entries computed from
    [expected_answer is not None], the flag [has_expected_answer] and the
    suffix of the analysis string.  The completeness scorer uses the neutral
    expected coverage 0.7 and returns the same score and the same details. *)
Theorem C10_empty_expected_answer
    (self : BaseEvaluator) (query answer : string) (context : option string) :
  let with_empty := Accuracy.evaluate self query answer context (Some "") in
  let with_none := Accuracy.evaluate self query answer context None in
  Accuracy.compared_scores answer (Some "")
  = (0.5%Q, Accuracy._check_internal_consistency answer,
     Accuracy._evaluate_answer_precision answer)
  /\ fst with_empty = fst with_none
  /\ snd with_empty = Spec.marked true answer (fst with_none) (snd with_none)
  /\ snd with_none = Spec.marked false answer (fst with_none) (snd with_none)
  /\ Accuracy.has_expected_answer (snd with_empty) = true
  /\ Accuracy.has_expected_answer (snd with_none) = false
  /\ Completeness.evaluate self query answer context (Some "")
     = Completeness.evaluate self query answer context None
  /\ Completeness.expected_coverage_score
       (snd (Completeness.evaluate self query answer context (Some "")))
     = round3 0.7.
Proof.
  cbv zeta. unfold Accuracy.evaluate.
  change (Accuracy.compared_scores answer (Some ""))
    with (Accuracy.compared_scores answer None).
  unfold Accuracy.compared_scores at 1. unfold Base.if_truthy at 1.
  destruct (Accuracy.compared_scores answer None) as [[s f] p].
  repeat split.
Qed.

(** ** Claim C9: the scorers are functions of their inputs *)

Lemma filter_length_permutation {A : Type} (f : A -> bool) (l1 l2 : list A) :
  l1 ≡ₚ l2 -> length (List.filter f l1) = length (List.filter f l2).
Proof.
  induction 1 as [|x l1 l2 _ IH|x y l|l1 l2 l3 _ IH1 _ IH2]; cbn [List.filter].
  - reflexivity.
  - destruct (f x); cbn [length]; congruence.
  - destruct (f x), (f y); reflexivity.
  - congruence.
Qed.

Lemma enumerates_agree (list_of list_of' : Base.set_order) (s : gset string) :
  Base.enumerates list_of -> Base.enumerates list_of' -> list_of s ≡ₚ list_of' s.
Proof. intros H H'. by rewrite (H s), (H' s). Qed.

(** The coverage counts the key topics found in the answer: their order
    does not matter. *)
Lemma aspect_coverage_order (query answer : string)
    (a a' : Completeness.query_aspects_t) :
  Spec.query_aspects_agree a a' ->
  Completeness._evaluate_aspect_coverage query answer a
  = Completeness._evaluate_aspect_coverage query answer a'.
Proof.
  intros (Ht & _ & Hm & _ & _ & _ & Hk).
  unfold Completeness._evaluate_aspect_coverage. cbv zeta.
  rewrite Ht, Hm.
  destruct (Completeness.key_topics a) as [|t l],
           (Completeness.key_topics a') as [|t' l'].
  - reflexivity.
  - by apply Permutation_nil_cons in Hk.
  - symmetry in Hk. by apply Permutation_nil_cons in Hk.
  - by rewrite (filter_length_permutation _ _ _ Hk), (Permutation_length Hk).
Qed.

Lemma query_aspects_order (list_of list_of' : Base.set_order) (query : string) :
  Base.enumerates list_of -> Base.enumerates list_of' ->
  Spec.query_aspects_agree
    (Completeness._analyze_query_aspects_in list_of query)
    (Completeness._analyze_query_aspects_in list_of' query).
Proof.
  intros H H'. do 6 (split; [reflexivity|]).
  by apply enumerates_agree.
Qed.

Lemma relevance_order (list_of list_of' : Base.set_order)
    (self self' : BaseEvaluator) (query answer : string)
    (context expected_answer : option string) :
  Base.enumerates list_of -> Base.enumerates list_of' ->
  let r := Relevance.evaluate_in list_of self query answer context expected_answer in
  let r' := Relevance.evaluate_in list_of' self' query answer context expected_answer in
  fst r = fst r' /\ Spec.relevance_details_agree (snd r) (snd r').
Proof.
  intros H H'. cbv zeta. split; [reflexivity|].
  split; [by apply enumerates_agree|]. split; [by apply enumerates_agree|].
  by repeat split.
Qed.

Lemma completeness_order (list_of list_of' : Base.set_order)
    (self self' : BaseEvaluator) (query answer : string)
    (context expected_answer : option string) :
  Base.enumerates list_of -> Base.enumerates list_of' ->
  let c := Completeness.evaluate_in list_of self query answer context
             expected_answer in
  let c' := Completeness.evaluate_in list_of' self' query answer context
              expected_answer in
  fst c = fst c' /\ Spec.completeness_details_agree (snd c) (snd c').
Proof.
  intros H H'. cbv zeta.
  pose proof (query_aspects_order list_of list_of' query H H') as Ha.
  pose proof (aspect_coverage_order query answer _ _ Ha) as Hc.
  unfold Completeness.evaluate_in.
  cbn [fst snd Completeness.query_aspects Completeness.coverage_score
       Completeness.depth_score Completeness.comprehensive_score
       Completeness.expected_coverage_score Completeness.response_length
       Completeness.completeness_indicators Completeness.analysis].
  unfold Spec.completeness_details_agree.
  cbn [Completeness.query_aspects Completeness.coverage_score
       Completeness.depth_score Completeness.comprehensive_score
       Completeness.expected_coverage_score Completeness.response_length
       Completeness.completeness_indicators Completeness.analysis].
  rewrite Hc. split; [reflexivity|]. split; [exact Ha|].
  do 6 (split; [reflexivity|]).
  unfold Completeness._generate_completeness_analysis.
  destruct Ha as (_ & -> & _). reflexivity.
Qed.

(** C9, amended.  For identical query, answer, context and expected answer
    every scorer returns the same score, whatever the attributes of the
    evaluator object (the only state that outlives a call), whatever the
    clock reads, and whatever the order in which the sets of the
    interpreter process iterate.  The details are identical as well within
    one process; between two processes they agree in every entry but for
    the order of the lists made from sets: the query terms and the answer
    terms of the relevance details and the key topics of the completeness
    details hold the same members, in the order of the process.  The
    accuracy and the coherence evaluator list no set.  The scores and the
    details of a response are the same whatever the clock of the request
    reads. *)
Theorem C9_evaluate_deterministic
    (list_of list_of' : Base.set_order) (self self' : BaseEvaluator)
    (query answer : string) (context expected_answer : option string) :
  Base.enumerates list_of -> Base.enumerates list_of' ->
  (let r := Relevance.evaluate_in list_of self query answer context
              expected_answer in
   let r' := Relevance.evaluate_in list_of' self' query answer context
               expected_answer in
   fst r = fst r' /\ Spec.relevance_details_agree (snd r) (snd r'))
  /\ (let c := Completeness.evaluate_in list_of self query answer context
                 expected_answer in
      let c' := Completeness.evaluate_in list_of' self' query answer context
                  expected_answer in
      fst c = fst c' /\ Spec.completeness_details_agree (snd c) (snd c'))
  /\ Relevance.evaluate_in list_of self query answer context expected_answer
     = Relevance.evaluate_in list_of self' query answer context expected_answer
  /\ Completeness.evaluate_in list_of self query answer context expected_answer
     = Completeness.evaluate_in list_of self' query answer context expected_answer
  /\ Accuracy.evaluate self query answer context expected_answer
     = Accuracy.evaluate self' query answer context expected_answer
  /\ Coherence.evaluate self query answer context expected_answer
     = Coherence.evaluate self' query answer context expected_answer
  /\ (forall (now now' : Main.clock) (request : Main.EvaluationRequest),
        match Main.evaluate_llm_response now request,
              Main.evaluate_llm_response now' request with
        | Main.Returned r _, Main.Returned r' _ =>
            Main.overall_score r = Main.overall_score r'
            /\ Main.response_scores r = Main.response_scores r'
            /\ Main.evaluation_summary r = Main.evaluation_summary r'
        | Main.HTTPException code detail _, Main.HTTPException code' detail' _ =>
            code = code' /\ detail = detail'
        | _, _ => False
        end).
Proof.
  intros H H'.
  split; [exact (relevance_order list_of list_of' self self' query answer
                   context expected_answer H H')|].
  split; [exact (completeness_order list_of list_of' self self' query answer
                   context expected_answer H H')|].
  do 4 (split; [reflexivity|]).
  intros now now' request. unfold Main.evaluate_llm_response.
  destruct (Main.evaluation_criteria request); repeat split.
Qed.

Lemma enumerates_elements : Base.enumerates elements.
Proof. intros s. reflexivity. Qed.

Lemma enumerates_reverse : Base.enumerates (fun s => reverse (elements s)).
Proof. intros s. apply reverse_Permutation. Qed.

(** C9, for a process that iterates its sets in the order of [elements]
    and one that iterates them in the reverse order, and for two evaluator
    objects with different attributes. *)
Lemma C9_evaluate_deterministic_witness :
  Base.enumerates elements
  /\ Base.enumerates (fun s => reverse (elements s))
  /\ fst (Relevance.evaluate_in elements Relevance.init
            "Explain machine learning" "Machine learning is a method." None None)
     = fst (Relevance.evaluate_in (fun s => reverse (elements s)) Completeness.init
              "Explain machine learning" "Machine learning is a method." None None).
Proof.
  split; [exact enumerates_elements|]. split; [exact enumerates_reverse|].
  exact (proj1 (proj1 (C9_evaluate_deterministic
                         elements (fun s => reverse (elements s))
                         Relevance.init Completeness.init
                         "Explain machine learning" "Machine learning is a method."
                         None None enumerates_elements enumerates_reverse))).
Defined.

(** C9, as stated, fails for the details: the same query and answer,
    evaluated in two processes whose sets iterate in different orders,
    give the query terms in different orders, and so two different
    details. *)
Lemma C9_details_follow_set_order :
  Base.enumerates elements
  /\ Base.enumerates (fun s => reverse (elements s))
  /\ Relevance.query_terms
       (snd (Relevance.evaluate_in elements Relevance.init
               "Explain machine learning" "Machine learning is a method."
               None None))
     <> Relevance.query_terms
          (snd (Relevance.evaluate_in (fun s => reverse (elements s))
                  Relevance.init
                  "Explain machine learning" "Machine learning is a method."
                  None None))
  /\ snd (Relevance.evaluate_in elements Relevance.init
            "Explain machine learning" "Machine learning is a method." None None)
     <> snd (Relevance.evaluate_in (fun s => reverse (elements s)) Relevance.init
               "Explain machine learning" "Machine learning is a method."
               None None).
Proof.
  split; [exact enumerates_elements|]. split; [exact enumerates_reverse|].
  assert (Hterms :
    Relevance.query_terms
      (snd (Relevance.evaluate_in elements Relevance.init
              "Explain machine learning" "Machine learning is a method."
              None None))
    <> Relevance.query_terms
         (snd (Relevance.evaluate_in (fun s => reverse (elements s))
                 Relevance.init
                 "Explain machine learning" "Machine learning is a method."
                 None None))).
  { vm_compute. discriminate. }
  split; [exact Hterms|].
  intros Heq. apply Hterms. by rewrite Heq.
Qed.

(** ** Claim C4: the comparison of the first numbers *)

Lemma compile_number_pattern :
  ReParse.compile Accuracy.number_pattern = Some Spec.number_regex.
Proof. vm_compute. reflexivity. Qed.

Lemma isdecimal_is_nat (c : ascii) :
  PyStr.isdecimal c = true -> exists d, Ascii.is_nat c = Some d.
Proof.
  destruct c as [[] [] [] [] [] [] [] []]; cbv; intros H;
    first [discriminate H | eauto].
Qed.

Lemma digit_run_pair (s : string) :
  Accuracy.digit_run s = (fst (Accuracy.digit_run s), snd (Accuracy.digit_run s)).
Proof. by destruct (Accuracy.digit_run s). Qed.

Lemma digit_run_cons (c : ascii) (s : string) :
  Accuracy.digit_run (String c s)
  = match Ascii.is_nat c with
    | Some d => let '(ds, rest) := Accuracy.digit_run s in (d :: ds, rest)
    | None => ([], String c s)
    end.
Proof. reflexivity. Qed.

(** A run of [n] digits is read as [n] digits, whatever follows it. *)
Lemma digit_run_power (n : nat) :
  forall w rest,
    Spec.power (Spec.lang Spec.digit) n w ->
    exists ds,
      length ds = n
      /\ Accuracy.digit_run (w +:+ rest)
         = ((ds ++ fst (Accuracy.digit_run rest))%list,
            snd (Accuracy.digit_run rest)).
Proof.
  induction n as [|n IH]; intros w rest H; simpl in H.
  - subst w. exists []. split; [reflexivity|]. apply digit_run_pair.
  - destruct H as (w1 & w2 & -> & (c & -> & Hc) & Hw2).
    unfold Re.set_ok in Hc. simpl in Hc. rewrite orb_false_r in Hc.
    apply isdecimal_is_nat in Hc as [d Hd].
    destruct (IH w2 rest Hw2) as (ds & Hlen & Hrun).
    exists (d :: ds). split; [simpl; by rewrite Hlen|].
    by rewrite !append_cons, !append_nil, digit_run_cons, Hd, Hrun.
Qed.

Lemma code_inj (a b : ascii) : (PyStr.code a =? PyStr.code b)%N = true -> a = b.
Proof.
  intros H. apply N.eqb_eq in H. unfold PyStr.code in H.
  by rewrite <- (ascii_N_embedding a), <- (ascii_N_embedding b), H.
Qed.

(** Every string the number pattern can match is read by [float]. *)
Lemma number_token_parses (w : string) :
  Spec.lang Spec.number_regex w -> exists q, Accuracy.py_float w = Some q.
Proof.
  intros H. simpl in H.
  destruct H as (? & ? & -> & -> & w1 & ? & -> & (n & Hn & _ & Hw1)
                 & w2 & ? & -> & (m & _ & Hm & Hw2) & ? & ? & -> & -> & ->).
  rewrite !append_nil, !append_nil_r.
  unfold Accuracy.py_float.
  destruct m as [|[|m]]; simpl in Hm; [| |lia].
  - simpl in Hw2. subst w2.
    destruct (digit_run_power n w1 EmptyString Hw1) as (ds & Hlen & ->).
    simpl. rewrite app_nil_r. destruct ds; [simpl in Hlen; lia | eauto].
  - simpl in Hw2.
    destruct Hw2 as (? & ? & -> & (? & ? & -> & (c & -> & Hc)
                     & w3 & ? & -> & (n' & Hn' & _ & Hw3) & ->) & ->).
    unfold Re.set_ok in Hc. simpl in Hc. rewrite orb_false_r in Hc.
    apply (code_inj c "."%char) in Hc as ->.
    rewrite !append_nil_r, append_cons, append_nil.
    destruct (digit_run_power n w1 (String "." w3) Hw1) as (ds & Hlen & ->).
    rewrite digit_run_cons. change (Ascii.is_nat ".") with (@None nat).
    cbn [fst snd]. rewrite app_nil_r.
    rewrite <- (append_nil_r w3).
    destruct (digit_run_power n' w3 EmptyString Hw3) as (ds' & Hlen' & ->).
    simpl. destruct ds; [simpl in Hlen; lia | simpl; eauto].
Qed.

(** The first numeric token of a text is always read as a number. *)
Lemma first_number_parses (text : string) :
  Spec.first_number text <> Spec.Unparsable.
Proof.
  unfold Spec.first_number, re.findall, re.with_pattern.
  rewrite compile_number_pattern.
  pose proof (findall_lang false Spec.number_regex text) as H.
  destruct (Re.findall_re false Spec.number_regex text) as [|token l];
    [discriminate|].
  apply Forall_cons in H as [H _].
  apply number_token_parses in H as [q ->]. discriminate.
Qed.

(** What [float] reads is never a nan. *)
Lemma py_float_not_nan (token : string) :
  Accuracy.py_float token <> Some Binary64.NaN.
Proof.
  unfold Accuracy.py_float.
  destruct (Accuracy.digit_run token) as [int_digits rest].
  destruct rest as [|c rest]; [destruct int_digits|].
  - discriminate.
  - intros [= H]. by apply round64_not_nan in H.
  - destruct (Ascii.eqb_spec c ".") as [->|Hc].
    + destruct (Accuracy.digit_run rest) as [frac_digits rest'].
      destruct rest', (int_digits ++ frac_digits)%list; try discriminate.
      intros [= H]. by apply round64_not_nan in H.
    + destruct c as [[] [] [] [] [] [] [] []]; try discriminate.
      by contradict Hc.
Qed.

Lemma first_number_not_nan (text : string) :
  Spec.first_number text <> Spec.Number Binary64.NaN.
Proof.
  unfold Spec.first_number.
  destruct (re.findall _ text) as [|token ?]; [discriminate|].
  pose proof (py_float_not_nan token) as H.
  destruct (Accuracy.py_float token) as [x|]; [|discriminate].
  intros [= ->]. by apply H.
Qed.

Lemma eqb_refl (x : Binary64.binary64) :
  x <> Binary64.NaN -> Binary64.eqb x x = true.
Proof.
  destruct x as [q|s|]; simpl; intros H.
  - apply Qeq_bool_iff. reflexivity.
  - by destruct s.
  - by contradict H.
Qed.

(** The arithmetic of [Binary64] against that of the processor, on the
    numbers of the examples below. *)
Lemma binary64_samples :
  Binary64.of_prim (1 / 10)%float = Binary64.round64 (1 / 10)
  /\ Binary64.of_prim (3 / 10)%float = Binary64.round64 (3 / 10)
  /\ Binary64.of_prim (1 / 10 - 3 / 10)%float
     = Binary64.sub (Binary64.round64 (1 / 10)) (Binary64.round64 (3 / 10))
  /\ Some (Binary64.of_prim (PrimFloat.abs (1 / 10 - 3 / 10) / 1)%float)
     = Spec.relative_error (Binary64.round64 (1 / 10)) (Binary64.round64 (3 / 10))
  /\ Binary64.of_prim (1 - PrimFloat.abs (1 / 10 - 3 / 10) / 1)%float
     = Binary64.round64 (8 / 10)
  /\ Some (Binary64.of_prim (PrimFloat.abs (50 - 100) / 100)%float)
     = Spec.relative_error (Binary64.Finite 50) (Binary64.Finite 100)
  /\ Binary64.of_prim (9007199254740992 + 1)%float
     = Binary64.round64 9007199254740993
  /\ Binary64.of_prim (1 / 0)%float = Binary64.Infinity false
  /\ Binary64.of_prim (0x1p1023 + 0x1p1023)%float
     = Binary64.round64 (2 ^ 1024).
Proof. repeat split; vm_compute; reflexivity. Qed.

(** C4.  The numeric sub-score depends only on the first numeric token of
    each text, read as [float] reads it: it is 0.8 when neither text has
    one, 0.3 when exactly one has, 1 when the two first numbers are equal
    and otherwise max(0, 1 - |a - e| / max(|e|, 1)), computed on floats and
    always a finite number between 0 and 1.  A token that does not parse and
    a division by zero would give the neutral 0.5 and no fault; neither
    happens: every token of the pattern parses and the divisor is at least
    1.  For the answer with 50 and the expected answer with 100 the relative
    error is 0.5 and the sub-score 0.5; with 50 expected the sub-score is 1;
    numbers after the first are ignored.  Two numbers are equal when [float]
    reads them as the same binary64 number: 9007199254740993 and
    9007199254740992 are, and so are 10^309 and 2 * 10^309, both read as the
    infinity; 0.1 against 0.3 gives the binary64 number nearest to 0.8. *)
Theorem C4_numeric_subscore :
  (forall answer expected_answer : string,
     (Accuracy._compare_numerical_values answer expected_answer
      == Spec.numeric_subscore (Spec.first_number answer)
           (Spec.first_number expected_answer))%Q)
  /\ (forall x : Binary64.binary64,
        Spec.numeric_subscore Spec.Unparsable (Spec.Number x) = 0.5%Q
        /\ Spec.numeric_subscore (Spec.Number x) Spec.Unparsable = 0.5%Q
        /\ Spec.numeric_subscore Spec.Unparsable Spec.Unparsable = 0.5%Q)
  /\ (forall text : string,
        Spec.first_number text <> Spec.Unparsable
        /\ Spec.first_number text <> Spec.Number Binary64.NaN)
  /\ (forall x y : Binary64.binary64, Spec.relative_error x y <> None)
  /\ (forall x y error : Binary64.binary64,
        Spec.relative_error x y = Some error ->
        exists q,
          Binary64.max (Binary64.Finite 0)
            (Binary64.sub (Binary64.Finite 1) error) = Binary64.Finite q
          /\ (0 <= q <= 1)%Q)
  /\ Spec.first_number "The result is 50." = Spec.Number (Binary64.Finite 50)
  /\ Spec.first_number "The result is 100." = Spec.Number (Binary64.Finite 100)
  /\ Spec.relative_error (Binary64.Finite 50) (Binary64.Finite 100)
     = Some (Binary64.Finite (1 # 2))
  /\ (Accuracy._compare_numerical_values "The result is 50." "The result is 100."
      == 0.5)%Q
  /\ (Accuracy._compare_numerical_values "The result is 50." "The result is 50."
      == 1)%Q
  /\ (Accuracy._compare_numerical_values "It is 50, not 100." "The result is 50."
      == 1)%Q
  /\ Accuracy._compare_numerical_values "No number." "None either." = 0.8%Q
  /\ Accuracy._compare_numerical_values "It is 50." "No number." = 0.3%Q
  /\ Accuracy._compare_numerical_values "No number." "It is 50." = 0.3%Q
  /\ (Accuracy._compare_numerical_values "9007199254740993" "9007199254740992"
      == 1)%Q
  /\ (Accuracy._compare_numerical_values
        "1000000000000000000000000000000000000000000000000000000000000000000000000000000000000000000000000000000000000000000000000000000000000000000000000000000000000000000000000000000000000000000000000000000000000000000000000000000000000000000000000000000000000000000000000000000000000000000000000000000000000000000000"
        "2000000000000000000000000000000000000000000000000000000000000000000000000000000000000000000000000000000000000000000000000000000000000000000000000000000000000000000000000000000000000000000000000000000000000000000000000000000000000000000000000000000000000000000000000000000000000000000000000000000000000000000000"
      == 1)%Q
  /\ Binary64.Finite (Accuracy._compare_numerical_values "0.1" "0.3")
     = Binary64.round64 (8 / 10).
Proof.
  split; [exact numerical_values_spec|]. split; [by repeat split|].
  split; [intros text; split;
          [apply first_number_parses | apply first_number_not_nan]|].
  split; [intros x y; apply div_defined|].
  split.
  { intros x y error H. apply score_of_error.
    exact (relative_error_not_below_zero x y error H). }
  repeat split; vm_compute; reflexivity.
Qed.

(** ** Claim C3: the aggregation over the requested dimensions *)

Lemma round3_comp (x y : Q) : (x == y)%Q -> round3 x = round3 y.
Proof.
  intros H. unfold round3. cbv zeta.
  assert (Hf : Qfloor (x * 1000) = Qfloor (y * 1000))
    by (apply Qfloor_comp; rewrite H; reflexivity).
  rewrite Hf.
  assert (Hd : (x * 1000 - inject_Z (Qfloor (y * 1000))
                == y * 1000 - inject_Z (Qfloor (y * 1000)))%Q)
    by (rewrite H; reflexivity).
  unfold Qltb.
  rewrite (Qleb_comp _ _ (Qeq_refl 0.5) _ _ Hd).
  rewrite (Qleb_comp _ _ Hd _ _ (Qeq_refl 0.5)).
  reflexivity.
Qed.

Section Dictionaries.
Context {V : Type}.
Implicit Types (d : list (string * V)) (k : string) (v : V).

Lemma lookup_dict_set k k' v d :
  Spec.lookup k' (Main.dict_set k v d)
  = if String.eqb k' k then Some v else Spec.lookup k' d.
Proof.
  induction d as [|[k0 v0] d IH]; simpl; [reflexivity|].
  destruct (String.eqb_spec k k0) as [->|Hk]; simpl.
  - by destruct (String.eqb k' k0).
  - rewrite IH. destruct (String.eqb_spec k' k0) as [->|Hk'];
      [|reflexivity].
    destruct (String.eqb_spec k0 k); congruence.
Qed.

Lemma keys_dict_set k v d :
  forall k', k' ∈ Main.keys (Main.dict_set k v d) <-> k' = k \/ k' ∈ Main.keys d.
Proof.
  induction d as [|[k0 v0] d IH]; intros k'; simpl.
  - rewrite list_elem_of_singleton, elem_of_nil. tauto.
  - destruct (String.eqb_spec k k0) as [->|Hk]; simpl;
      rewrite !elem_of_cons; [|rewrite IH]; tauto.
Qed.

Lemma NoDup_dict_set k v d :
  NoDup (Main.keys d) -> NoDup (Main.keys (Main.dict_set k v d)).
Proof.
  induction d as [|[k0 v0] d IH]; simpl; intros H.
  - apply NoDup_singleton.
  - apply NoDup_cons in H as [Hk0 Hd].
    destruct (String.eqb_spec k k0) as [->|Hk]; simpl.
    + by apply NoDup_cons.
    + apply NoDup_cons. split; [|by apply IH].
      rewrite keys_dict_set. intros [->|?]; congruence.
Qed.

Lemma lookup_all_none d : (forall k, Spec.lookup k d = None) -> d = [].
Proof.
  destruct d as [|[k0 v0] d]; [reflexivity|].
  intros H. specialize (H k0). simpl in H.
  by rewrite String.eqb_refl in H.
Qed.
End Dictionaries.

Lemma sum_left_right (l : list Q) (acc : Q) :
  (fold_left Qplus l acc == acc + fold_right Qplus 0 l)%Q.
Proof.
  revert acc. induction l as [|x l IH]; intros acc; simpl; [lra|].
  rewrite IH. lra.
Qed.

Lemma overall_is_mean (scores : list (string * Q)) :
  (Main.overall scores == Spec.mean (Main.values scores))%Q.
Proof.
  destruct scores as [|[k v] scores]; [reflexivity|].
  unfold Main.overall, Spec.mean, Main.values.
  rewrite sum_left_right, length_map. simpl. 
  apply Qmult_comp; [lra | reflexivity].
Qed.

Lemma run_criterion_invariant request seen st criterion :
  Spec.loop_invariant request seen st ->
  Spec.loop_invariant request (seen ++ [criterion])
    (Main.run_criterion request st criterion).
Proof.
  unfold Spec.loop_invariant.
  generalize (Main.log (Spec.initial_state request)).
  intros log0 (Hnodup & Hlookup & Hlog).
  assert (Hseen : forall k, k ∈ seen ++ [criterion] <-> k ∈ seen \/ k = criterion)
    by (intros k; by rewrite elem_of_app, list_elem_of_singleton).
  unfold Main.run_criterion.
  pose proof (eq_refl (Spec.score_of request criterion)) as Hscore.
  unfold Spec.score_of at 1 in Hscore.
  assert (Hunknown : Spec.unknown criterion
                     = match Main.evaluators !! criterion with
                       | Some _ => false | None => true end) by reflexivity.
  destruct (Main.evaluators !! criterion) as [ev|].
  - destruct (Main.evaluate ev _ _ _ _ _) as [score d]. simpl in Hscore.
    split; [|split]; simpl.
    + by apply NoDup_dict_set.
    + intros k. rewrite lookup_dict_set, Hlookup.
      destruct (String.eqb_spec k criterion) as [->|Hk].
      * rewrite decide_True; [done | apply Hseen; by right].
      * destruct (decide (k ∈ seen)) as [Hin|Hin].
        -- rewrite decide_True; [done | apply Hseen; by left].
        -- rewrite decide_False; [done | rewrite Hseen; tauto].
    + rewrite Hlog, List.filter_app. simpl. rewrite Hunknown. simpl.
      by rewrite app_nil_r.
  - split; [|split]; simpl.
    + exact Hnodup.
    + intros k. rewrite Hlookup.
      destruct (decide (k ∈ seen)) as [Hin|Hin].
      * rewrite decide_True; [done | apply Hseen; by left].
      * destruct (decide (k ∈ seen ++ [criterion])) as [Hin'|]; [|done].
        apply Hseen in Hin' as [?| ->]; [contradiction | done].
    + rewrite Hlog, List.filter_app, List.map_app. simpl. rewrite Hunknown.
      simpl. by rewrite <- app_assoc.
Qed.

Lemma run_criteria_invariant request criteria :
  forall seen st,
    Spec.loop_invariant request seen st ->
    Spec.loop_invariant request (seen ++ criteria)
      (Main.run_criteria request criteria st).
Proof.
  unfold Main.run_criteria.
  induction criteria as [|c criteria IH]; intros seen st H; simpl.
  - by rewrite app_nil_r.
  - replace (seen ++ c :: criteria) with ((seen ++ [c]) ++ criteria)
      by (by rewrite <- app_assoc).
    apply IH. by apply run_criterion_invariant.
Qed.

Lemma initial_state_invariant request :
  Spec.loop_invariant request [] (Spec.initial_state request).
Proof.
  split; [|split].
  - apply NoDup_nil_2.
  - intros k. destruct (decide (k ∈ [])) as [H|]; [|reflexivity].
    by apply elem_of_nil in H.
  - symmetry. apply app_nil_r.
Qed.

Lemma evaluators_known (k : string) :
  Spec.unknown k = false
  <-> k ∈ ["relevance"; "accuracy"; "coherence"; "completeness"].
Proof.
  unfold Spec.unknown, Main.evaluators.
  rewrite !elem_of_cons, elem_of_nil.
  destruct (decide (k = "relevance")) as [->|?];
    [rewrite lookup_insert_eq; tauto | rewrite lookup_insert_ne by done].
  destruct (decide (k = "accuracy")) as [->|?];
    [rewrite lookup_insert_eq; tauto | rewrite lookup_insert_ne by done].
  destruct (decide (k = "coherence")) as [->|?];
    [rewrite lookup_insert_eq; tauto | rewrite lookup_insert_ne by done].
  destruct (decide (k = "completeness")) as [->|?];
    [rewrite lookup_insert_eq; tauto | rewrite lookup_insert_ne by done].
  rewrite lookup_empty. split; [discriminate | tauto].
Qed.

Lemma lookup_relevance :
  Main.evaluators !! "relevance"
  = Some {| Main.self := Relevance.init;
            Main.evaluate :=
              Main.with_details Main.RelevanceDetails Relevance.evaluate |}.
Proof. unfold Main.evaluators. apply lookup_insert_eq. Qed.

Lemma lookup_bogus : Main.evaluators !! "bogus" = None.
Proof.
  pose proof (evaluators_known "bogus") as H. unfold Spec.unknown in H.
  destruct (Main.evaluators !! "bogus"); [|reflexivity].
  exfalso. assert (Hin : "bogus" ∈ ["relevance"; "accuracy"; "coherence"; "completeness"])
    by (by apply H).
  rewrite !elem_of_cons, elem_of_nil in Hin.
  destruct Hin as [?|[?|[?|[?|[]]]]]; discriminate.
Qed.

Lemma run_relevance_bogus (query answer : string) (context expected_answer : option string) :
  let request := Spec.request query answer context expected_answer ["relevance"; "bogus"] in
  let result := Relevance.evaluate Relevance.init query answer context expected_answer in
  Main.run_criteria request ["relevance"; "bogus"] (Spec.initial_state request)
  = {| Main.detailed_scores := [("relevance", fst result)];
       Main.evaluation_details := [("relevance", Main.RelevanceDetails (snd result))];
       Main.log := [Main.InfoEvaluating (PyStr.take 100 query);
                    Main.WarningUnknownCriterion "bogus"] |}.
Proof.
  intros request result. unfold Main.run_criteria.
  cbn [fold_left]. unfold Main.run_criterion.
  rewrite lookup_relevance, lookup_bogus.
  cbn [Main.evaluate Main.self]. unfold Main.with_details.
  change (Relevance.evaluate Relevance.init (Main.query request)
            (Main.answer request) (Main.context request)
            (Main.expected_answer request)) with result.
  destruct result as [score d]. reflexivity.
Qed.

(** C3.  For the criteria "relevance" and "bogus" the response holds the
    single key "relevance" and an overall score equal to its score; the
    unknown name is logged and nothing fails.  For every list of criteria the
    loop ends with one entry per recognized name that was requested, holding
    the score of its evaluator, and none for an unrecognized name, each of
    which only adds a warning; the overall score is the arithmetic mean of
    the entries, and 0.0 when no requested name is recognized. *)
Theorem C3_aggregation :
  (forall (now : Main.clock) (query answer : string)
          (context expected_answer : option string),
     let score :=
       fst (Relevance.evaluate Relevance.init query answer context expected_answer) in
     exists response logged,
       Main.evaluate_llm_response now
         (Spec.request query answer context expected_answer ["relevance"; "bogus"])
       = Main.Returned response logged
       /\ Main.response_scores response = [("relevance", round3 score)]
       /\ Main.overall_score response = round3 score
       /\ Main.criteria_evaluated (Main.evaluation_summary response) = ["relevance"]
       /\ Main.WarningUnknownCriterion "bogus" ∈ logged)
  /\ (forall (now : Main.clock) (query answer : string)
             (context expected_answer : option string) (criteria : list string),
        let request := Spec.request query answer context expected_answer criteria in
        let st := Main.run_criteria request criteria (Spec.initial_state request) in
        let scores := Main.detailed_scores st in
        (exists response logged,
           Main.evaluate_llm_response now request = Main.Returned response logged
           /\ Main.overall_score response = round3 (Main.overall scores)
           /\ Main.criteria_evaluated (Main.evaluation_summary response)
              = Main.keys scores)
        /\ NoDup (Main.keys scores)
        /\ (forall k, Spec.lookup k scores
                      = if decide (k ∈ criteria) then Spec.score_of request k else None)
        /\ (Main.overall scores == Spec.mean (Main.values scores))%Q
        /\ ((forall k, k ∈ criteria -> Spec.unknown k = true) ->
            scores = [] /\ Main.overall scores = 0.0%Q)
        /\ Main.log st
           = (Main.InfoEvaluating (PyStr.take 100 query)
              :: List.map Main.WarningUnknownCriterion
                   (List.filter Spec.unknown criteria)))
  /\ (forall k, Spec.unknown k = false
                <-> k ∈ ["relevance"; "accuracy"; "coherence"; "completeness"]).
Proof.
  split; [|split; [|exact evaluators_known]].
  - intros now query answer context expected_answer score.
    eexists. eexists. split; [reflexivity|].
    cbn [Main.response_scores Main.overall_score Main.evaluation_summary
         Main.criteria_evaluated].
    rewrite run_relevance_bogus. cbn [Main.detailed_scores Main.log].
    split; [reflexivity|]. split; [|split; [reflexivity|]].
    + apply round3_comp. unfold Main.overall, Main.values.
      cbn [List.map fold_left snd length]. change (Qnat 1) with 1%Q.
      unfold Qdiv. change (/ 1)%Q with 1%Q. fold score. lra.
    + rewrite elem_of_app, !elem_of_cons. left. right. by left.
  - intros now query answer context expected_answer criteria request st scores.
    pose proof (run_criteria_invariant request criteria [] _
                  (initial_state_invariant request)) as (Hnodup & Hlookup & Hlog).
    rewrite app_nil_l in Hlookup, Hlog. fold st in Hnodup, Hlookup, Hlog.
    split; [|split; [exact Hnodup | split; [exact Hlookup | split; [|split]]]].
    + eexists. eexists. split; [reflexivity|]. split; reflexivity.
    + apply overall_is_mean.
    + intros Hunknown.
      assert (scores = []) as ->; [|split; reflexivity].
      apply lookup_all_none. intros k. rewrite Hlookup.
      destruct (decide (k ∈ criteria)) as [Hin|]; [|reflexivity].
      apply Hunknown in Hin. unfold Spec.unknown in Hin. unfold Spec.score_of.
      by destruct (Main.evaluators !! k).
    + exact Hlog.
Qed.

(** ** Claim C5: the factual consistency against an expected answer *)

Lemma lstrip_idem (s : string) : PyStr.lstrip (PyStr.lstrip s) = PyStr.lstrip s.
Proof.
  induction s as [|c s IH]; simpl; [reflexivity|].
  destruct (PyStr.isspace c) eqn:E; [exact IH|]. simpl. by rewrite E.
Qed.

Lemma rstrip_idem (s : string) : PyStr.rstrip (PyStr.rstrip s) = PyStr.rstrip s.
Proof.
  induction s as [|c s IH]; simpl; [reflexivity|].
  destruct (PyStr.rstrip s) as [|d x] eqn:E.
  - destruct (PyStr.isspace c) eqn:Ec; simpl; [reflexivity|]. by rewrite Ec.
  - change (PyStr.rstrip (String c (String d x)))
      with (match PyStr.rstrip (String d x) with
            | EmptyString =>
                if PyStr.isspace c then EmptyString else String c EmptyString
            | r => String c r
            end).
    by rewrite IH.
Qed.

Lemma rstrip_lstrip (s : string) :
  PyStr.rstrip s = s -> PyStr.rstrip (PyStr.lstrip s) = PyStr.lstrip s.
Proof.
  induction s as [|c s IH]; intros H; [reflexivity|].
  simpl. destruct (PyStr.isspace c) eqn:Ec; [|exact H].
  apply IH. simpl in H. rewrite Ec in H.
  destruct (PyStr.rstrip s) as [|d x]; [discriminate|]. by injection H.
Qed.

Lemma strip_idem (s : string) : PyStr.strip (PyStr.strip s) = PyStr.strip s.
Proof.
  unfold PyStr.strip.
  rewrite (rstrip_lstrip (PyStr.rstrip s)) by apply rstrip_idem.
  apply lstrip_idem.
Qed.

Lemma map_strip_sentences (p : string -> bool) (text : string) :
  List.map PyStr.strip (List.filter p (Base._split_into_sentences text))
  = List.filter p (Base._split_into_sentences text).
Proof.
  unfold Base._split_into_sentences.
  induction (List.filter _ (re.split _ text)) as [|s l IH]; simpl; [reflexivity|].
  destruct (p (PyStr.strip s)); simpl; [|exact IH].
  by rewrite strip_idem, IH.
Qed.

Lemma key_facts_spec (text : string) :
  Accuracy._extract_key_facts text = Spec.key_facts text.
Proof. apply map_strip_sentences. Qed.

Lemma existsb_pointwise {X : Type} (f g : X -> bool) (l : list X) :
  (forall x, f x = g x) -> existsb f l = existsb g l.
Proof.
  intros H. induction l as [|x l IH]; simpl; [reflexivity|]. by rewrite H, IH.
Qed.

Lemma are_contradictory_spec (fact1 fact2 : string) :
  Accuracy._are_contradictory fact1 fact2 = Spec.flagged_by_antonyms fact1 fact2.
Proof.
  unfold Accuracy._are_contradictory, Spec.flagged_by_antonyms.
  apply existsb_pointwise. intros [word1 word2].
  f_equal. apply andb_comm.
Qed.

Lemma flagged_by_antonyms_sym (fact1 fact2 : string) :
  Spec.flagged_by_antonyms fact1 fact2 = Spec.flagged_by_antonyms fact2 fact1.
Proof.
  unfold Spec.flagged_by_antonyms.
  apply existsb_pointwise. intros [word1 word2]. apply orb_comm.
Qed.

Lemma count_pair_spec (fact expected_fact : string) (c m : nat) :
  Accuracy.count_pair fact (c, m) expected_fact
  = ((c + Spec.count Spec.is_contradiction [(fact, expected_fact)])%nat,
     (m + Spec.count Spec.is_match [(fact, expected_fact)])%nat).
Proof.
  unfold Accuracy.count_pair, Spec.count, Spec.is_match, Spec.is_contradiction.
  cbn [fst snd List.filter]. rewrite are_contradictory_spec.
  set (similarity := Base._calculate_text_similarity fact expected_fact).
  assert (Hle : Qleb similarity 0.7 = negb (Qltb 0.7 similarity))
    by (unfold Qltb, Qleb; by rewrite negb_involutive).
  rewrite Hle.
  destruct (Qltb 0.7 similarity), (Qltb 0.3 similarity),
    (Spec.flagged_by_antonyms fact expected_fact); simpl; f_equal; lia.
Qed.

Lemma count_app {X : Type} (p : X -> bool) (l1 l2 : list X) :
  Spec.count p (l1 ++ l2) = (Spec.count p l1 + Spec.count p l2)%nat.
Proof. unfold Spec.count. by rewrite List.filter_app, length_app. Qed.

Lemma count_inner (fact : string) (expected_facts : list string) :
  forall c m,
    fold_left (Accuracy.count_pair fact) expected_facts (c, m)
    = ((c + Spec.count Spec.is_contradiction
              (List.map (fun e => (fact, e)) expected_facts))%nat,
       (m + Spec.count Spec.is_match
              (List.map (fun e => (fact, e)) expected_facts))%nat).
Proof.
  induction expected_facts as [|e l IH]; intros c m; cbn [fold_left List.map].
  - unfold Spec.count. simpl. f_equal; lia.
  - rewrite count_pair_spec, IH.
    change (?x :: List.map ?f l) with ([x] ++ List.map f l).
    rewrite !count_app. f_equal; lia.
Qed.

Lemma count_facts_spec (answer_facts expected_facts : list string) :
  Accuracy.count_facts answer_facts expected_facts
  = (Spec.count Spec.is_contradiction (list_prod answer_facts expected_facts),
     Spec.count Spec.is_match (list_prod answer_facts expected_facts)).
Proof.
  unfold Accuracy.count_facts.
  assert (H : forall c m,
             fold_left
               (fun counters fact =>
                  fold_left (Accuracy.count_pair fact) expected_facts counters)
               answer_facts (c, m)
             = ((c + Spec.count Spec.is_contradiction
                       (list_prod answer_facts expected_facts))%nat,
                (m + Spec.count Spec.is_match
                       (list_prod answer_facts expected_facts))%nat)).
  { induction answer_facts as [|f l IH]; intros c m;
      cbn [fold_left list_prod].
    - unfold Spec.count. simpl. f_equal; lia.
    - rewrite count_inner, IH, !count_app. f_equal; lia. }
  apply H.
Qed.

Lemma factual_consistency_spec (answer expected_answer : string) :
  Accuracy._check_factual_consistency answer expected_answer
  = Spec.factual_consistency answer expected_answer.
Proof.
  unfold Accuracy._check_factual_consistency, Spec.factual_consistency.
  rewrite !key_facts_spec, count_facts_spec.
  destruct (Spec.key_facts expected_answer) as [|e l]; reflexivity.
Qed.

(** C5.  With an expected answer present the accuracy scorer takes its
    factual consistency from the key facts of the two texts, the sentences
    that contain is, are, was, were, has, have, contains or includes: it
    counts one match for each pair of an answer fact and an expected fact
    whose similarity exceeds 0.7, one contradiction for each pair whose
    similarity lies in (0.3, 0.7] and which the antonym table flags, in
    either direction, and returns matches minus contradictions divided by
    the number of expected facts, clamped to [0,1], or 0.5 when there is no
    expected fact. *)
Theorem C5_factual_consistency :
  (forall answer expected : string,
     PyStr.truthy expected = true ->
     Accuracy.compared_scores answer (Some expected)
     = (Base._calculate_text_similarity answer expected,
        Accuracy._check_factual_consistency answer expected,
        Accuracy._evaluate_precision answer expected))
  /\ (forall text : string, Accuracy._extract_key_facts text = Spec.key_facts text)
  /\ (forall fact1 fact2 : string,
        Accuracy._are_contradictory fact1 fact2
        = Spec.flagged_by_antonyms fact1 fact2
        /\ Accuracy._are_contradictory fact1 fact2
           = Accuracy._are_contradictory fact2 fact1)
  /\ (forall answer expected : string,
        Accuracy._check_factual_consistency answer expected
        = Spec.factual_consistency answer expected)
  /\ (forall answer expected : string,
        Spec.key_facts expected = [] ->
        Accuracy._check_factual_consistency answer expected = 0.5%Q)
  /\ (forall answer expected : string,
        (0 <= Accuracy._check_factual_consistency answer expected <= 1)%Q).
Proof.
  split; [|split; [exact key_facts_spec | split; [|split; [|split]]]].
  - intros answer expected H. unfold Accuracy.compared_scores, Base.if_truthy.
    by rewrite H.
  - intros fact1 fact2. split; [apply are_contradictory_spec|].
    rewrite !are_contradictory_spec. apply flagged_by_antonyms_sym.
  - exact factual_consistency_spec.
  - intros answer expected H. rewrite factual_consistency_spec.
    unfold Spec.factual_consistency. by rewrite H.
  - exact factual_consistency_in_unit.
Qed.

(** ** Claim C8: an added query keyword and the term overlap *)

Lemma lower_app (a b : string) :
  PyStr.lower (a +:+ b) = PyStr.lower a +:+ PyStr.lower b.
Proof.
  induction a as [|x a IH]; [reflexivity|].
  rewrite append_cons. simpl. by rewrite IH, append_cons.
Qed.

Lemma replace_chars_app (p : ascii -> bool) (repl a b : string) :
  Spec.replace_chars p repl (a +:+ b)
  = Spec.replace_chars p repl a +:+ Spec.replace_chars p repl b.
Proof.
  induction a as [|x a IH]; [reflexivity|].
  rewrite append_cons. simpl. rewrite IH.
  destruct (p x); [by rewrite append_assoc | by rewrite append_cons].
Qed.

(** The matches of a pattern that tests one character. *)
Lemma find_one_char (multiline neg : bool) (items : list Re.citem) (repl : string) :
  forall (s : string) (prev : option ascii),
    match Re.find multiline false (Re.Seq (Re.CSet neg items) Re.Empty) prev s with
    | None => Spec.replace_chars (Re.set_ok neg items) repl s = s
    | Some h =>
        Spec.replace_chars (Re.set_ok neg items) repl s
        = Re.skipped h +:+ repl
          +:+ Spec.replace_chars (Re.set_ok neg items) repl (Re.after h)
        /\ (PyStr.len (Re.after h) < PyStr.len s)%nat
        /\ Re.matched h <> EmptyString
    end.
Proof.
  induction s as [|c s IH]; intros prev; [reflexivity|].
  cbn [Re.find]. unfold Re.match_here. cbn [Re.run andb].
  cbn [Spec.replace_chars].
  destruct (Re.set_ok neg items c) eqn:E.
  - cbn [Re.skipped Re.after Re.matched]. split; [reflexivity|]. split.
    + unfold PyStr.len. simpl. lia.
    + unfold PyStr.len. cbn [String.length].
      replace (S (String.length s) - String.length s)%nat with 1%nat by lia.
      discriminate.
  - specialize (IH (Some c)).
    destruct (Re.find multiline false _ (Some c) s) as [h|].
    + destruct IH as (H1 & H2 & H3). cbn [Re.skipped Re.after Re.matched].
      split; [by rewrite H1|]. split; [|exact H3].
      unfold PyStr.len in *. simpl. lia.
    + by rewrite IH.
Qed.

Lemma sub_one_char (multiline neg : bool) (items : list Re.citem) (repl : string) :
  forall (fuel : nat) (s : string) (prev : option ascii),
    (PyStr.len s < fuel)%nat ->
    Re.scan fuel multiline false (Re.Seq (Re.CSet neg items) Re.Empty) prev s
      (fun h rest => Re.skipped h +:+ repl +:+ rest) (fun t => t)
    = Spec.replace_chars (Re.set_ok neg items) repl s.
Proof.
  induction fuel as [|fuel IH]; intros s prev Hfuel; [lia|].
  cbn [Re.scan].
  pose proof (find_one_char multiline neg items repl s prev) as H.
  destruct (Re.find multiline false _ prev s) as [h|]; [|by rewrite H].
  destruct H as (H1 & H2 & H3).
  destruct (Re.matched h) as [|m ms]; [congruence|].
  rewrite IH by lia. by rewrite H1.
Qed.

Lemma sub_punctuation (text : string) :
  re.sub "[^\w\s]" " " (PyStr.lower text) = Spec.normalized text.
Proof.
  unfold re.sub, re.with_pattern.
  change (ReParse.compile "[^\w\s]")
    with (Some (Re.Seq (Re.CSet true [Re.CWord; Re.CSpace]) Re.Empty)).
  unfold Re.sub_re. apply sub_one_char. unfold Re.scan_fuel. lia.
Qed.

Lemma cons_word_app (w : string) (ws l : list string) :
  PyStr.cons_word w (ws ++ l) = PyStr.cons_word w ws ++ l.
Proof. by destruct w. Qed.

Lemma split_app_space (a b : string) (c : ascii) :
  PyStr.isspace c = true ->
  PyStr.split (a +:+ String c b) = PyStr.split a ++ PyStr.split b.
Proof.
  intros Hc. unfold PyStr.split.
  assert (H : PyStr.split_aux (a +:+ String c b)
              = (fst (PyStr.split_aux a),
                 snd (PyStr.split_aux a) ++ PyStr.split b)).
  { induction a as [|x a IH].
    - rewrite append_nil. simpl. rewrite Hc. unfold PyStr.split.
      by destruct (PyStr.split_aux b).
    - rewrite append_cons. simpl. rewrite IH.
      destruct (PyStr.split_aux a) as [w ws]. simpl.
      destruct (PyStr.isspace x); [by rewrite cons_word_app | reflexivity]. }
  rewrite H. destruct (PyStr.split_aux a) as [w ws]. simpl.
  apply cons_word_app.
Qed.

Lemma key_terms_normalized (text : string) :
  Relevance._extract_key_terms text
  = list_to_set (List.filter Relevance.is_key_term
                   (PyStr.split (Spec.normalized text))).
Proof. unfold Relevance._extract_key_terms. by rewrite sub_punctuation. Qed.

(** The key terms of a text followed by a space and more text. *)
Lemma key_terms_app (answer more : string) :
  Relevance._extract_key_terms (answer +:+ " " +:+ more)
  = Relevance._extract_key_terms answer ∪ Relevance._extract_key_terms more.
Proof.
  rewrite !key_terms_normalized. unfold Spec.normalized.
  rewrite lower_app, replace_chars_app.
  change (PyStr.lower (" " +:+ more)) with (String " " (PyStr.lower more)).
  change (Spec.replace_chars Spec.is_punctuation " " (String " " (PyStr.lower more)))
    with (String " " (Spec.replace_chars Spec.is_punctuation " " (PyStr.lower more))).
  rewrite split_app_space by reflexivity.
  by rewrite List.filter_app, list_to_set_app_L.
Qed.

Lemma term_overlap_mono (query_terms terms1 terms2 : gset string) :
  terms1 ⊆ terms2 ->
  (Relevance._calculate_term_overlap query_terms terms1
   <= Relevance._calculate_term_overlap query_terms terms2)%Q.
Proof.
  intros Hsub. unfold Relevance._calculate_term_overlap.
  destruct (Base.set_empty query_terms) eqn:E; [lra|].
  apply set_empty_false, Qnat_pos in E.
  apply Qmult_le_compat_r; [|apply Qlt_le_weak, Qinv_lt_0_compat, E].
  apply Qnat_le, subseteq_size.
  intros x Hx. apply elem_of_intersection in Hx as [Hq H1].
  apply elem_of_intersection. split; [exact Hq | by apply Hsub].
Qed.

Lemma normalized_chars (text : string) :
  Spec.string_all Spec.normal_char (Spec.normalized text) = true.
Proof.
  unfold Spec.normalized.
  induction text as [|x text IH]; [reflexivity|].
  simpl. destruct (Spec.is_punctuation (PyStr.lower_char x)) eqn:E.
  - rewrite append_cons, append_nil. simpl. exact IH.
  - simpl. rewrite IH. unfold Spec.normal_char.
    by rewrite lower_char_idem, Ascii.eqb_refl, E.
Qed.

(** The words [split] returns are not empty and hold no whitespace, and
    their characters are characters of the text. *)
Lemma split_aux_words (p : ascii -> bool) (text : string) :
  Spec.string_all p text = true ->
  let word_ok w :=
    Spec.string_all (fun c => negb (PyStr.isspace c) && p c) w = true in
  word_ok (fst (PyStr.split_aux text))
  /\ Forall (fun w => w <> EmptyString /\ word_ok w) (snd (PyStr.split_aux text)).
Proof.
  intros Hp word_ok.
  induction text as [|c text IH]; simpl; [by split|].
  simpl in Hp. apply andb_true_iff in Hp as [Hc Hp].
  destruct (IH Hp) as [Hw Hws].
  destruct (PyStr.split_aux text) as [w ws]. simpl in *.
  destruct (PyStr.isspace c) eqn:E; simpl.
  - split; [reflexivity|].
    destruct w; simpl; [exact Hws|]. by apply Forall_cons.
  - split; [|exact Hws]. unfold word_ok. simpl. by rewrite E, Hc.
Qed.

Lemma split_words (p : ascii -> bool) (text word : string) :
  Spec.string_all p text = true ->
  In word (PyStr.split text) ->
  word <> EmptyString
  /\ Spec.string_all (fun c => negb (PyStr.isspace c) && p c) word = true.
Proof.
  intros Hp Hin. pose proof (split_aux_words p text Hp) as [Hw Hws].
  unfold PyStr.split in Hin. destruct (PyStr.split_aux text) as [w ws].
  simpl in *.
  assert (Hall : Forall
            (fun w => w <> EmptyString
                      /\ Spec.string_all
                           (fun c => negb (PyStr.isspace c) && p c) w = true)
            (PyStr.cons_word w ws)).
  { destruct w; simpl; [exact Hws|]. by apply Forall_cons. }
  rewrite Forall_forall in Hall. apply Hall. by apply list_elem_of_In.
Qed.

Lemma term_chars_fixed (word : string) :
  Spec.string_all Spec.term_char word = true ->
  PyStr.lower word = word
  /\ Spec.replace_chars Spec.is_punctuation " " word = word
  /\ PyStr.split_aux word = (word, []).
Proof.
  induction word as [|c word IH]; simpl; [by repeat split|].
  intros H. apply andb_true_iff in H as [Hc H].
  destruct (IH H) as (H1 & H2 & H3).
  unfold Spec.term_char in Hc.
  apply andb_true_iff in Hc as [Hc Hpunct].
  apply andb_true_iff in Hc as [Hspace Hlower].
  apply Ascii.eqb_eq in Hlower.
  apply negb_true_iff in Hpunct, Hspace.
  by rewrite Hlower, Hpunct, Hspace, H1, H2, H3.
Qed.

(** A key term of a text is the only key term of itself. *)
Lemma key_terms_of_key_term (text keyword : string) :
  keyword ∈ Relevance._extract_key_terms text ->
  Relevance._extract_key_terms keyword = {[keyword]}.
Proof.
  rewrite key_terms_normalized, elem_of_list_to_set, list_elem_of_In, filter_In.
  intros [Hin Hkey].
  destruct (split_words Spec.normal_char _ _ (normalized_chars text) Hin)
    as [Hne Hall].
  assert (Hterm : Spec.string_all Spec.term_char keyword = true).
  { clear -Hall. induction keyword as [|c w IH]; [reflexivity|].
    simpl in *. apply andb_true_iff in Hall as [Hc Hw].
    rewrite (IH Hw), andb_true_r. unfold Spec.term_char, Spec.normal_char in *.
    by destruct (PyStr.isspace c), (Ascii.eqb (PyStr.lower_char c) c),
         (Spec.is_punctuation c). }
  destruct (term_chars_fixed keyword Hterm) as (H1 & H2 & H3).
  rewrite key_terms_normalized. unfold Spec.normalized, PyStr.split.
  rewrite H1, H2, H3.
  destruct keyword as [|c w]; [congruence|].
  simpl. rewrite Hkey. simpl. apply (right_id_L ∅ (∪)).
Qed.

(** C8.  When a key term of the query is appended to the answer as a further
    word, that is after a space, the key terms of the answer gain that term
    and lose none, so the term-overlap sub-score does not decrease. *)
Theorem C8_added_keyword_keeps_overlap (query answer keyword : string) :
  keyword ∈ Relevance._extract_key_terms query ->
  let query_terms := Relevance._extract_key_terms query in
  let extended := answer +:+ " " +:+ keyword in
  Relevance._extract_key_terms extended
  = Relevance._extract_key_terms answer ∪ {[keyword]}
  /\ (Relevance._calculate_term_overlap query_terms
        (Relevance._extract_key_terms answer)
      <= Relevance._calculate_term_overlap query_terms
           (Relevance._extract_key_terms extended))%Q.
Proof.
  intros Hkey query_terms extended.
  assert (Hext : Relevance._extract_key_terms extended
                 = Relevance._extract_key_terms answer ∪ {[keyword]}).
  { unfold extended.
    by rewrite key_terms_app, (key_terms_of_key_term query keyword Hkey). }
  split; [exact Hext|].
  apply term_overlap_mono. rewrite Hext. apply union_subseteq_l.
Qed.

(** C8 at the query about the capital of France, the answer "Paris" and
    the keyword "capital". *)
Lemma C8_added_keyword_witness :
  Relevance._extract_key_terms "Paris capital"
  = Relevance._extract_key_terms "Paris" ∪ {["capital"]}
  /\ (Relevance._calculate_term_overlap
        (Relevance._extract_key_terms "What is the capital of France?")
        (Relevance._extract_key_terms "Paris")
      <= Relevance._calculate_term_overlap
           (Relevance._extract_key_terms "What is the capital of France?")
           (Relevance._extract_key_terms "Paris capital"))%Q.
Proof.
  apply (C8_added_keyword_keeps_overlap
           "What is the capital of France?" "Paris" "capital").
  refine (bool_decide_unpack _ _). vm_compute. exact I.
Defined.

(** * Further properties of the code

    Properties of the functions the claims leave out, and of those they
    cite beyond what they state. *)

(** ** Finer ranges of the sub-scores *)

Lemma clamp01_ge (lo x : Q) : (lo <= x)%Q -> (lo <= 1)%Q -> (lo <= clamp01 x)%Q.
Proof.
  intros Hx Hlo. unfold clamp01.
  pose proof (Q.le_max_r 0.0 (Qmin 1.0 x)).
  assert (lo <= Qmin 1.0 x)%Q by (apply Q.min_glb; lra). lra.
Qed.

Lemma clamp01_le (hi x : Q) : (x <= hi)%Q -> (0 <= hi)%Q -> (clamp01 x <= hi)%Q.
Proof.
  intros Hx Hhi. unfold clamp01. apply Q.max_lub; [lra|].
  pose proof (Q.le_min_r 1.0 x). lra.
Qed.

Lemma Qnat_S (n : nat) : (Qnat (S n) == Qnat n + 1)%Q.
Proof.
  unfold Qnat. rewrite Nat2Z.inj_succ, <- Z.add_1_r, inject_Z_plus. reflexivity.
Qed.

Lemma Qnat_add (n m : nat) : (Qnat (n + m) == Qnat n + Qnat m)%Q.
Proof. unfold Qnat. rewrite Nat2Z.inj_add, inject_Z_plus. reflexivity. Qed.

Lemma score_matches_up (patterns : list string) (text : string) (delta : Q) :
  (0 <= delta)%Q ->
  forall score,
    (score <= Base.score_matches patterns text delta score
     <= score + Qnat (length patterns) * delta)%Q.
Proof.
  intros Hd. unfold Base.score_matches.
  induction patterns as [|p patterns IH]; intros score; cbn [fold_left length].
  - change (Qnat 0) with 0%Q. lra.
  - rewrite Qnat_S.
    destruct (re.search p text);
      [specialize (IH (score + delta)%Q) | specialize (IH score)]; nra.
Qed.

Lemma score_matches_down (patterns : list string) (text : string) (delta : Q) :
  (delta <= 0)%Q ->
  forall score,
    (score + Qnat (length patterns) * delta
     <= Base.score_matches patterns text delta score <= score)%Q.
Proof.
  intros Hd. unfold Base.score_matches.
  induction patterns as [|p patterns IH]; intros score; cbn [fold_left length].
  - change (Qnat 0) with 0%Q. lra.
  - rewrite Qnat_S.
    destruct (re.search p text);
      [specialize (IH (score + delta)%Q) | specialize (IH score)]; nra.
Qed.

Lemma bigram_never_matches (text : string) :
  re.search "\b[A-Z][a-z]+\s+[A-Z][a-z]+\b" (PyStr.lower text) = false.
Proof.
  unfold re.search, re.with_pattern.
  match goal with
  | |- context [ReParse.compile ?p] =>
      let r := eval vm_compute in (ReParse.compile p) in
      change (ReParse.compile p) with r
  end.
  unfold Re.search_re.
  rewrite find_first_char_fails; [reflexivity | apply lower_char_not_upper].
Qed.

Lemma specificity_range (text : string) :
  (0.35 <= Accuracy._measure_specificity text <= 0.8)%Q.
Proof.
  unfold Accuracy._measure_specificity. cbv zeta.
  assert (Hs : (0.5 <= Base.score_matches Accuracy.specific_indicators
                         (PyStr.lower text) 0.1 0.5
                <= 0.8)%Q).
  { unfold Accuracy.specific_indicators, Base.score_matches. cbn [fold_left].
    rewrite bigram_never_matches.
    repeat match goal with
           | |- context [re.search ?p ?t] => destruct (re.search p t)
           end; lra. }
  set (t := PyStr.lower text) in *.
  pose proof (score_matches_down Accuracy.vague_indicators t (-0.05)
                ltac:(lra)
                (Base.score_matches Accuracy.specific_indicators t 0.1 0.5)) as Hv.
  change (Qnat (length Accuracy.vague_indicators)) with 3%Q in Hv.
  split; [apply clamp01_ge | apply clamp01_le]; lra.
Qed.

Lemma uncertainty_range (answer : string) :
  (0.5 <= Accuracy._check_uncertainty_handling answer <= 1)%Q.
Proof.
  unfold Accuracy._check_uncertainty_handling. cbv zeta.
  set (t := PyStr.lower answer).
  pose proof (score_matches_up Accuracy.good_uncertainty t 0.1 ltac:(lra) 0.7) as Hg.
  pose proof (score_matches_down Accuracy.poor_uncertainty t (-0.1) ltac:(lra)
                (Base.score_matches Accuracy.good_uncertainty t 0.1 0.7)) as Hp.
  change (Qnat (length Accuracy.good_uncertainty)) with 3%Q in Hg.
  change (Qnat (length Accuracy.poor_uncertainty)) with 2%Q in Hp.
  split; [apply clamp01_ge | apply clamp01_le]; lra.
Qed.

Lemma internal_consistency_range (answer : string) :
  (0 <= Accuracy._check_internal_consistency answer <= 0.8)%Q.
Proof.
  unfold Accuracy._check_internal_consistency. cbv zeta.
  destruct (_ <? _)%nat; [lra|].
  unfold Accuracy.contradiction_patterns. cbn [fold_left].
  split; [apply clamp01_ge | apply clamp01_le]; try lra;
    repeat match goal with
           | |- context [re.search ?p ?t] => destruct (re.search p t)
           end; lra.
Qed.

Lemma hedging_range (answer : string) :
  (0 <= Accuracy._check_hedging_language answer <= 0.3)%Q.
Proof.
  unfold Accuracy._check_hedging_language. cbv zeta.
  set (h := Base.count_matches _ _). set (w := Nat.max _ 1).
  assert (0 <= Qnat h / Qnat w)%Q.
  { apply Qle_shift_div_l; [apply Qnat_pos; lia|].
    pose proof (Qnat_nonneg h). lra. }
  split; [apply Q.min_glb; lra | apply Q.le_min_l].
Qed.

Lemma answer_precision_range (answer : string) :
  (0.05 <= Accuracy._evaluate_answer_precision answer <= 0.8)%Q
  /\ (Accuracy._evaluate_answer_precision answer
      <= Accuracy._measure_specificity answer)%Q
  /\ (Accuracy._measure_specificity answer - 0.3
      <= Accuracy._evaluate_answer_precision answer)%Q.
Proof.
  unfold Accuracy._evaluate_answer_precision. cbv zeta.
  pose proof (specificity_range answer) as Hs.
  pose proof (hedging_range answer) as Hh.
  split; [split; [apply clamp01_ge | apply clamp01_le]; lra|].
  split; [apply clamp01_le | apply clamp01_ge]; lra.
Qed.

Lemma accuracy_heuristic_range (self : BaseEvaluator) (query answer : string)
    (context : option string) :
  (0.26 <= fst (Accuracy.evaluate self query answer context None) <= 0.75)%Q.
Proof.
  unfold Accuracy.evaluate, Accuracy.compared_scores, Base.if_truthy. cbn [fst].
  pose proof (internal_consistency_range answer).
  pose proof (answer_precision_range answer) as [? _].
  pose proof (uncertainty_range answer).
  lra.
Qed.

Lemma Qleb_false (x y : Q) : (y < x)%Q -> Qleb x y = false.
Proof.
  intros H. destruct (Qleb x y) eqn:E; [|reflexivity].
  apply Qleb_le in E. lra.
Qed.

Lemma accuracy_heuristic_analysis (self : BaseEvaluator) (query answer : string)
    (context expected_answer : option string) :
  Base.if_truthy expected_answer (fun _ => true) false = false ->
  (0.26 <= fst (Accuracy.evaluate self query answer context expected_answer)
   <= 0.75)%Q
  /\ PyStr.startswith
       (Accuracy.analysis
          (snd (Accuracy.evaluate self query answer context expected_answer)))
       "High accuracy" = false.
Proof.
  intros He.
  assert (Hsame : Accuracy.compared_scores answer expected_answer
                  = Accuracy.compared_scores answer None).
  { unfold Accuracy.compared_scores, Base.if_truthy in *.
    destruct expected_answer as [e|]; [|reflexivity].
    by destruct (PyStr.truthy e). }
  pose proof (accuracy_heuristic_range self query answer context) as Hr.
  unfold Accuracy.evaluate in *. rewrite Hsame.
  destruct (Accuracy.compared_scores answer None) as [[s f] p].
  cbn [fst snd Accuracy.analysis] in *. split; [exact Hr|].
  unfold Accuracy._generate_accuracy_analysis, Base.banded.
  rewrite Qleb_false by lra.
  destruct (Base.is_not_None expected_answer);
    repeat match goal with
           | |- context [Qleb ?x ?y] => destruct (Qleb x y)
           end; reflexivity.
Qed.

(** X1.  The sub-scores of the accuracy scorer have narrower ranges than the
    clamps suggest: the specificity lies between 0.35 and 0.8 (the fourth
    indicator never matches, so at most three add 0.1), the hedging penalty
    between 0 and 0.3, the precision used without an expected answer between
    the specificity minus 0.3 and the specificity, the internal consistency
    between 0 and 0.8, and the uncertainty handling between 0.5 and 1. *)
Theorem accuracy_subscore_ranges (answer : string) :
  (0.35 <= Accuracy._measure_specificity answer <= 0.8)%Q
  /\ (0 <= Accuracy._check_hedging_language answer <= 0.3)%Q
  /\ (Accuracy._measure_specificity answer - 0.3
      <= Accuracy._evaluate_answer_precision answer
      <= Accuracy._measure_specificity answer)%Q
  /\ (0 <= Accuracy._check_internal_consistency answer <= 0.8)%Q
  /\ (0.5 <= Accuracy._check_uncertainty_handling answer <= 1)%Q.
Proof.
  split; [exact (specificity_range answer)|].
  split; [exact (hedging_range answer)|].
  split; [destruct (answer_precision_range answer) as (_ & ? & ?); by split|].
  split; [exact (internal_consistency_range answer)|].
  exact (uncertainty_range answer).
Qed.

(** X2.  Without an expected answer, absent or empty, the accuracy score lies
    between 0.26 and 0.75: the analysis never reports the band of
    "High accuracy", which starts at 0.8. *)
Theorem accuracy_without_expected (self : BaseEvaluator) (query answer : string)
    (context : option string) :
  let absent := Accuracy.evaluate self query answer context None in
  let empty := Accuracy.evaluate self query answer context (Some "") in
  (0.26 <= fst absent <= 0.75)%Q
  /\ (0.26 <= fst empty <= 0.75)%Q
  /\ PyStr.startswith (Accuracy.analysis (snd absent)) "High accuracy" = false
  /\ PyStr.startswith (Accuracy.analysis (snd empty)) "High accuracy" = false.
Proof.
  cbv zeta.
  destruct (accuracy_heuristic_analysis self query answer context None eq_refl)
    as [H1 H2].
  destruct (accuracy_heuristic_analysis self query answer context (Some "") eq_refl)
    as [H3 H4].
  split; [exact H1|]. split; [exact H3|]. split; [exact H2 | exact H4].
Qed.

(** ** Coherence *)

(** The lemmas of this part are about the exact sums. *)
Lemma topic_continuity_range (sentences : list string) :
  (0 <= Coherence._check_topic_continuity sentences <= 0.2)%Q
  /\ (Coherence._check_topic_continuity sentences
      <= 0.02 * Qnat (length sentences - 1))%Q.
Proof.
  unfold Coherence._check_topic_continuity.
  destruct (length sentences <=? 1)%nat eqn:E.
  - pose proof (Qnat_nonneg (length sentences - 1)). split; [lra | nra].
  - apply Nat.leb_gt in E.
    assert (Hlen : length (zip sentences (tail sentences)) = (length sentences - 1)%nat).
    { rewrite length_zip. destruct sentences as [|x l]; [reflexivity|].
      change (tail (x :: l)) with l. cbn [length]. lia. }
    rewrite <- Hlen. generalize (zip sentences (tail sentences)) as l. intros l.
    match goal with
    | |- context [fold_left ?f l _] => set (bonus := f)
    end.
    assert (H : forall acc,
               (acc <= fold_left bonus l acc <= acc + 0.02 * Qnat (length l))%Q).
    { induction l as [|[a b] l IH]; intros acc; cbn [fold_left length].
      - change (Qnat 0) with 0%Q. lra.
      - rewrite Qnat_S. unfold bonus at 2 4. destruct (2 <=? _)%nat;
          [specialize (IH (acc + 0.02)%Q) | specialize (IH acc)]; lra. }
    specialize (H 0.0%Q).
    pose proof (Q.le_min_r 0.2 (fold_left bonus l 0.0%Q)).
    pose proof (Q.le_min_l 0.2 (fold_left bonus l 0.0%Q)).
    split; [split; [apply Q.min_glb; lra | lra] | lra].
Qed.

Lemma readability_range (answer : string) :
  (0.2 <= Coherence._evaluate_readability answer <= 0.9)%Q
  /\ (Coherence._split_into_sentences answer = [] ->
      (0.4 <= Coherence._evaluate_readability answer)%Q).
Proof.
  unfold Coherence._evaluate_readability. cbv zeta.
  destruct (Coherence._split_into_sentences answer) as [|s l].
  - split; [|intros _];
      (repeat match goal with
              | |- context [if ?b then _ else _] => destruct b
              end;
       try split; first [apply clamp01_ge | apply clamp01_le]; lra).
  - split; [|discriminate].
    repeat match goal with
           | |- context [if ?b then _ else _] => destruct b
           end;
      split; first [apply clamp01_ge | apply clamp01_le]; lra.
Qed.

Lemma tense_consistency_range (past present : nat) :
  (0 < past + present)%nat ->
  (0 <= 1 - Qabs (Qnat past - Qnat present) / Qnat (past + present) <= 1)%Q.
Proof.
  intros Hpos. pose proof (Qnat_pos _ Hpos) as Ht.
  pose proof (Qnat_nonneg past). pose proof (Qnat_nonneg present).
  pose proof (Qnat_add past present) as Hadd.
  assert (Habs : (0 <= Qabs (Qnat past - Qnat present)
                  <= Qnat (past + present))%Q).
  { split; [apply Qabs_nonneg|]. apply Qabs_Qle_condition. lra. }
  assert (0 <= Qabs (Qnat past - Qnat present) / Qnat (past + present) <= 1)%Q.
  { split; [apply Qle_shift_div_l | apply Qle_shift_div_r]; lra. }
  lra.
Qed.

Lemma consistency_range (answer : string) :
  (0.3 <= Coherence._evaluate_consistency answer <= 0.9)%Q.
Proof.
  unfold Coherence._evaluate_consistency. cbv zeta.
  set (past := length (re.findall "\b\w+ed\b|\bwas\b|\bwere\b|\bhad\b" _)).
  set (present := length (re.findall "\bis\b|\bare\b|\bhas\b|\bhave\b" _)).
  clearbody past present.
  match goal with
  | |- context [clamp01 (if _ then ?x - 0.1 else ?x)] => set (base := x)
  end.
  assert (Hbase : (0.4 <= base <= 0.9)%Q).
  { subst base. destruct (0 <? past + present)%nat eqn:E; [|lra].
    apply Nat.ltb_lt in E. pose proof (tense_consistency_range past present E).
    split; [apply Qle_shift_div_l | apply Qle_shift_div_r]; lra. }
  clearbody base.
  destruct (2 <? _)%nat; (split; [apply clamp01_ge | apply clamp01_le]; lra).
Qed.

Lemma logical_flow_range (answer : string) :
  (0.6 <= Coherence._evaluate_logical_flow answer <= 1)%Q.
Proof.
  unfold Coherence._evaluate_logical_flow. cbv zeta.
  destruct (_ <=? 1)%nat; [lra|].
  pose proof (topic_continuity_range (Coherence._split_into_sentences answer))
    as [Hc _].
  split; [|apply clamp01_in_unit].
  repeat match goal with
         | |- context [if ?b then _ else _] => destruct b
         end; apply clamp01_ge; lra.
Qed.

Lemma structure_many_range (answer : string) :
  (1 < length (Coherence._split_into_sentences answer))%nat ->
  (0.3 <= Coherence._evaluate_structure answer <= 1)%Q.
Proof.
  intros H. unfold Coherence._evaluate_structure. cbv zeta.
  destruct (_ =? 0)%nat eqn:E0; [apply Nat.eqb_eq in E0; lia|].
  destruct (_ =? 1)%nat eqn:E1; [apply Nat.eqb_eq in E1; lia|].
  pose proof (score_matches_up Coherence.structure_indicators
                (PyStr.lower answer) 0.1 ltac:(lra) 0.5) as Hs.
  change (Qnat (length Coherence.structure_indicators)) with 4%Q in Hs.
  split; [apply clamp01_ge; [|lra] | apply clamp01_in_unit].
  repeat match goal with
         | |- context [if ?b then _ else _] => destruct b
         end; lra.
Qed.

(** The range of the exact sum. *)
Lemma coherence_range (self : BaseEvaluator) (query answer : string)
    (context expected_answer : option string) :
  (0.37 <= fst (Coherence.evaluate self query answer context expected_answer)
   <= 0.96)%Q.
Proof.
  unfold Coherence.evaluate. cbn [fst].
  pose proof (consistency_range answer) as Hc.
  pose proof (readability_range answer) as [Hr Hr0].
  pose proof (logical_flow_range answer) as Hf.
  pose proof (structure_in_unit answer) as Hs. unfold in_unit in Hs.
  destruct (Coherence._split_into_sentences answer) as [|s1 [|s2 l]] eqn:E.
  - specialize (Hr0 eq_refl).
    assert (Hflow : Coherence._evaluate_logical_flow answer = 0.8%Q)
      by (unfold Coherence._evaluate_logical_flow; by rewrite E).
    assert (Hstruct : Coherence._evaluate_structure answer = 0.0%Q)
      by (unfold Coherence._evaluate_structure; by rewrite E).
    rewrite Hflow, Hstruct. lra.
  - assert (Hflow : Coherence._evaluate_logical_flow answer = 0.8%Q)
      by (unfold Coherence._evaluate_logical_flow; by rewrite E).
    assert (Hstruct : (0.4 <= Coherence._evaluate_structure answer <= 0.7)%Q).
    { unfold Coherence._evaluate_structure. rewrite E. cbn [length Nat.eqb].
      destruct (_ <? _)%nat; lra. }
    rewrite Hflow. lra.
  - pose proof (structure_many_range answer) as Hm.
    rewrite E in Hm. specialize (Hm ltac:(simpl; lia)). lra.
Qed.

(** X3.  The coherence score lies between 0.36 and 0.97: the flow sub-score
    lies between 0.6 and 1, the readability between 0.19 and 0.9, the
    consistency between 0.3 and 0.9, and the continuity bonus of a list of
    sentences between 0 and 0.2.  Over exact rationals the readability is at
    least 0.2 and the score lies between 0.37 and 0.96; the sums of the code
    are sums of binary64 numbers, which leave these three bounds by a few
    units in the last place (0.6 - 0.2 - 0.1 - 0.1 is 0.19999999999999993),
    so that the statement keeps a margin there. *)
Theorem coherence_ranges (self : BaseEvaluator) (query answer : string)
    (context expected_answer : option string) :
  (0.6 <= Coherence._evaluate_logical_flow answer <= 1)%Q
  /\ (0.19 <= Coherence._evaluate_readability answer <= 0.9)%Q
  /\ (0.3 <= Coherence._evaluate_consistency answer <= 0.9)%Q
  /\ (forall sentences,
        (0 <= Coherence._check_topic_continuity sentences <= 0.2)%Q)
  /\ (0.36 <= fst (Coherence.evaluate self query answer context expected_answer)
      <= 0.97)%Q.
Proof.
  split; [exact (logical_flow_range answer)|].
  split; [pose proof (proj1 (readability_range answer)); lra|].
  split; [exact (consistency_range answer)|].
  split; [intros sentences; exact (proj1 (topic_continuity_range sentences))|].
  pose proof (coherence_range self query answer context expected_answer). lra.
Qed.

(** ** Completeness *)

Lemma aspect_coverage_range (query answer : string)
    (query_aspects : Completeness.query_aspects_t) :
  (0.4 <= Completeness._evaluate_aspect_coverage query answer query_aspects <= 1)%Q.
Proof.
  split; [|apply clamp01_in_unit].
  unfold Completeness._evaluate_aspect_coverage. cbv zeta.
  apply clamp01_ge; [|lra].
  match goal with
  | |- context [match Completeness.key_topics query_aspects with
                | [] => ?x
                | _ :: _ => _
                end] => set (typed := x)
  end.
  assert (Htyped : (0.5 <= typed)%Q).
  { subst typed.
    repeat match goal with
           | |- context [if ?b then _ else _] => destruct b
           end; lra. }
  clearbody typed.
  assert (Htopics :
    (typed <= match Completeness.key_topics query_aspects with
              | [] => typed
              | _ :: _ =>
                  typed
                  + Qnat (length
                            (List.filter
                               (fun topic => PyStr.contains topic (PyStr.lower answer))
                               (Completeness.key_topics query_aspects)))
                    / Qnat (length (Completeness.key_topics query_aspects)) * 0.3
              end)%Q).
  { destruct (Completeness.key_topics query_aspects) as [|t ts] eqn:E; [lra|].
    rewrite <- E.
    assert (0 <= Qnat (length
                         (List.filter
                            (fun topic => PyStr.contains topic (PyStr.lower answer))
                            (Completeness.key_topics query_aspects)))
                 / Qnat (length (Completeness.key_topics query_aspects)))%Q.
    { apply Qle_shift_div_l; [apply Qnat_pos; rewrite E; simpl; lia|].
      pose proof (Qnat_nonneg
                    (length
                       (List.filter
                          (fun topic => PyStr.contains topic (PyStr.lower answer))
                          (Completeness.key_topics query_aspects)))).
      lra. }
    lra. }
  match type of Htopics with (_ <= ?x)%Q => set (covered := x) in * end.
  clearbody covered.
  destruct (Completeness.multiple_parts query_aspects);
    [destruct (Completeness._addresses_multiple_aspects answer)|]; lra.
Qed.

Lemma response_depth_range (answer : string) :
  (0.3 <= Completeness._evaluate_response_depth answer <= 1)%Q.
Proof.
  split; [|apply clamp01_in_unit].
  unfold Completeness._evaluate_response_depth. cbv zeta.
  repeat match goal with
         | |- context [if ?b then _ else _] => destruct b
         end; apply clamp01_ge; lra.
Qed.

Lemma comprehensiveness_range (answer : string) :
  (0.6 <= Completeness._evaluate_comprehensiveness answer <= 1)%Q.
Proof.
  split; [|apply clamp01_in_unit].
  unfold Completeness._evaluate_comprehensiveness. cbv zeta.
  apply clamp01_ge; [|lra].
  match goal with |- context [Qnat ?n] => pose proof (Qnat_nonneg n) end.
  lra.
Qed.

(** The range of the exact sum. *)
Lemma completeness_range (self : BaseEvaluator) (query answer : string)
    (context expected_answer : option string) :
  (0.345 <= fst (Completeness.evaluate self query answer context expected_answer)
   <= 1)%Q
  /\ (Base.if_truthy expected_answer (fun _ => true) false = false ->
      (0.485 <= fst (Completeness.evaluate self query answer context expected_answer)
       <= 0.94)%Q).
Proof.
  unfold Completeness.evaluate, Completeness.evaluate_in. cbn [fst].
  pose proof (aspect_coverage_range query answer
                (Completeness._analyze_query_aspects_in elements query)) as Hc.
  pose proof (response_depth_range answer) as Hd.
  pose proof (comprehensiveness_range answer) as Hm.
  unfold Base.if_truthy.
  destruct expected_answer as [e|]; [destruct (PyStr.truthy e)|].
  - pose proof (compare_with_expected_in_unit answer e) as He.
    unfold in_unit in He. split; [lra | discriminate].
  - split; [|intros _]; lra.
  - split; [|intros _]; lra.
Qed.

Lemma completeness_heuristic_analysis (self : BaseEvaluator)
    (query answer : string) (context expected_answer : option string) :
  Base.if_truthy expected_answer (fun _ => true) false = false ->
  PyStr.startswith
    (Completeness.analysis
       (snd (Completeness.evaluate self query answer context expected_answer)))
    "Low completeness" = false.
Proof.
  intros He.
  destruct (completeness_range self query answer context expected_answer)
    as [_ Hr]. specialize (Hr He). destruct Hr as [Hlo _].
  unfold Completeness.evaluate, Completeness.evaluate_in in *. cbn [fst snd Completeness.analysis] in *.
  unfold Completeness._generate_completeness_analysis, Base.banded.
  match goal with
  | |- context [Qleb 0.4 ?s] =>
      assert (H4 : Qleb 0.4 s = true) by (apply Qleb_le; lra); rewrite H4
  end.
  repeat match goal with
         | |- context [if ?b then _ else _] => destruct b
         end; reflexivity.
Qed.

(** X4.  The completeness score is at least 0.345: the coverage sub-score lies
    between 0.4 and 1, the depth between 0.3 and 1 and the
    comprehensiveness between 0.6 and 1.  Without an expected answer the
    score is at least 0.485, so that the analysis never reports the band of
    "Low completeness", which ends at 0.4, and it stays below 0.95: its
    greatest value is 0.94 over exact rationals and 0.9400000000000001 as the
    binary64 sum of the code. *)
Theorem completeness_ranges (self : BaseEvaluator) (query answer : string)
    (context : option string) :
  (forall query_aspects,
     (0.4 <= Completeness._evaluate_aspect_coverage query answer query_aspects
      <= 1)%Q)
  /\ (0.3 <= Completeness._evaluate_response_depth answer <= 1)%Q
  /\ (0.6 <= Completeness._evaluate_comprehensiveness answer <= 1)%Q
  /\ (forall expected_answer,
        (0.345 <= fst (Completeness.evaluate self query answer context
                         expected_answer) <= 1)%Q)
  /\ (let absent := Completeness.evaluate self query answer context None in
      (0.485 <= fst absent <= 0.95)%Q
      /\ PyStr.startswith (Completeness.analysis (snd absent)) "Low completeness"
         = false).
Proof.
  split; [exact (aspect_coverage_range query answer)|].
  split; [exact (response_depth_range answer)|].
  split; [exact (comprehensiveness_range answer)|].
  split.
  - intros expected_answer.
    exact (proj1 (completeness_range self query answer context expected_answer)).
  - cbv zeta. split.
    + pose proof (proj2 (completeness_range self query answer context None)
                    eq_refl). lra.
    + exact (completeness_heuristic_analysis self query answer context None eq_refl).
Qed.

(** ** Relevance *)

Lemma wh_or_imperative (s : string) :
  PyStr.startswith_any s ["what"; "how"; "when"; "where"; "why"; "who"] = true ->
  existsb (PyStr.startswith s) ["explain"; "describe"; "list"; "compare"] = false.
Proof.
  destruct s as [|c s]; [discriminate|].
  unfold PyStr.startswith_any. cbn [existsb PyStr.startswith].
  destruct (ascii_dec "w" c) as [<-|Hw]; [intros _; reflexivity|].
  destruct (ascii_dec "h" c) as [<-|Hh]; [intros _; reflexivity|].
  discriminate.
Qed.

Lemma Qmin_one_range (lo hi x : Q) :
  (lo <= x <= hi)%Q -> (lo <= 1)%Q -> (lo <= Qmin x 1.0 <= hi)%Q.
Proof.
  intros Hx Hlo. pose proof (Q.le_min_l x 1.0).
  split; [apply Q.min_glb|]; lra.
Qed.

Lemma direct_answer_range (query answer : string) :
  (0 <= Relevance._check_direct_answer_patterns query answer <= 0.5)%Q.
Proof.
  unfold Relevance._check_direct_answer_patterns. cbv zeta.
  pose proof (wh_or_imperative (PyStr.lower query)) as Hex.
  destruct (PyStr.startswith_any (PyStr.lower query) _) eqn:Ewh.
  - rewrite (Hex eq_refl).
    repeat match goal with
           | |- context [if ?b then _ else _] => destruct b
           end;
      (apply Qmin_one_range; lra).
  - repeat match goal with
           | |- context [if ?b then _ else _] => destruct b
           end;
      (apply Qmin_one_range; lra).
Qed.

(** The range of the exact sum. *)
Lemma relevance_range (self : BaseEvaluator) (query answer : string)
    (context expected_answer : option string) :
  (0 <= fst (Relevance.evaluate self query answer context expected_answer)
   <= 0.85)%Q.
Proof.
  unfold Relevance.evaluate, Relevance.evaluate_in. cbn [fst].
  pose proof (term_overlap_in_unit (Relevance._extract_key_terms query)
                (Relevance._extract_key_terms answer)) as Ht.
  pose proof (direct_answer_range query answer) as Hd.
  pose proof (semantic_relevance_in_unit query answer) as Hs.
  unfold in_unit in *. lra.
Qed.

(** X5.  The direct-answer sub-score is at most 0.5, since no query starts both
    with a question word and with an instruction word, and its cap at 1.0
    never applies; the relevance score therefore stays below 0.86: its
    greatest value is 0.85 over exact rationals and 0.8500000000000001 as the
    binary64 sum of the code. *)
Theorem relevance_ranges (self : BaseEvaluator) (query answer : string)
    (context expected_answer : option string) :
  (0 <= Relevance._check_direct_answer_patterns query answer <= 0.5)%Q
  /\ (0 <= fst (Relevance.evaluate self query answer context expected_answer)
      <= 0.86)%Q.
Proof.
  split; [exact (direct_answer_range query answer)|].
  pose proof (relevance_range self query answer context expected_answer). lra.
Qed.

(** ** Whitespace and case *)

Lemma space_char_facts (c : ascii) :
  PyStr.isspace c = true ->
  PyStr.lower_char c = c /\ Spec.is_punctuation c = false
  /\ Spec.terminator c = false.
Proof.
  destruct c as [[] [] [] [] [] [] [] []]; cbv; intros H;
    first [discriminate H | by repeat split].
Qed.

Lemma isspace_lower_char (c : ascii) :
  PyStr.isspace (PyStr.lower_char c) = PyStr.isspace c.
Proof. destruct c as [[] [] [] [] [] [] [] []]; reflexivity. Qed.

Lemma blank_lower (s : string) : Spec.blank (PyStr.lower s) = Spec.blank s.
Proof.
  unfold Spec.blank. induction s as [|c s IH]; [reflexivity|].
  cbn [PyStr.lower Spec.string_all]. by rewrite isspace_lower_char, IH.
Qed.

Lemma blank_split_aux (s : string) :
  Spec.blank s = true -> PyStr.split_aux s = (EmptyString, []).
Proof.
  unfold Spec.blank. induction s as [|c s IH]; [reflexivity|].
  cbn [Spec.string_all PyStr.split_aux]. intros [Hc Hs]%andb_true_iff.
  by rewrite (IH Hs), Hc.
Qed.

Lemma blank_split (s : string) : Spec.blank s = true -> PyStr.split s = [].
Proof. intros H. unfold PyStr.split. by rewrite blank_split_aux. Qed.

Lemma blank_rstrip (s : string) :
  Spec.blank s = true -> PyStr.rstrip s = EmptyString.
Proof.
  unfold Spec.blank. induction s as [|c s IH]; [reflexivity|].
  cbn [Spec.string_all PyStr.rstrip]. intros [Hc Hs]%andb_true_iff.
  by rewrite (IH Hs), Hc.
Qed.

Lemma blank_strip (s : string) :
  Spec.blank s = true -> PyStr.strip s = EmptyString.
Proof. intros H. unfold PyStr.strip. by rewrite blank_rstrip. Qed.

Lemma blank_normalized (s : string) :
  Spec.blank s = true -> Spec.normalized s = s.
Proof.
  unfold Spec.blank, Spec.normalized. induction s as [|c s IH]; [reflexivity|].
  cbn [Spec.string_all PyStr.lower Spec.replace_chars].
  intros [Hc Hs]%andb_true_iff.
  destruct (space_char_facts c Hc) as (-> & -> & _). by rewrite (IH Hs).
Qed.

Lemma blank_key_terms (s : string) :
  Spec.blank s = true -> Relevance._extract_key_terms s = ∅.
Proof.
  intros H. by rewrite key_terms_normalized, (blank_normalized s H), blank_split.
Qed.

Lemma blank_word_set (s : string) :
  Spec.blank s = true -> Base.word_set s = ∅.
Proof.
  intros H. unfold Base.word_set.
  rewrite blank_split; [reflexivity | by rewrite blank_lower].
Qed.

(** A phrase that starts with a character other than whitespace does not
    occur in a blank text. *)
Lemma blank_contains (phrase s : string) :
  Spec.blank s = true ->
  (exists a rest, phrase = String a rest /\ PyStr.isspace a = false) ->
  PyStr.contains phrase s = false.
Proof.
  intros Hs (a & rest & -> & Ha). unfold Spec.blank in Hs.
  induction s as [|c s IH]; [reflexivity|].
  cbn [Spec.string_all] in Hs. apply andb_true_iff in Hs as [Hc Hs].
  cbn [PyStr.contains PyStr.startswith]. rewrite (IH Hs).
  destruct (ascii_dec a c) as [->|]; [congruence | reflexivity].
Qed.

Lemma blank_contains_any (phrases : list string) (s : string) :
  Spec.blank s = true ->
  Forall (fun phrase =>
            exists a rest, phrase = String a rest /\ PyStr.isspace a = false)
    phrases ->
  PyStr.contains_any phrases s = false.
Proof.
  intros Hs H. unfold PyStr.contains_any.
  induction H as [|p ps Hp _ IH]; [reflexivity|].
  cbn [existsb]. by rewrite (blank_contains p s Hs Hp), IH.
Qed.

Ltac phrases_start_with_letters :=
  repeat (constructor; [eexists _, _; split; reflexivity|]); constructor.

Lemma blank_direct_answer (query answer : string) :
  Spec.blank answer = true ->
  (Relevance._check_direct_answer_patterns query answer == 0)%Q.
Proof.
  intros H. unfold Relevance._check_direct_answer_patterns. cbv zeta.
  pose proof H as Hl. rewrite <- blank_lower in Hl.
  rewrite !(blank_contains_any _ _ Hl) by phrases_start_with_letters.
  rewrite (blank_split answer H), !andb_false_r. cbn [length Nat.ltb Nat.leb].
  destruct (PyStr.startswith_any _ _), (existsb _ _); reflexivity.
Qed.

Lemma blank_semantic_relevance (query answer : string) :
  Spec.blank answer = true ->
  (Relevance._evaluate_semantic_relevance query answer == 0)%Q.
Proof.
  intros H. unfold Relevance._evaluate_semantic_relevance. cbv zeta.
  rewrite (blank_split answer H), (blank_word_set answer H), (blank_strip answer H).
  rewrite (right_absorb_L ∅ (∩)), size_empty. reflexivity.
Qed.

Lemma blank_term_overlap (query_terms : gset string) :
  (Relevance._calculate_term_overlap query_terms ∅ == 0)%Q.
Proof.
  unfold Relevance._calculate_term_overlap.
  destruct (Base.set_empty query_terms); [reflexivity|].
  rewrite (right_absorb_L ∅ (∩)), size_empty. reflexivity.
Qed.

(** X6.  An answer without a word (empty, or whitespace only) has the relevance
    score 0 for every query, and the analysis of a low relevance. *)
Theorem blank_relevance (self : BaseEvaluator) (query answer : string)
    (context expected_answer : option string) :
  Spec.blank answer = true ->
  (fst (Relevance.evaluate self query answer context expected_answer) == 0)%Q
  /\ Relevance.analysis
       (snd (Relevance.evaluate self query answer context expected_answer))
     = "Low relevance - Answer does not adequately address the query".
Proof.
  intros H. unfold Relevance.evaluate, Relevance.evaluate_in. cbn [fst snd Relevance.analysis].
  assert (Hscore :
    (Relevance._calculate_term_overlap (Relevance._extract_key_terms query)
       (Relevance._extract_key_terms answer) * 0.4
     + Relevance._check_direct_answer_patterns query answer * 0.3
     + Relevance._evaluate_semantic_relevance query answer * 0.3 == 0)%Q).
  { rewrite (blank_key_terms answer H), blank_term_overlap,
      (blank_direct_answer query answer H), (blank_semantic_relevance query answer H).
    reflexivity. }
  split; [exact Hscore|].
  unfold Relevance._generate_relevance_analysis, Base.banded.
  rewrite !Qleb_false by lra. reflexivity.
Qed.

(** X6, for an answer of three spaces. *)
Lemma blank_relevance_witness :
  Spec.blank "   " = true
  /\ (fst (Relevance.evaluate Relevance.init "What is the capital of France?"
             "   " None None) == 0)%Q
  /\ Relevance.analysis
       (snd (Relevance.evaluate Relevance.init "What is the capital of France?"
               "   " None None))
     = "Low relevance - Answer does not adequately address the query".
Proof.
  assert (H : Spec.blank "   " = true) by reflexivity.
  split; [exact H|].
  exact (blank_relevance Relevance.init "What is the capital of France?" "   "
           None None H).
Defined.

(** ** A query that starts with whitespace *)

Lemma startswith_space (c : ascii) (s phrase : string) :
  PyStr.isspace c = true ->
  (exists a rest, phrase = String a rest /\ PyStr.isspace a = false) ->
  PyStr.startswith (String c s) phrase = false.
Proof.
  intros Hc (a & rest & -> & Ha). cbn [PyStr.startswith].
  destruct (ascii_dec a c) as [->|]; [congruence | reflexivity].
Qed.

Lemma existsb_startswith_space (c : ascii) (s : string) (phrases : list string) :
  PyStr.isspace c = true ->
  Forall (fun phrase =>
            exists a rest, phrase = String a rest /\ PyStr.isspace a = false)
    phrases ->
  existsb (PyStr.startswith (String c s)) phrases = false.
Proof.
  intros Hc H. induction H as [|p ps Hp _ IH]; [reflexivity|].
  cbn [existsb]. by rewrite (startswith_space c s p Hc Hp), IH.
Qed.

Lemma strip_space_cons (c : ascii) (s : string) :
  PyStr.isspace c = true -> PyStr.strip (String c s) = PyStr.strip s.
Proof.
  intros Hc. unfold PyStr.strip. cbn [PyStr.rstrip].
  destruct (PyStr.rstrip s) as [|r rs]; cbv iota; [by rewrite Hc|].
  cbn [PyStr.lstrip]. by rewrite Hc.
Qed.

(** X7.  A query that starts with a whitespace character gets the direct-answer
    sub-score 0 whatever the answer is, because the relevance scorer tests
    the start of the query without stripping it; the completeness scorer
    strips the query first and identifies the same question type as without
    the character. *)
Theorem leading_space_query (c : ascii) (query answer : string) :
  PyStr.isspace c = true ->
  (Relevance._check_direct_answer_patterns (String c query) answer == 0)%Q
  /\ Completeness._identify_question_type (String c query)
     = Completeness._identify_question_type query.
Proof.
  intros Hc. split.
  - unfold Relevance._check_direct_answer_patterns, PyStr.startswith_any.
    cbv zeta. cbn [PyStr.lower].
    assert (Hl : PyStr.isspace (PyStr.lower_char c) = true)
      by (by rewrite isspace_lower_char).
    rewrite !(existsb_startswith_space _ _ _ Hl) by phrases_start_with_letters.
    reflexivity.
  - unfold Completeness._identify_question_type. cbn [PyStr.lower].
    rewrite strip_space_cons; [reflexivity | by rewrite isspace_lower_char].
Qed.

(** X7, for a query that starts with a space. *)
Lemma leading_space_query_witness :
  PyStr.isspace " " = true
  /\ (Relevance._check_direct_answer_patterns " What is rain?"
        "It is water that falls." == 0)%Q
  /\ Completeness._identify_question_type " What is rain?"
     = Completeness._identify_question_type "What is rain?".
Proof.
  assert (H : PyStr.isspace " " = true) by reflexivity.
  split; [exact H|].
  exact (leading_space_query " " "What is rain?" "It is water that falls." H).
Defined.

(** ** The case of the letters *)

Lemma lower_empty (s : string) : PyStr.lower s = EmptyString -> s = EmptyString.
Proof. by destruct s. Qed.

Lemma cons_word_lower (w : string) (ws : list string) :
  PyStr.cons_word (PyStr.lower w) (List.map PyStr.lower ws)
  = List.map PyStr.lower (PyStr.cons_word w ws).
Proof. by destruct w. Qed.

Lemma split_aux_lower (s : string) :
  PyStr.split_aux (PyStr.lower s)
  = (PyStr.lower (fst (PyStr.split_aux s)),
     List.map PyStr.lower (snd (PyStr.split_aux s))).
Proof.
  induction s as [|c s IH]; [reflexivity|].
  cbn [PyStr.lower PyStr.split_aux]. rewrite IH, isspace_lower_char.
  destruct (PyStr.split_aux s) as [w ws]. cbn [fst snd].
  destruct (PyStr.isspace c); [|reflexivity].
  by rewrite cons_word_lower.
Qed.

Lemma split_lower (s : string) :
  PyStr.split (PyStr.lower s) = List.map PyStr.lower (PyStr.split s).
Proof.
  unfold PyStr.split. rewrite split_aux_lower.
  destruct (PyStr.split_aux s) as [w ws]. apply cons_word_lower.
Qed.

Lemma lstrip_lower (s : string) :
  PyStr.lstrip (PyStr.lower s) = PyStr.lower (PyStr.lstrip s).
Proof.
  induction s as [|c s IH]; [reflexivity|].
  cbn [PyStr.lower PyStr.lstrip]. rewrite isspace_lower_char.
  by destruct (PyStr.isspace c).
Qed.

Lemma rstrip_lower (s : string) :
  PyStr.rstrip (PyStr.lower s) = PyStr.lower (PyStr.rstrip s).
Proof.
  induction s as [|c s IH]; [reflexivity|].
  cbn [PyStr.lower PyStr.rstrip]. rewrite IH, isspace_lower_char.
  destruct (PyStr.rstrip s); [by destruct (PyStr.isspace c) | reflexivity].
Qed.

Lemma strip_lower (s : string) :
  PyStr.strip (PyStr.lower s) = PyStr.lower (PyStr.strip s).
Proof. unfold PyStr.strip. by rewrite rstrip_lower, lstrip_lower. Qed.

Lemma truthy_lower (s : string) :
  PyStr.truthy (PyStr.lower s) = PyStr.truthy s.
Proof. by destruct s. Qed.

(** X8.  The relevance scorer ignores the case of the letters: lower-casing the
    query and the answer changes neither the score nor the details. *)
Theorem relevance_ignores_case (self : BaseEvaluator) (query answer : string)
    (context expected_answer : option string) :
  Relevance.evaluate self (PyStr.lower query) (PyStr.lower answer)
    context expected_answer
  = Relevance.evaluate self query answer context expected_answer.
Proof.
  assert (Hterms : forall text,
             Relevance._extract_key_terms (PyStr.lower text)
             = Relevance._extract_key_terms text).
  { intros text. unfold Relevance._extract_key_terms. cbv zeta.
    by rewrite lower_idem. }
  assert (Hwords : forall text,
             length (PyStr.split (PyStr.lower text)) = length (PyStr.split text)).
  { intros text. by rewrite split_lower, length_map. }
  assert (Hdirect :
    Relevance._check_direct_answer_patterns (PyStr.lower query) (PyStr.lower answer)
    = Relevance._check_direct_answer_patterns query answer).
  { unfold Relevance._check_direct_answer_patterns. cbv zeta.
    by rewrite !lower_idem, Hwords. }
  assert (Hsemantic :
    Relevance._evaluate_semantic_relevance (PyStr.lower query) (PyStr.lower answer)
    = Relevance._evaluate_semantic_relevance query answer).
  { unfold Relevance._evaluate_semantic_relevance. cbv zeta.
    by rewrite !word_set_lower, !lower_idem, !Hwords, strip_lower, truthy_lower. }
  unfold Relevance.evaluate, Relevance.evaluate_in. cbv zeta.
  by rewrite !Hterms, Hdirect, Hsemantic.
Qed.

(** ** An answer that repeats the query *)

(** X9.  An answer that holds the query as a run of whole words, before or after
    anything else, has the term overlap 1, provided the query has a key
    term. *)
Theorem echo_term_overlap (query more : string) :
  Relevance._extract_key_terms query <> ∅ ->
  (Relevance._calculate_term_overlap (Relevance._extract_key_terms query)
     (Relevance._extract_key_terms (query +:+ " " +:+ more)) == 1)%Q
  /\ (Relevance._calculate_term_overlap (Relevance._extract_key_terms query)
        (Relevance._extract_key_terms (more +:+ " " +:+ query)) == 1)%Q.
Proof.
  intros Hne. rewrite !key_terms_app.
  set (q := Relevance._extract_key_terms query) in *.
  set (m := Relevance._extract_key_terms more).
  assert (Hq : Base.set_empty q = false).
  { destruct (Base.set_empty q) eqn:E; [|reflexivity].
    by apply set_empty_true in E. }
  assert (H1 : q ∩ (q ∪ m) = q)
    by apply subseteq_intersection_1_L, union_subseteq_l.
  assert (H2 : q ∩ (m ∪ q) = q)
    by apply subseteq_intersection_1_L, union_subseteq_r.
  unfold Relevance._calculate_term_overlap. rewrite Hq, H1, H2.
  split; by apply Qnat_ratio_self, set_empty_false.
Qed.

(** X9, for the query "capital of France". *)
Lemma echo_term_overlap_witness :
  Relevance._extract_key_terms "capital of France" <> ∅
  /\ (Relevance._calculate_term_overlap
        (Relevance._extract_key_terms "capital of France")
        (Relevance._extract_key_terms ("capital of France" +:+ " " +:+ "indeed"))
      == 1)%Q
  /\ (Relevance._calculate_term_overlap
        (Relevance._extract_key_terms "capital of France")
        (Relevance._extract_key_terms ("indeed" +:+ " " +:+ "capital of France"))
      == 1)%Q.
Proof.
  assert (H : Relevance._extract_key_terms "capital of France" <> ∅).
  { intros H. apply (f_equal size) in H. vm_compute in H. discriminate H. }
  split; [exact H|].
  exact (echo_term_overlap "capital of France" "indeed" H).
Defined.

(** ** The sentences of a text *)

Lemma compile_breaks : ReParse.compile "[.!?]+" = Some Spec.breaks_regex.
Proof. vm_compute. reflexivity. Qed.

Lemma skip_terminators_pair (prev : option ascii) (s : string) :
  Spec.skip_terminators prev s
  = (fst (Spec.skip_terminators prev s), snd (Spec.skip_terminators prev s)).
Proof. by destruct (Spec.skip_terminators prev s). Qed.

Lemma skip_terminators_len (s : string) :
  forall prev, (PyStr.len (snd (Spec.skip_terminators prev s)) <= PyStr.len s)%nat.
Proof.
  unfold PyStr.len. induction s as [|c s IH]; intros prev; [reflexivity|].
  cbn [Spec.skip_terminators]. destruct (Spec.terminator c); [|reflexivity].
  specialize (IH (Some c)). simpl. lia.
Qed.

(** The greedy run of terminators, once one is taken: a continuation that
    accepts every position receives the position after the whole run. *)
Lemma rep_breaks {A : Type} (multiline : bool)
    (k : option ascii -> string -> option A) :
  (forall p e, k p e <> None) ->
  forall fuel n prev s,
    (PyStr.len s <= fuel)%nat -> (1 <= n)%nat ->
    Re.rep_loop
      (Re.run multiline
         (Re.CSet false [Re.CChar "."; Re.CChar "!"; Re.CChar "?"]))
      1 None k fuel n prev s
    = k (fst (Spec.skip_terminators prev s)) (snd (Spec.skip_terminators prev s)).
Proof.
  intros Hk. induction fuel as [|fuel IH]; intros n prev s Hlen Hn.
  - destruct s as [|c s]; [|unfold PyStr.len in Hlen; simpl in Hlen; lia].
    cbn [Re.rep_loop Spec.skip_terminators fst snd].
    destruct (1 <=? n)%nat eqn:E; [reflexivity | apply Nat.leb_gt in E; lia].
  - cbn [Re.rep_loop Re.more_allowed Re.run].
    assert (Hstop : (if (1 <=? n)%nat then k prev s else None) = k prev s).
    { destruct (1 <=? n)%nat eqn:E; [reflexivity | apply Nat.leb_gt in E; lia]. }
    rewrite Hstop. destruct s as [|c s]; [reflexivity|].
    cbn [Spec.skip_terminators]. fold (Spec.terminator c).
    destruct (Spec.terminator c); [|reflexivity].
    assert (Hshort : (PyStr.len s <? PyStr.len (String c s))%nat = true)
      by (apply Nat.ltb_lt; unfold PyStr.len; simpl; lia).
    rewrite Hshort, IH; [|unfold PyStr.len in *; simpl in Hlen; lia | lia].
    specialize (Hk (fst (Spec.skip_terminators (Some c) s))
                  (snd (Spec.skip_terminators (Some c) s))).
    by destruct (k _ _).
Qed.

Lemma match_here_breaks (multiline : bool) (prev : option ascii) (s : string) :
  Re.match_here multiline false Spec.breaks_regex prev s
  = match s with
    | String c s' =>
        if Spec.terminator c then Some (Spec.skip_terminators (Some c) s')
        else None
    | EmptyString => None
    end.
Proof.
  unfold Re.match_here.
  change (Re.run multiline Spec.breaks_regex prev s
            (fun p s' => if false && (PyStr.len s' =? PyStr.len s)%nat
                         then None else Some (p, s')))
    with (Re.rep_loop
            (Re.run multiline
               (Re.CSet false [Re.CChar "."; Re.CChar "!"; Re.CChar "?"]))
            1 None (fun p s' => Some (p, s')) (PyStr.len s) 0 prev s).
  destruct s as [|c s]; [reflexivity|].
  change (PyStr.len (String c s)) with (S (PyStr.len s)) at 1.
  cbn [Re.rep_loop Re.more_allowed Nat.leb].
  change (Re.run multiline
            (Re.CSet false [Re.CChar "."; Re.CChar "!"; Re.CChar "?"])
            prev (String c s) ?k)
    with (if Spec.terminator c
          then (if (PyStr.len s <? PyStr.len (String c s))%nat
                then Re.rep_loop
                       (Re.run multiline
                          (Re.CSet false [Re.CChar "."; Re.CChar "!"; Re.CChar "?"]))
                       1 None (fun p s' => Some (p, s')) (PyStr.len s) 1 (Some c) s
                else None)
          else None).
  destruct (Spec.terminator c); [|reflexivity].
  assert (Hshort : (PyStr.len s <? PyStr.len (String c s))%nat = true)
    by (apply Nat.ltb_lt; unfold PyStr.len; simpl; lia).
  rewrite Hshort, rep_breaks; [|discriminate | lia | lia].
  cbn [Re.orelse]. by rewrite <- skip_terminators_pair.
Qed.

Lemma pieces_skip (s : string) :
  forall prev,
    (let '(piece, rest) := Spec.pieces_aux s in
     match s with
     | String c _ => if Spec.terminator c then rest else piece :: rest
     | EmptyString => piece :: rest
     end)
    = Spec.pieces (snd (Spec.skip_terminators prev s)).
Proof.
  induction s as [|c s IH]; intros prev; [reflexivity|].
  specialize (IH (Some c)).
  cbn [Spec.skip_terminators Spec.pieces_aux].
  destruct (Spec.pieces_aux s) as [piece rest] eqn:Ep.
  destruct (Spec.terminator c) eqn:E; cbv beta iota zeta.
  - exact IH.
  - unfold Spec.pieces. cbn [snd Spec.pieces_aux]. by rewrite Ep, E.
Qed.

Lemma take_cons_nonempty (n : nat) (c : ascii) (s : string) :
  (0 < n)%nat -> PyStr.take n (String c s) <> EmptyString.
Proof. destruct n; [lia | discriminate]. Qed.

(** The leftmost break of a text: what precedes it is the first piece, and
    the pieces that follow are those of the text after the break. *)
Lemma find_breaks (multiline : bool) (s : string) :
  forall prev,
    match Re.find multiline false Spec.breaks_regex prev s with
    | None => Spec.pieces_aux s = (s, [])
    | Some h =>
        Spec.pieces_aux s = (Re.skipped h, Spec.pieces (Re.after h))
        /\ Re.matched h <> EmptyString
    end.
Proof.
  induction s as [|c s IH]; intros prev.
  - cbn [Re.find]. by rewrite match_here_breaks.
  - cbn [Re.find]. rewrite match_here_breaks.
    destruct (Spec.terminator c) eqn:E.
    + rewrite (skip_terminators_pair (Some c) s).
      cbn [Re.skipped Re.matched Re.after]. split.
      * cbn [Spec.pieces_aux]. rewrite E, <- (pieces_skip s (Some c)).
        by destruct (Spec.pieces_aux s).
      * apply take_cons_nonempty.
        pose proof (skip_terminators_len s (Some c)).
        unfold PyStr.len in *. simpl. lia.
    + specialize (IH (Some c)).
      destruct (Re.find multiline false Spec.breaks_regex (Some c) s) as [h|].
      * destruct IH as [IH Hm]. cbn [Re.skipped Re.matched Re.after].
        split; [|exact Hm]. cbn [Spec.pieces_aux]. by rewrite IH, E.
      * cbn [Spec.pieces_aux]. by rewrite IH, E.
Qed.

Lemma split_breaks (multiline : bool) (s : string) :
  Re.split_re multiline Spec.breaks_regex s = Spec.pieces s.
Proof.
  unfold Re.split_re, Spec.pieces.
  match goal with
  | |- context [Re.scan _ _ _ _ _ _ ?f ?g] => set (step := f); set (tail := g)
  end.
  assert (H : forall fuel s prev,
             (Spec.scan_measure false s < fuel)%nat ->
             Re.scan fuel multiline false Spec.breaks_regex prev s step tail
             = Spec.pieces_aux s).
  { clear s. induction fuel as [|fuel IH]; intros s prev Hfuel; [lia|].
    cbn [Re.scan]. pose proof (find_breaks multiline s prev) as Hfind.
    destruct (Re.find multiline false Spec.breaks_regex prev s) as [h|] eqn:E;
      [|by rewrite Hfind].
    destruct Hfind as [Hpieces Hm]. apply find_measure in E.
    destruct (Re.matched h) as [|m ms]; [done|].
    rewrite IH by lia. rewrite Hpieces. unfold step, Spec.pieces.
    by destruct (Spec.pieces_aux (Re.after h)). }
  rewrite H; [reflexivity|].
  unfold Spec.scan_measure, Re.scan_fuel. lia.
Qed.

Lemma split_sentence_breaks (s : string) : re.split "[.!?]+" s = Spec.pieces s.
Proof.
  unfold re.split, re.with_pattern. rewrite compile_breaks. apply split_breaks.
Qed.

Lemma sentences_pieces (text : string) :
  Base._split_into_sentences text
  = List.map PyStr.strip
      (List.filter (fun s => PyStr.truthy (PyStr.strip s)) (Spec.pieces text)).
Proof. unfold Base._split_into_sentences. by rewrite split_sentence_breaks. Qed.

Lemma blank_rstrip_eq (s : string) : Spec.blank (PyStr.rstrip s) = Spec.blank s.
Proof.
  unfold Spec.blank. induction s as [|c s IH]; [reflexivity|].
  cbn [PyStr.rstrip Spec.string_all]. rewrite <- IH.
  destruct (PyStr.rstrip s) as [|r rs]; [|reflexivity].
  destruct (PyStr.isspace c) eqn:E; cbn [Spec.string_all]; by rewrite ?E.
Qed.

Lemma truthy_lstrip (s : string) :
  PyStr.truthy (PyStr.lstrip s) = negb (Spec.blank s).
Proof.
  unfold Spec.blank. induction s as [|c s IH]; [reflexivity|].
  cbn [PyStr.lstrip Spec.string_all]. by destruct (PyStr.isspace c).
Qed.

Lemma truthy_strip (s : string) :
  PyStr.truthy (PyStr.strip s) = negb (Spec.blank s).
Proof. unfold PyStr.strip. by rewrite truthy_lstrip, blank_rstrip_eq. Qed.

Lemma string_all_lstrip (p : ascii -> bool) (s : string) :
  Spec.string_all p s = true -> Spec.string_all p (PyStr.lstrip s) = true.
Proof.
  induction s as [|c s IH]; [done|]. cbn [PyStr.lstrip].
  destruct (PyStr.isspace c); [|done].
  cbn [Spec.string_all]. intros [_ H]%andb_true_iff. by apply IH.
Qed.

Lemma string_all_rstrip (p : ascii -> bool) (s : string) :
  Spec.string_all p s = true -> Spec.string_all p (PyStr.rstrip s) = true.
Proof.
  induction s as [|c s IH]; [done|]. cbn [PyStr.rstrip Spec.string_all].
  intros [Hc Hs]%andb_true_iff. specialize (IH Hs).
  destruct (PyStr.rstrip s) as [|r rs].
  - destruct (PyStr.isspace c); [done|]. cbn [Spec.string_all]. by rewrite Hc.
  - cbn [Spec.string_all] in *. by rewrite Hc.
Qed.

Lemma pieces_aux_terminator_free (s : string) :
  Spec.string_all (fun c => negb (Spec.terminator c)) (fst (Spec.pieces_aux s)) = true
  /\ Forall (fun piece =>
               Spec.string_all (fun c => negb (Spec.terminator c)) piece = true)
       (snd (Spec.pieces_aux s)).
Proof.
  induction s as [|c s IH]; [by split|].
  cbn [Spec.pieces_aux]. destruct (Spec.pieces_aux s) as [piece rest].
  cbn [fst snd] in IH. destruct IH as [Hp Hr].
  destruct (Spec.terminator c) eqn:E; cbn [fst snd].
  - split; [reflexivity|].
    destruct s as [|c' s']; [by constructor|].
    destruct (Spec.terminator c'); [done | by constructor].
  - split; [|done]. cbn [Spec.string_all]. by rewrite E.
Qed.

Lemma pieces_terminator_free (s : string) :
  Forall (fun piece =>
            Spec.string_all (fun c => negb (Spec.terminator c)) piece = true)
    (Spec.pieces s).
Proof.
  pose proof (pieces_aux_terminator_free s) as [Hp Hr]. unfold Spec.pieces.
  destruct (Spec.pieces_aux s). by constructor.
Qed.

Lemma sentences_well_formed (text sentence : string) :
  In sentence (Base._split_into_sentences text) ->
  sentence <> EmptyString
  /\ PyStr.strip sentence = sentence
  /\ Spec.string_all (fun c => negb (Spec.terminator c)) sentence = true.
Proof.
  rewrite sentences_pieces. intros (piece & <- & [Hin Hnb]%filter_In)%in_map_iff.
  split; [by destruct (PyStr.strip piece)|]. split; [apply strip_idem|].
  pose proof (pieces_terminator_free text) as H.
  rewrite Forall_forall in H. unfold PyStr.strip.
  apply string_all_lstrip, string_all_rstrip, H. by apply list_elem_of_In.
Qed.

(** X10.  Every sentence [_split_into_sentences] returns is non-empty, has no
    whitespace at either end, and holds none of the terminators [.], [!]
    and [?]. *)
Theorem sentences_are_trimmed (text : string) :
  Forall (fun sentence =>
            sentence <> EmptyString
            /\ PyStr.strip sentence = sentence
            /\ Spec.string_all (fun c => negb (Spec.terminator c)) sentence = true)
    (Base._split_into_sentences text).
Proof.
  apply List.Forall_forall. intros sentence. apply sentences_well_formed.
Qed.

(** *** The sentence count of the base class against the sentence list *)

Lemma pieces_cons (c : ascii) (t t' : string) :
  match t with String c' _ => Spec.terminator c' | EmptyString => false end
  = match t' with String c' _ => Spec.terminator c' | EmptyString => false end ->
  List.map Spec.blank (Spec.pieces t) = List.map Spec.blank (Spec.pieces t') ->
  List.map Spec.blank (Spec.pieces (String c t))
  = List.map Spec.blank (Spec.pieces (String c t')).
Proof.
  unfold Spec.pieces. cbn [Spec.pieces_aux].
  destruct (Spec.pieces_aux t) as [p r], (Spec.pieces_aux t') as [p' r'].
  cbn [List.map]. intros Hflag H. injection H as Hp Hr.
  destruct (Spec.terminator c).
  - cbn [List.map]. f_equal.
    destruct t as [|a t], t' as [|a' t']; cbn [List.map];
      try (by rewrite Hp, Hr).
    + destruct (Spec.terminator a'); [discriminate|].
      cbn [List.map]. by rewrite Hp, Hr.
    + destruct (Spec.terminator a); [discriminate|].
      cbn [List.map]. by rewrite Hp, Hr.
    + rewrite Hflag. destruct (Spec.terminator a'); cbn [List.map];
        by rewrite ?Hp, Hr.
  - cbn [List.map]. unfold Spec.blank in *. cbn [Spec.string_all].
    by rewrite Hp, Hr.
Qed.

Lemma pieces_lstrip (s : string) :
  List.map Spec.blank (Spec.pieces (PyStr.lstrip s))
  = List.map Spec.blank (Spec.pieces s).
Proof.
  induction s as [|c s IH]; [reflexivity|]. cbn [PyStr.lstrip].
  destruct (PyStr.isspace c) eqn:E; [|reflexivity].
  rewrite IH. destruct (space_char_facts c E) as (_ & _ & Ht).
  unfold Spec.pieces. cbn [Spec.pieces_aux].
  destruct (Spec.pieces_aux s) as [p r]. rewrite Ht. cbn [List.map].
  unfold Spec.blank. cbn [Spec.string_all]. by rewrite E.
Qed.

Lemma rstrip_head (s : string) :
  match PyStr.rstrip s with
  | String c' _ => Spec.terminator c'
  | EmptyString => false
  end
  = match s with String c' _ => Spec.terminator c' | EmptyString => false end.
Proof.
  destruct s as [|c s]; [reflexivity|]. cbn [PyStr.rstrip].
  destruct (PyStr.rstrip s); [|reflexivity].
  destruct (PyStr.isspace c) eqn:E; [|reflexivity].
  by destruct (space_char_facts c E) as (_ & _ & ->).
Qed.

Lemma pieces_rstrip (s : string) :
  List.map Spec.blank (Spec.pieces (PyStr.rstrip s))
  = List.map Spec.blank (Spec.pieces s).
Proof.
  induction s as [|c s IH]; [reflexivity|].
  pose proof (rstrip_head s) as Hhead.
  pose proof (pieces_cons c (PyStr.rstrip s) s Hhead IH) as Hcons.
  cbn [PyStr.rstrip].
  destruct (PyStr.rstrip s) as [|r rs] eqn:Er; [|exact Hcons].
  destruct (PyStr.isspace c) eqn:E; [|exact Hcons].
  rewrite <- Hcons. destruct (space_char_facts c E) as (_ & _ & Ht).
  unfold Spec.pieces. cbn [Spec.pieces_aux]. rewrite Ht. cbn [List.map].
  unfold Spec.blank. cbn [Spec.string_all]. by rewrite E.
Qed.

Lemma pieces_strip (s : string) :
  List.map Spec.blank (Spec.pieces (PyStr.strip s))
  = List.map Spec.blank (Spec.pieces s).
Proof. unfold PyStr.strip. by rewrite pieces_lstrip, pieces_rstrip. Qed.

Lemma count_nonblank (l1 l2 : list string) :
  List.map Spec.blank l1 = List.map Spec.blank l2 ->
  length (List.filter (fun s => PyStr.truthy (PyStr.strip s)) l1)
  = length (List.filter (fun s => PyStr.truthy (PyStr.strip s)) l2).
Proof.
  revert l2. induction l1 as [|a l1 IH]; intros [|b l2] H; try discriminate;
    [reflexivity|].
  cbn [List.map] in H. injection H as Hab H.
  cbn [List.filter]. rewrite !truthy_strip, Hab.
  destruct (negb (Spec.blank b)); cbn [length]; by rewrite (IH l2 H).
Qed.

(** X11.  The sentence count of the base class, which strips the text before it
    splits it, is the number of sentences [_split_into_sentences] returns
    for the text as it is. *)
Theorem count_sentences_length (text : string) :
  Base._count_sentences text = length (Base._split_into_sentences text).
Proof.
  unfold Base._count_sentences. rewrite sentences_pieces, length_map.
  rewrite split_sentence_breaks. apply count_nonblank, pieces_strip.
Qed.

(** *** The texts without a sentence *)

Lemma pieces_aux_head (s : string) :
  match s with String c' _ => Spec.terminator c' | EmptyString => false end = true ->
  fst (Spec.pieces_aux s) = EmptyString.
Proof.
  destruct s as [|c s]; [discriminate|]. cbn [Spec.pieces_aux].
  intros ->. by destruct (Spec.pieces_aux s).
Qed.

Lemma pieces_all_blank (s : string) :
  forallb Spec.blank (Spec.pieces s)
  = Spec.string_all (fun c => PyStr.isspace c || Spec.terminator c) s.
Proof.
  induction s as [|c s IH]; [reflexivity|].
  pose proof (pieces_aux_head s) as Hhead.
  unfold Spec.pieces in *. cbn [Spec.pieces_aux Spec.string_all].
  destruct (Spec.pieces_aux s) as [p r]. cbn [fst forallb] in *.
  rewrite <- IH. destruct (Spec.terminator c) eqn:E.
  - rewrite orb_true_r. cbn [forallb andb]. change (Spec.blank "") with true.
    cbn [andb]. destruct s as [|c' s']; [reflexivity|].
    destruct (Spec.terminator c'); [|reflexivity].
    by rewrite (Hhead eq_refl).
  - rewrite orb_false_r. unfold Spec.blank at 1. cbn [Spec.string_all].
    fold (Spec.blank p). by rewrite andb_assoc.
Qed.

Lemma no_sentence (text : string) :
  Base._split_into_sentences text = []
  <-> Spec.string_all (fun c => PyStr.isspace c || Spec.terminator c) text = true.
Proof.
  rewrite sentences_pieces, <- pieces_all_blank.
  generalize (Spec.pieces text) as l. intros l.
  induction l as [|p l IH]; [done|].
  cbn [List.filter forallb]. rewrite truthy_strip.
  destruct (Spec.blank p); cbn [negb andb List.map]; [exact IH | done].
Qed.

(** X12.  The structure sub-score is 0 exactly for the answers that hold nothing
    but whitespace and sentence terminators, which are the answers without
    a sentence. *)
Theorem structure_zero (answer : string) :
  (Coherence._evaluate_structure answer == 0)%Q
  <-> Spec.string_all (fun c => PyStr.isspace c || Spec.terminator c) answer = true.
Proof.
  rewrite <- no_sentence. split.
  - intros H.
    destruct (Base._split_into_sentences answer) as [|s1 [|s2 l]] eqn:E;
      [reflexivity | exfalso | exfalso].
    + unfold Coherence._evaluate_structure, Coherence._split_into_sentences in H.
      rewrite E in H. cbn [length Nat.eqb] in H.
      destruct (_ <? _)%nat; lra.
    + pose proof (structure_many_range answer) as Hm.
      unfold Coherence._split_into_sentences in Hm. rewrite E in Hm.
      specialize (Hm ltac:(simpl; lia)). lra.
  - intros E. unfold Coherence._evaluate_structure, Coherence._split_into_sentences.
    rewrite E. reflexivity.
Qed.

(** *** The coverage of the sentences of an expected answer *)

Lemma text_similarity_self (x : string) :
  (Base._calculate_text_similarity x x == 1)%Q.
Proof.
  unfold Base._calculate_text_similarity.
  set (w := Base.word_set x).
  destruct (Base.set_empty w) eqn:E; simpl; [reflexivity|].
  rewrite (idemp_L (∪) w), (idemp_L (∩) w), E. simpl.
  by apply Qnat_ratio_self, set_empty_false.
Qed.

Lemma count_all {X : Type} (p : X -> bool) (l : list X) :
  Forall (fun x => p x = true) l ->
  forall n,
    fold_left (fun count x => if p x then S count else count) l n
    = (n + length l)%nat.
Proof.
  induction 1 as [|x l Hx _ IH]; intros n; cbn [fold_left length]; [lia|].
  rewrite Hx, IH. lia.
Qed.

(** X13.  When the expected answer has a sentence and each of its sentences is
    also a sentence of the answer, the expected coverage is 1. *)
Theorem expected_sentences_covered (answer expected_answer : string) :
  Base._split_into_sentences expected_answer <> [] ->
  (forall sentence,
     In sentence (Base._split_into_sentences expected_answer) ->
     In sentence (Base._split_into_sentences answer)) ->
  (Completeness._compare_with_expected answer expected_answer == 1)%Q.
Proof.
  intros Hne Hsub. unfold Completeness._compare_with_expected.
  unfold Completeness._split_into_sentences.
  destruct (Base._split_into_sentences expected_answer) as [|e es] eqn:E; [done|].
  rewrite <- E in *. clear E e es.
  rewrite (count_all
             (fun expected_sent =>
                existsb
                  (fun answer_sent =>
                     Qltb 0.3 (Base._calculate_text_similarity expected_sent answer_sent))
                  (Base._split_into_sentences answer))).
  - apply Qnat_ratio_self.
    destruct (Base._split_into_sentences expected_answer); [done | simpl; lia].
  - apply Forall_forall. intros sentence Hin%list_elem_of_In.
    apply existsb_exists. exists sentence. split; [by apply Hsub|].
    apply Qltb_lt. pose proof (text_similarity_self sentence). lra.
Qed.

(** X13, for an answer that holds the two expected sentences in the other
    order, with a third one. *)
Lemma expected_sentences_covered_witness :
  Base._split_into_sentences "It is so. Yes." <> []
  /\ (forall sentence,
        In sentence (Base._split_into_sentences "It is so. Yes.") ->
        In sentence (Base._split_into_sentences "Yes! It is so. Really."))
  /\ (Completeness._compare_with_expected "Yes! It is so. Really." "It is so. Yes."
      == 1)%Q.
Proof.
  assert (H1 : Base._split_into_sentences "It is so. Yes." <> [])
    by (vm_compute; discriminate).
  assert (H2 : forall sentence,
             In sentence (Base._split_into_sentences "It is so. Yes.") ->
             In sentence (Base._split_into_sentences "Yes! It is so. Really.")).
  { intros sentence H. vm_compute in H. vm_compute. tauto. }
  split; [exact H1|]. split; [exact H2|].
  exact (expected_sentences_covered "Yes! It is so. Really." "It is so. Yes." H1 H2).
Defined.

(** ** [_normalize_score] *)

Lemma Qeqb_eq (x y : Q) : Qeqb x y = true <-> (x == y)%Q.
Proof. apply Qeq_bool_iff. Qed.

(** X14.  For an evaluator whose score range is not reversed,
    [_normalize_score] fails with a division by zero exactly when the two
    ends of the raw range in use are equal, and otherwise returns a score
    inside the score range. *)
Theorem normalize_score_range (self : BaseEvaluator) (raw_score : Q)
    (raw_range : option (Q * Q)) :
  (fst (score_range self) <= snd (score_range self))%Q ->
  let used := match raw_range with Some given => given | None => score_range self end in
  (Base._normalize_score self raw_score raw_range = None
   <-> (fst used == snd used)%Q)
  /\ (forall r, Base._normalize_score self raw_score raw_range = Some r ->
                (fst (score_range self) <= r <= snd (score_range self))%Q).
Proof.
  intros Hle used. unfold Base._normalize_score. fold used.
  destruct used as [raw_min raw_max].
  destruct (score_range self) as [target_min target_max]. cbn [fst snd] in *.
  destruct (Qeqb (raw_max - raw_min) 0) eqn:E.
  - apply Qeqb_eq in E. split; [split; [intros _; lra | done] | discriminate].
  - split.
    + split; [discriminate|]. intros H. exfalso.
      assert (Qeqb (raw_max - raw_min) 0 = true) by (apply Qeqb_eq; lra).
      congruence.
    + intros r [= <-]. split; [apply Q.le_max_l|].
      apply Q.max_lub; [exact Hle | apply Q.le_min_l].
Qed.

(** X14, for the accuracy evaluator: an empty raw range, and the raw range
    from 0 to 10. *)
Lemma normalize_score_range_witness :
  (fst (score_range Accuracy.init) <= snd (score_range Accuracy.init))%Q
  /\ (Base._normalize_score Accuracy.init 7 (Some (2, 2)%Q) = None)
  /\ (forall r,
        Base._normalize_score Accuracy.init 7 (Some (0, 10)%Q) = Some r ->
        (0.0 <= r <= 1.0)%Q).
Proof.
  assert (H : (fst (score_range Accuracy.init) <= snd (score_range Accuracy.init))%Q)
    by (vm_compute; discriminate).
  split; [exact H|]. split.
  - apply (normalize_score_range Accuracy.init 7 (Some (2, 2)%Q) H). reflexivity.
  - exact (proj2 (normalize_score_range Accuracy.init 7 (Some (0, 10)%Q) H)).
Defined.

(** X15.  With the default raw range, [_normalize_score] of an evaluator whose
    score range is (0.0, 1.0), as it is for the four evaluators of the
    repository, only clamps: the result is the raw score brought between 0
    and 1.  (For that range the subtraction of 0.0, the division by 1.0, the
    product with 1.0 and the sum with 0.0 are exact in binary64 as well;
    for other ranges they round, and the result can differ from the
    clamped raw score in the last place.) *)
Theorem normalize_score_default (self : BaseEvaluator) (raw_score : Q) :
  score_range self = (0.0, 1.0)%Q ->
  exists r,
    Base._normalize_score self raw_score None = Some r
    /\ (r == clamp01 raw_score)%Q.
Proof.
  intros Hrange. unfold Base._normalize_score. rewrite Hrange.
  eexists. split; [reflexivity|]. unfold clamp01.
  apply Q.max_compat; [reflexivity|]. apply Q.min_compat; [reflexivity|].
  field.
Qed.

(** X15, for the relevance evaluator and the raw score 1.5. *)
Lemma normalize_score_default_witness :
  score_range Relevance.init = (0.0, 1.0)%Q
  /\ exists r,
       Base._normalize_score Relevance.init 1.5 None = Some r
       /\ (r == clamp01 1.5)%Q.
Proof.
  split; [reflexivity|].
  exact (normalize_score_default Relevance.init 1.5 eq_refl).
Defined.

(** ** The registered evaluators *)

Lemma evaluators_lookup (k : string) (ev : Main.evaluator) :
  Main.evaluators !! k = Some ev ->
  (k = "relevance"
   /\ ev = {| Main.self := Relevance.init;
              Main.evaluate :=
                Main.with_details Main.RelevanceDetails Relevance.evaluate |})
  \/ (k = "accuracy"
      /\ ev = {| Main.self := Accuracy.init;
                 Main.evaluate :=
                   Main.with_details Main.AccuracyDetails Accuracy.evaluate |})
  \/ (k = "coherence"
      /\ ev = {| Main.self := Coherence.init;
                 Main.evaluate :=
                   Main.with_details Main.CoherenceDetails Coherence.evaluate |})
  \/ (k = "completeness"
      /\ ev = {| Main.self := Completeness.init;
                 Main.evaluate :=
                   Main.with_details Main.CompletenessDetails
                     Completeness.evaluate |}).
Proof.
  unfold Main.evaluators.
  destruct (decide (k = "relevance")) as [->|?];
    [rewrite lookup_insert_eq; intros [= <-]; by left
    | rewrite lookup_insert_ne by done].
  destruct (decide (k = "accuracy")) as [->|?];
    [rewrite lookup_insert_eq; intros [= <-]; right; by left
    | rewrite lookup_insert_ne by done].
  destruct (decide (k = "coherence")) as [->|?];
    [rewrite lookup_insert_eq; intros [= <-]; right; right; by left
    | rewrite lookup_insert_ne by done].
  destruct (decide (k = "completeness")) as [->|?];
    [rewrite lookup_insert_eq; intros [= <-]; right; right; by right
    | rewrite lookup_insert_ne by done].
  by rewrite lookup_empty.
Qed.

Lemma with_details_fst {D : Type} (wrap : D -> Main.details)
    (f : BaseEvaluator -> string -> string -> option string -> option string -> Q * D)
    self query answer context expected_answer :
  fst (Main.with_details wrap f self query answer context expected_answer)
  = fst (f self query answer context expected_answer).
Proof.
  unfold Main.with_details.
  by destruct (f self query answer context expected_answer).
Qed.

Lemma evaluator_score_in_unit (k : string) (ev : Main.evaluator)
    (query answer : string) (context expected_answer : option string) :
  Main.evaluators !! k = Some ev ->
  score_range (Main.self ev) = (0.0, 1.0)%Q
  /\ in_unit (fst (Main.evaluate ev (Main.self ev) query answer context
                     expected_answer)).
Proof.
  intros [[_ ->]|[[_ ->]|[[_ ->]|[_ ->]]]]%evaluators_lookup;
    (split; [reflexivity|]); cbn [Main.evaluate Main.self];
    rewrite with_details_fst.
  - apply relevance_in_unit.
  - apply accuracy_in_unit.
  - apply coherence_in_unit.
  - apply completeness_in_unit.
Qed.

Lemma score_of_in_unit (request : Main.EvaluationRequest) (k : string) (v : Q) :
  Spec.score_of request k = Some v -> in_unit v.
Proof.
  unfold Spec.score_of.
  destruct (Main.evaluators !! k) as [ev|] eqn:E; [|discriminate].
  intros [= <-]. by apply (evaluator_score_in_unit k).
Qed.

(** X16.  [get_available_evaluators] lists exactly the names the aggregator
    recognizes, each with the score range (0.0, 1.0), and every score the
    evaluator of a listed name returns lies in the listed range. *)
Theorem available_evaluators (k : string) :
  (Main.get_available_evaluators !! k = None <-> Spec.unknown k = true)
  /\ (forall info,
        Main.get_available_evaluators !! k = Some info ->
        Main.info_score_range info = (0.0, 1.0)%Q
        /\ forall request, exists score,
             Spec.score_of request k = Some score
             /\ (fst (Main.info_score_range info) <= score
                 <= snd (Main.info_score_range info))%Q).
Proof.
  unfold Main.get_available_evaluators, Spec.unknown, Spec.score_of.
  rewrite lookup_fmap.
  destruct (Main.evaluators !! k) as [ev|] eqn:E; cbn [fmap option_fmap option_map].
  - split; [split; discriminate|]. intros info [= <-].
    cbn [Main.info_score_range].
    split; [by apply (evaluator_score_in_unit k ev "" "" None None)|].
    intros request. eexists. split; [reflexivity|].
    destruct (evaluator_score_in_unit k ev (Main.query request)
                (Main.answer request) (Main.context request)
                (Main.expected_answer request) E) as [-> H].
    unfold in_unit in H. cbn [fst snd]. lra.
  - split; [done | discriminate].
Qed.

(** ** The dictionaries of a response *)

Section DictionaryOrder.
Context {V : Type}.
Implicit Types (d : list (string * V)) (k : string) (v : V).

Lemma dict_set_keys k v d :
  Main.keys (Main.dict_set k v d)
  = if bool_decide (k ∈ Main.keys d) then Main.keys d else (Main.keys d ++ [k])%list.
Proof.
  unfold Main.keys. induction d as [|[k0 v0] d IH]; [reflexivity|].
  cbn [Main.dict_set List.map fst].
  destruct (String.eqb_spec k k0) as [->|Hk]; cbn [List.map fst].
  - rewrite bool_decide_eq_true_2; [reflexivity | apply elem_of_cons; by left].
  - rewrite IH. destruct (bool_decide (k ∈ List.map fst d)) eqn:E.
    + apply bool_decide_eq_true in E.
      rewrite bool_decide_eq_true_2; [reflexivity | apply elem_of_cons; by right].
    + apply bool_decide_eq_false in E.
      rewrite bool_decide_eq_false_2; [reflexivity|].
      rewrite elem_of_cons. intros [?|?]; congruence.
Qed.

Lemma dict_set_Forall (P : string * V -> Prop) k v d :
  P (k, v) -> Forall P d -> Forall P (Main.dict_set k v d).
Proof.
  intros Hkv. induction 1 as [|[k0 v0] d H0 Hd IH]; cbn [Main.dict_set].
  - by constructor.
  - destruct (String.eqb k k0); by constructor.
Qed.

End DictionaryOrder.

Lemma first_requests_cons (have : list string) (criterion : string)
    (criteria : list string) :
  Spec.first_requests have (criterion :: criteria)
  = (Spec.first_requests have [criterion]
     ++ Spec.first_requests (have ++ Spec.first_requests have [criterion]) criteria)%list.
Proof.
  cbn [Spec.first_requests].
  destruct (Spec.unknown criterion || bool_decide (criterion ∈ have));
    [by rewrite app_nil_r | reflexivity].
Qed.

(** What the loop keeps: the two dictionaries have the same keys, every
    score is the one its evaluator gives, and the keys come in the order in
    which the criteria first name them. *)
Lemma run_criterion_shape (request : Main.EvaluationRequest)
    (st : Main.loop_state) (criterion : string) :
  Main.keys (Main.evaluation_details st) = Main.keys (Main.detailed_scores st) ->
  Forall (fun entry => Spec.score_of request (fst entry) = Some (snd entry))
    (Main.detailed_scores st) ->
  let st' := Main.run_criterion request st criterion in
  Main.keys (Main.evaluation_details st') = Main.keys (Main.detailed_scores st')
  /\ Forall (fun entry => Spec.score_of request (fst entry) = Some (snd entry))
       (Main.detailed_scores st')
  /\ Main.keys (Main.detailed_scores st')
     = (Main.keys (Main.detailed_scores st)
        ++ Spec.first_requests (Main.keys (Main.detailed_scores st)) [criterion])%list.
Proof.
  intros Hkeys Hscores. cbv zeta.
  pose proof (eq_refl (Spec.score_of request criterion)) as Hscore.
  unfold Spec.score_of at 1 in Hscore.
  unfold Main.run_criterion, Spec.first_requests, Spec.unknown.
  destruct (Main.evaluators !! criterion) as [ev|].
  - destruct (Main.evaluate ev _ _ _ _ _) as [score d].
    cbn [fst] in Hscore.
    cbn [Main.detailed_scores Main.evaluation_details orb].
    split; [by rewrite !dict_set_keys, Hkeys|].
    split; [by apply dict_set_Forall|].
    rewrite dict_set_keys.
    destruct (bool_decide _); [by rewrite app_nil_r | reflexivity].
  - cbn [Main.detailed_scores Main.evaluation_details orb].
    split; [exact Hkeys|]. split; [exact Hscores | by rewrite app_nil_r].
Qed.

Lemma run_criteria_shape (request : Main.EvaluationRequest)
    (criteria : list string) :
  forall st,
    Main.keys (Main.evaluation_details st) = Main.keys (Main.detailed_scores st) ->
    Forall (fun entry => Spec.score_of request (fst entry) = Some (snd entry))
      (Main.detailed_scores st) ->
    let st' := Main.run_criteria request criteria st in
    Main.keys (Main.evaluation_details st') = Main.keys (Main.detailed_scores st')
    /\ Forall (fun entry => Spec.score_of request (fst entry) = Some (snd entry))
         (Main.detailed_scores st')
    /\ Main.keys (Main.detailed_scores st')
       = (Main.keys (Main.detailed_scores st)
          ++ Spec.first_requests (Main.keys (Main.detailed_scores st)) criteria)%list.
Proof.
  unfold Main.run_criteria.
  induction criteria as [|c criteria IH]; intros st Hkeys Hscores; cbv zeta.
  - cbn [fold_left Spec.first_requests]. by rewrite app_nil_r.
  - cbn [fold_left].
    destruct (run_criterion_shape request st c Hkeys Hscores) as (Hk & Hs & Ho).
    destruct (IH _ Hk Hs) as (Hk' & Hs' & Ho').
    split; [exact Hk'|]. split; [exact Hs'|].
    by rewrite Ho', Ho, (first_requests_cons _ c criteria), app_assoc.
Qed.

(** ** Scores of a response *)

Lemma sum_in_unit (l : list Q) :
  Forall in_unit l ->
  forall acc, (acc <= fold_left Qplus l acc <= acc + Qnat (length l))%Q.
Proof.
  induction 1 as [|x l [Hx0 Hx1] _ IH]; intros acc; cbn [fold_left length].
  - change (Qnat 0) with 0%Q. lra.
  - rewrite Qnat_S. specialize (IH (acc + x)%Q). lra.
Qed.

Lemma overall_in_unit (scores : list (string * Q)) :
  Forall (fun entry => in_unit (snd entry)) scores ->
  in_unit (Main.overall scores).
Proof.
  intros H.
  assert (Hv : Forall in_unit (Main.values scores))
    by (unfold Main.values; by apply List.Forall_map).
  pose proof (sum_in_unit _ Hv 0) as Hsum.
  assert (Hlen : length (Main.values scores) = length scores)
    by apply length_map.
  rewrite Hlen in Hsum. unfold Main.overall.
  destruct scores as [|e l]; [unfold in_unit; lra|].
  assert (Hpos : (0 < Qnat (length (e :: l)))%Q)
    by (apply Qnat_pos; simpl; lia).
  split; [apply Qle_shift_div_l | apply Qle_shift_div_r]; lra.
Qed.

Lemma round3_in_unit (x : Q) : in_unit x -> in_unit (round3 x).
Proof.
  intros [H0 H1]. unfold round3. cbv zeta.
  set (y := (x * 1000)%Q). set (f := Qfloor y).
  assert (Hy : (0 <= y <= 1000)%Q) by (unfold y; lra).
  pose proof (Qfloor_le y) as Hfl. pose proof (Qlt_floor y) as Hfu.
  fold f in Hfl, Hfu. rewrite inject_Z_plus in Hfu.
  change (inject_Z 1) with 1%Q in Hfu. clearbody f. clearbody y.
  assert (Hz : forall a b : Z, (inject_Z a < inject_Z b + 1)%Q -> (a <= b)%Z).
  { intros a b H. apply Z.lt_succ_r. rewrite <- Z.add_1_r, Zlt_Qlt, inject_Z_plus.
    exact H. }
  assert (Hf0 : (0 <= f)%Z) by (apply Hz; change (inject_Z 0) with 0%Q; lra).
  assert (Hf1 : (f <= 1000)%Z).
  { rewrite Zle_Qle. change (inject_Z 1000) with 1000%Q. lra. }
  assert (Hn : forall n : Z, (0 <= n <= 1000)%Z -> in_unit (inject_Z n / 1000)).
  { intros n [Hn0 Hn1]. rewrite Zle_Qle in Hn0, Hn1.
    change (inject_Z 0) with 0%Q in Hn0. change (inject_Z 1000) with 1000%Q in Hn1.
    split; [apply Qle_shift_div_l | apply Qle_shift_div_r]; lra. }
  assert (Hup : (0.5 <= y - inject_Z f)%Q -> (f + 1 <= 1000)%Z).
  { intros Hd. assert (f <= 999)%Z; [|lia].
    apply Hz. change (inject_Z 999) with 999%Q. lra. }
  destruct (Qltb (y - inject_Z f) 0.5) eqn:E1; [apply Hn; lia|].
  assert (Hd : (0.5 <= y - inject_Z f)%Q).
  { destruct (Qlt_le_dec (y - inject_Z f) 0.5) as [Hlt|Hle]; [|exact Hle].
    apply Qltb_lt in Hlt. congruence. }
  specialize (Hup Hd).
  destruct (Qltb 0.5 (y - inject_Z f)); [apply Hn; lia|].
  destruct (Z.even f); apply Hn; lia.
Qed.

Lemma keys_rounded (scores : list (string * Q)) :
  Main.keys (List.map (fun '(k, v) => (k, round3 v)) scores) = Main.keys scores.
Proof.
  unfold Main.keys. induction scores as [|[k v] scores IH]; [reflexivity|].
  cbn [List.map fst]. by rewrite IH.
Qed.

(** X17.  In every response the evaluated criteria are the recognized names of the
    request in the order in which it first names them, each once; the
    rounded scores and the details have these same keys in this order; each
    rounded score is the rounded score of its evaluator and lies between 0
    and 1, and so does the overall score. *)
Theorem response_shape (now : Main.clock) (query answer : string)
    (context expected_answer : option string) (criteria : list string) :
  let request := Spec.request query answer context expected_answer criteria in
  exists response logged,
    Main.evaluate_llm_response now request = Main.Returned response logged
    /\ Main.criteria_evaluated (Main.evaluation_summary response)
       = Spec.first_requests [] criteria
    /\ Main.keys (Main.response_scores response)
       = Main.criteria_evaluated (Main.evaluation_summary response)
    /\ Main.keys (Main.summary_details (Main.evaluation_summary response))
       = Main.criteria_evaluated (Main.evaluation_summary response)
    /\ Forall (fun entry =>
                 option_map round3 (Spec.score_of request (fst entry))
                 = Some (snd entry)
                 /\ (0 <= snd entry <= 1)%Q)
         (Main.response_scores response)
    /\ (0 <= Main.overall_score response <= 1)%Q.
Proof.
  intros request. unfold Main.evaluate_llm_response.
  cbn [Main.evaluation_criteria request Spec.request].
  eexists. eexists. split; [reflexivity|].
  cbn [Main.evaluation_summary Main.criteria_evaluated Main.response_scores
       Main.summary_details Main.overall_score].
  match goal with
  | |- context [Main.run_criteria ?r criteria ?st0] =>
      destruct (run_criteria_shape r criteria st0 eq_refl (List.Forall_nil _))
        as (Hkeys & Hscores & Horder);
      set (st := Main.run_criteria r criteria st0) in *
  end.
  cbn [Main.detailed_scores Main.keys List.map app] in Horder.
  split; [exact Horder|]. split; [apply keys_rounded|]. split; [exact Hkeys|].
  split.
  - apply List.Forall_map. eapply Forall_impl; [exact Hscores|].
    intros [k v] H. cbn [fst snd] in *.
    rewrite H. split; [reflexivity|].
    apply round3_in_unit. exact (score_of_in_unit request k v H).
  - apply round3_in_unit, overall_in_unit.
    eapply Forall_impl; [exact Hscores|].
    intros [k v] H. exact (score_of_in_unit request k v H).
Qed.

(** ** The order and the repetition of the criteria *)

Lemma lookup_elem {V : Type} (d : list (string * V)) (k : string) (v : V) :
  NoDup (Main.keys d) -> ((k, v) ∈ d <-> Spec.lookup k d = Some v).
Proof.
  unfold Main.keys. induction d as [|[k0 v0] d IH]; cbn [List.map fst Spec.lookup].
  - intros _. rewrite elem_of_nil. split; [done | discriminate].
  - intros [Hk0 Hd]%NoDup_cons. rewrite elem_of_cons.
    destruct (String.eqb_spec k k0) as [->|Hk].
    + split; [|intros [= ->]; by left].
      intros [[= ->]|Hin]; [reflexivity|]. exfalso. apply Hk0.
      apply list_elem_of_fmap. by exists (k0, v).
    + rewrite <- (IH Hd). split; [|by right].
      intros [[= -> _]|Hin]; [done | exact Hin].
Qed.





(** ** Recommendations *)

Lemma recommendations_fold (scores : list (string * Q)) :
  forall acc,
    fold_left
      (fun recommendations '(criterion, score) =>
         if Qltb score 0.6 then
           match Main.recommendation criterion with
           | Some r => (recommendations ++ [r])%list
           | None => recommendations
           end
         else recommendations)
      scores acc
    = (acc ++ omap Spec.advice scores)%list.
Proof.
  induction scores as [|[k v] scores IH]; intros acc; cbn [fold_left omap list_omap].
  - by rewrite app_nil_r.
  - rewrite IH. unfold Spec.advice at 2. cbn [fst snd].
    destruct (Qltb v 0.6); [|reflexivity].
    destruct (Main.recommendation k); [by rewrite <- app_assoc | reflexivity].
Qed.

Lemma advice_not_great_job (entry : string * Q) (r : string) :
  Spec.advice entry = Some r -> r <> Spec.great_job.
Proof.
  unfold Spec.advice, Main.recommendation.
  destruct (Qltb _ _); [|discriminate].
  repeat (destruct (String.eqb _ _); [intros [= <-]; discriminate|]).
  discriminate.
Qed.

Lemma recommendations_omap (scores : list (string * Q))
    (d : list (string * Main.details)) :
  Main._generate_recommendations scores d
  = match omap Spec.advice scores with
    | [] => [Spec.great_job]
    | advised => advised
    end.
Proof.
  unfold Main._generate_recommendations. rewrite recommendations_fold.
  cbn [app]. by destruct (omap Spec.advice scores).
Qed.

Lemma advice_none (scores : list (string * Q)) :
  omap Spec.advice scores = []
  <-> Forall (fun entry => Spec.advice entry = None) scores.
Proof.
  induction scores as [|e scores IH]; cbn [omap list_omap].
  - split; [constructor | reflexivity].
  - destruct (Spec.advice e) eqn:E.
    + split; [discriminate|]. intros H. inversion H. congruence.
    + rewrite IH. split; [by constructor | by inversion 1].
Qed.

Lemma recommendations_props (scores : list (string * Q))
    (d : list (string * Main.details)) :
  (Main._generate_recommendations scores d = [Spec.great_job]
   <-> Forall (fun entry => Spec.advice entry = None) scores)
  /\ (forall entry r,
        entry ∈ scores -> Spec.advice entry = Some r ->
        r ∈ Main._generate_recommendations scores d).
Proof.
  rewrite recommendations_omap, <- advice_none.
  assert (Hin : forall entry r,
             entry ∈ scores -> Spec.advice entry = Some r ->
             r ∈ omap Spec.advice scores).
  { intros entry r H Hr. apply list_elem_of_omap. by exists entry. }
  destruct (omap Spec.advice scores) as [|r l] eqn:E.
  - split; [done|]. intros entry r H Hr.
    specialize (Hin entry r H Hr). by apply elem_of_nil in Hin.
  - split; [|exact Hin]. split; [|discriminate]. intros [= -> ->]. exfalso.
    assert (Hr : Spec.great_job ∈ omap Spec.advice scores)
      by (rewrite E; apply elem_of_cons; by left).
    apply list_elem_of_omap in Hr as (entry & _ & Hr).
    by apply advice_not_great_job in Hr.
Qed.

(** X19.  [_generate_recommendations] never returns an empty list; it returns the
    single message of praise exactly when no entry calls for advice (a score
    of at least 0.6, or a name without a message); otherwise the advice of
    every entry that calls for one is in the list, which is never longer than
    the list of scores. *)
Theorem recommendations_spec (scores : list (string * Q))
    (d : list (string * Main.details)) :
  Main._generate_recommendations scores d <> []
  /\ (Main._generate_recommendations scores d = [Spec.great_job]
      <-> Forall (fun entry => Spec.advice entry = None) scores)
  /\ (forall entry r,
        entry ∈ scores -> Spec.advice entry = Some r ->
        r ∈ Main._generate_recommendations scores d)
  /\ (length (Main._generate_recommendations scores d)
      <= Nat.max 1 (length scores))%nat.
Proof.
  destruct (recommendations_props scores d) as [Hgreat Hin].
  split; [|split; [exact Hgreat | split; [exact Hin|]]];
    rewrite recommendations_omap.
  - by destruct (omap Spec.advice scores).
  - assert (Hlen : (length (omap Spec.advice scores) <= length scores)%nat).
    { clear. induction scores as [|e scores IH];
        cbn [omap list_omap length]; [lia|].
      destruct (Spec.advice e); cbn [length]; lia. }
    destruct (omap Spec.advice scores); cbn [length] in *; lia.
Qed.

Lemma first_requests_unknown (criteria : list string) :
  (forall k, k ∈ criteria -> Spec.unknown k = true) ->
  forall have, Spec.first_requests have criteria = [].
Proof.
  induction criteria as [|c criteria IH]; intros H have; [reflexivity|].
  cbn [Spec.first_requests]. rewrite (H c) by (apply elem_of_cons; by left).
  cbn [orb]. apply IH. intros k Hk. apply H, elem_of_cons. by right.
Qed.

(** X20.  A request none of whose criteria is recognized, the empty list of
    criteria included, is answered with no evaluated criterion, the overall
    score 0 and, as its only recommendation, the message of praise. *)
Theorem unknown_criteria (now : Main.clock) (query answer : string)
    (context expected_answer : option string) (criteria : list string) :
  (forall k, k ∈ criteria -> Spec.unknown k = true) ->
  exists response logged,
    Main.evaluate_llm_response now
      (Spec.request query answer context expected_answer criteria)
    = Main.Returned response logged
    /\ Main.criteria_evaluated (Main.evaluation_summary response) = []
    /\ (Main.overall_score response == 0)%Q
    /\ Main.recommendations (Main.evaluation_summary response)
       = [Spec.great_job].
Proof.
  intros Hunknown. unfold Main.evaluate_llm_response.
  cbn [Main.evaluation_criteria Spec.request].
  eexists. eexists. split; [reflexivity|].
  cbn [Main.evaluation_summary Main.criteria_evaluated Main.overall_score
       Main.recommendations].
  match goal with
  | |- context [Main.run_criteria ?r criteria ?st0] =>
      destruct (run_criteria_shape r criteria st0 eq_refl (List.Forall_nil _))
        as (_ & _ & Horder);
      set (st := Main.run_criteria r criteria st0) in *
  end.
  cbn [Main.detailed_scores Main.keys List.map app] in Horder.
  rewrite (first_requests_unknown criteria Hunknown) in Horder.
  assert (Hscores : Main.detailed_scores st = []).
  { unfold Main.keys in Horder. by apply map_eq_nil in Horder. }
  rewrite Hscores. split; [reflexivity|]. split; reflexivity.
Qed.

(** X20, for the single unknown criterion "bogus". *)
Lemma unknown_criteria_witness :
  (forall k, k ∈ ["bogus"] -> Spec.unknown k = true)
  /\ exists response logged,
       Main.evaluate_llm_response {| Main.id_stamp := "1"; Main.iso_stamp := "2" |}
         (Spec.request "What is rain?" "Rain is water." None None ["bogus"])
       = Main.Returned response logged
       /\ Main.criteria_evaluated (Main.evaluation_summary response) = []
       /\ (Main.overall_score response == 0)%Q
       /\ Main.recommendations (Main.evaluation_summary response)
          = [Spec.great_job].
Proof.
  assert (H : forall k, k ∈ ["bogus"] -> Spec.unknown k = true).
  { intros k ->%list_elem_of_singleton. vm_compute. reflexivity. }
  split; [exact H|].
  exact (unknown_criteria {| Main.id_stamp := "1"; Main.iso_stamp := "2" |}
           "What is rain?" "Rain is water." None None ["bogus"] H).
Defined.

(** ** Key topics *)

Lemma compile_topic_pattern :
  ReParse.compile "\b[A-Za-z]{3,}\b" = Some Spec.topic_regex.
Proof. vm_compute. reflexivity. Qed.

Lemma lower_letter_char (c : ascii) :
  Re.set_ok false [Re.CRange "A" "Z"; Re.CRange "a" "z"] c = true ->
  Spec.lower_letter (PyStr.lower_char c) = true.
Proof.
  destruct c as [[] [] [] [] [] [] [] []]; cbv; intros H;
    first [discriminate H | reflexivity].
Qed.

Lemma power_letters (n : nat) :
  forall w,
    Spec.power (Spec.lang Spec.letter) n w ->
    PyStr.len w = n
    /\ Spec.string_all Spec.lower_letter (PyStr.lower w) = true.
Proof.
  induction n as [|n IH]; intros w H; cbn [Spec.power] in H.
  - by subst w.
  - destruct H as (w1 & w2 & -> & (c & -> & Hc) & Hw2).
    destruct (IH w2 Hw2) as [Hlen Hall].
    rewrite append_cons, append_nil. unfold PyStr.len in *.
    cbn [String.length PyStr.lower Spec.string_all].
    by rewrite Hlen, (lower_letter_char c Hc), Hall.
Qed.

Lemma len_lower (s : string) : PyStr.len (PyStr.lower s) = PyStr.len s.
Proof.
  unfold PyStr.len. induction s as [|c s IH]; [reflexivity|].
  cbn [PyStr.lower String.length]. by rewrite IH.
Qed.

(** X21.  The key topics of a query are listed without repetition; each is made
    of at least three lower-case ASCII letters and is not a stop word. *)
Theorem key_topics_well_formed (query : string) :
  NoDup (Completeness._extract_key_topics query)
  /\ forall topic,
       topic ∈ Completeness._extract_key_topics query ->
       (3 <= PyStr.len topic)%nat
       /\ Spec.string_all Spec.lower_letter topic = true
       /\ topic ∉ Completeness.topic_stop_words.
Proof.
  unfold Completeness._extract_key_topics, Completeness._extract_key_topics_in. cbv zeta.
  split; [apply NoDup_elements|].
  intros topic Hin. apply elem_of_elements, elem_of_list_to_set in Hin.
  apply list_elem_of_In, in_map_iff in Hin as (word & <- & Hword).
  apply filter_In in Hword as [Hword Hstop].
  unfold re.findall, re.with_pattern in Hword.
  rewrite compile_topic_pattern in Hword.
  pose proof (findall_lang false Spec.topic_regex query) as Hlang.
  rewrite List.Forall_forall in Hlang. specialize (Hlang word Hword).
  cbn [Spec.lang Spec.topic_regex] in Hlang.
  destruct Hlang as (? & ? & -> & -> & w & ? & -> & (n & Hn & _ & Hw)
                     & ? & ? & -> & -> & ->).
  rewrite append_nil, !append_nil_r in *.
  destruct (power_letters n w Hw) as [Hlen Hall].
  split; [rewrite len_lower; lia|]. split; [exact Hall|].
  apply negb_true_iff, bool_decide_eq_false in Hstop. exact Hstop.
Qed.

(** ** A text compared with itself *)

(** X22.  A text compared with itself has the numeric sub-score 0.8 when it holds
    no number and 1 when it holds one. *)
Theorem numerical_self (text : string) :
  (Spec.first_number text = Spec.NoNumber
   /\ (Accuracy._compare_numerical_values text text == 0.8)%Q)
  \/ (exists x, Spec.first_number text = Spec.Number x
                /\ (Accuracy._compare_numerical_values text text == 1)%Q).
Proof.
  pose proof (numerical_values_spec text text) as H.
  pose proof (first_number_parses text) as Hparse.
  pose proof (first_number_not_nan text) as Hnan.
  destruct (Spec.first_number text) as [| |x]; [left | done | right].
  - split; [reflexivity | exact H].
  - exists x. split; [reflexivity|]. rewrite H. cbn [Spec.numeric_subscore].
    rewrite eqb_refl; [reflexivity|]. intros ->. by apply Hnan.
Qed.

(** ** The recommendations of a response *)

Lemma recommendation_known (k : string) :
  Main.recommendation k = None <-> Spec.unknown k = true.
Proof.
  pose proof (evaluators_known k) as H.
  rewrite !elem_of_cons, elem_of_nil in H.
  unfold Main.recommendation.
  destruct (String.eqb_spec k "relevance") as [->|?];
    [split; [discriminate | done]|].
  destruct (String.eqb_spec k "accuracy") as [->|?];
    [split; [discriminate | done]|].
  destruct (String.eqb_spec k "coherence") as [->|?];
    [split; [discriminate | done]|].
  destruct (String.eqb_spec k "completeness") as [->|?];
    [split; [discriminate | done]|].
  split; [intros _ | done].
  destruct (Spec.unknown k); [reflexivity|].
  exfalso. destruct H as [H _]. specialize (H eq_refl). tauto.
Qed.

(** X23.  In a response, every requested and recognized criterion that scores
    below 0.6, before rounding, has its advice among the recommendations,
    and the recommendations are the single message of praise exactly when
    no such criterion scores below 0.6. *)
Theorem response_recommendations (now : Main.clock) (query answer : string)
    (context expected_answer : option string) (criteria : list string) :
  let request := Spec.request query answer context expected_answer criteria in
  exists response logged,
    Main.evaluate_llm_response now request = Main.Returned response logged
    /\ (forall k score,
          k ∈ criteria -> Spec.score_of request k = Some score ->
          (score < 0.6)%Q ->
          exists r,
            Main.recommendation k = Some r
            /\ r ∈ Main.recommendations (Main.evaluation_summary response))
    /\ (Main.recommendations (Main.evaluation_summary response) = [Spec.great_job]
        <-> forall k score,
              k ∈ criteria -> Spec.score_of request k = Some score ->
              (0.6 <= score)%Q).
Proof.
  intros request. unfold Main.evaluate_llm_response.
  cbn [Main.evaluation_criteria request Spec.request].
  eexists. eexists. split; [reflexivity|].
  cbn [Main.evaluation_summary Main.recommendations].
  pose proof (run_criteria_invariant request criteria [] _
                (initial_state_invariant request)) as (Hnodup & Hlookup & _).
  rewrite app_nil_l in Hlookup.
  change (Spec.initial_state request) with
    {| Main.detailed_scores := [];
       Main.evaluation_details := [];
       Main.log := [Main.InfoEvaluating (PyStr.take 100 (Main.query request))] |}
    in Hnodup, Hlookup.
  set (st := Main.run_criteria request criteria _) in *.
  assert (Hentry : forall k v,
             (k, v) ∈ Main.detailed_scores st
             <-> k ∈ criteria /\ Spec.score_of request k = Some v).
  { intros k v. rewrite (lookup_elem _ k v Hnodup), Hlookup.
    destruct (decide (k ∈ criteria)); [tauto|].
    split; [discriminate | tauto]. }
  assert (Hadvice : forall k v,
             Spec.score_of request k = Some v ->
             (Spec.advice (k, v) = None <-> (0.6 <= v)%Q)
             /\ ((v < 0.6)%Q -> Spec.advice (k, v) = Main.recommendation k
                                /\ Main.recommendation k <> None)).
  { intros k v Hscore.
    assert (Hknown : Main.recommendation k <> None).
    { rewrite recommendation_known. unfold Spec.unknown.
      unfold Spec.score_of in Hscore.
      by destruct (Main.evaluators !! k). }
    unfold Spec.advice. cbn [fst snd].
    destruct (Qltb v 0.6) eqn:E.
    - apply Qltb_lt in E. split; [|done]. split; [done | lra].
    - split; [|intros Hlt; apply Qltb_lt in Hlt; congruence].
      split; [intros _ | done].
      destruct (Qlt_le_dec v 0.6) as [Hlt|Hle]; [|exact Hle].
      apply Qltb_lt in Hlt. congruence. }
  destruct (recommendations_props (Main.detailed_scores st)
              (Main.evaluation_details st)) as (Hgreat & Hin).
  split.
  - intros k score Hk Hscore Hlow.
    destruct (Hadvice k score Hscore) as [_ Ha]. destruct (Ha Hlow) as [Heq Hsome].
    destruct (Main.recommendation k) as [r|] eqn:Er; [|done].
    exists r. split; [reflexivity|].
    apply (Hin (k, score)); [by apply Hentry | exact Heq].
  - fold Spec.great_job. rewrite Hgreat, List.Forall_forall. split.
    + intros H k score Hk Hscore. apply (Hadvice k score Hscore).
      apply H. apply list_elem_of_In. by apply Hentry.
    + intros H [k v] [Hk Hscore]%list_elem_of_In%Hentry.
      apply (Hadvice k v Hscore). by apply (H k).
Qed.

(** ** The scenarios of the specification, evaluated *)

Example findall_numbers :
  re.findall Accuracy.number_pattern "Pi is 3.14, not 3 or 22b; v1.2.3 of 7."
  = ["3.14"; "3"; "2.3"; "7"].
Proof. vm_compute. reflexivity. Qed.

Example split_sentences :
  Base._split_into_sentences "Hello world. How are you?!  Fine..."
  = ["Hello world"; "How are you"; "Fine"].
Proof. vm_compute. reflexivity. Qed.

Example percent_needs_a_word_after :
  re.search (hd "" Accuracy.specific_indicators) "it is 50 percent" = true
  /\ re.search (hd "" Accuracy.specific_indicators) "it is 50% of it" = false.
Proof. split; vm_compute; reflexivity. Qed.

(** Scenario 1: the capital of France. *)
Example scenario_relevance :
  let query := "What is the capital of France?" in
  let answer := "The capital of France is Paris." in
  (0.5 < Relevance._calculate_term_overlap
           (Relevance._extract_key_terms query)
           (Relevance._extract_key_terms answer))%Q
  /\ (0.2 <= Relevance._check_direct_answer_patterns query answer)%Q
  /\ (0.6 <= fst (Relevance.evaluate Relevance.init query answer None None))%Q.
Proof. repeat split; vm_compute; congruence. Qed.

(** Scenario 2: a four-word answer to a request for an explanation. *)
Example scenario_completeness :
  (Completeness._evaluate_response_depth "Plants make food." <= 0.3)%Q
  /\ (Completeness._evaluate_aspect_coverage
        "Explain how photosynthesis works." "Plants make food."
        (Completeness._analyze_query_aspects "Explain how photosynthesis works.")
      == 0.5)%Q.
Proof. split; vm_compute; congruence. Qed.

(** Scenario 3: absolutist language. *)
Example scenario_uncertainty :
  (Accuracy._check_uncertainty_handling
     "It is definitely always true that X never happens." < 0.7)%Q.
Proof. vm_compute. reflexivity. Qed.

(** A keyword glued to the last word of the answer is not an added word:
    the last word changes and the overlap can drop. *)
Example glued_keyword :
  let query_terms := Relevance._extract_key_terms "alpha beta" in
  (Relevance._calculate_term_overlap query_terms
     (Relevance._extract_key_terms "alpha") == 0.5)%Q
  /\ (Relevance._calculate_term_overlap query_terms
        (Relevance._extract_key_terms ("alpha" +:+ "beta")) == 0)%Q.
Proof. split; vm_compute; reflexivity. Qed.

(** In binary64, too, each scorer's weighted sum of four (or three)
    sub-scores equal to 1.0 is exactly 1.0. *)
#[local] Set Warnings "-inexact-float".
Example weights_binary64 :
  (PrimFloat.eqb (1.0 * 0.4 + 1.0 * 0.3 + 1.0 * 0.3) 1.0
   && PrimFloat.eqb (1.0 * 0.3 + 1.0 * 0.3 + 1.0 * 0.2 + 1.0 * 0.2) 1.0
   && PrimFloat.eqb (1.0 * 0.3 + 1.0 * 0.25 + 1.0 * 0.25 + 1.0 * 0.2) 1.0)%float
  = true.
Proof. vm_compute. reflexivity. Qed.
